(** * Silene will execution and weighted reallocation: a shallow embedding

    The development follows three source files of the repository:

    - [src/frontend/src/services/kiteService.ts]: [quantifySocialIntents],
      [calculateWeightedDistribution] and its local closure
      [normalizeToHundred] (module [Reallocation]);
    - [src/backend/willService.ts]: [verifyWillAuthorization] (module
      [SignatureVerifier]), [checkSpendingLimits], [updateDailySpent],
      [executeWill] and [executeWithKitepass] (module [WillService]);
    - [src/backend/database.ts]: the three tables the engine reads and
      writes (module [Database]).

    Part I holds the embedding and the concrete scenarios, Part II the
    properties: [BigIntStrings], [AmountScaling], [ReallocationProps],
    [SignatureProps] and [EngineProps].

    Around these, the development covers the functions they call and
    the functions that call them:

    - [src/backend/database.ts]: [saveWill], [getWillByOwner],
      [getTransactionByHash] and the operations on linked wallets
      (module [Tables]);
    - [src/backend/willService.ts]: [storeWillAuthorization] (module
      [Authorization]), and the route of the server that links a wallet
      to a will (module [WalletRoutes]);
    - [src/backend/kitepassService.ts]: [withdrawToBeneficiaries]
      (module [KitepassBatch]);
    - the contract [DeathCertificateRegistry] the engine declares a
      death to (module [Registry]);
    - [src/frontend/src/services/kiteService.ts]: [formatBalance],
      [calculateDistribution] (module [Planning]) and
      [signWillAuthorization] (module [OwnerSignature]);

    with the properties of [AccountingProps], [TablesProps],
    [ReallocationShape], [PlanningProps], [OwnerSignatureProps],
    [AuthorizationProps], [WalletRoutesProps], [KitepassBatchProps] and
    [RegistryProps].

    Conventions of the embedding.

    - A JavaScript [number] that the code computes with -- a
      percentage, a share of the reallocation -- is an IEEE 754 double:
      the primitive [float] with its [*], [/], [+], [-] and comparisons;
      [Math.round], [Math.floor] and [Math.min] are written out on the
      mantissa and the exponent of the double ([JS.Math_round],
      [JS.Math_floor], [JS.Math_min]).  [BigInt] of a number throws
      unless the number is an integer ([JS.NumberToBigInt]).  The
      numbers of the signature verifier, which are only formatted and
      compared, are kept as rationals or [NaN].
    - A [bigint] is an integer of [Z]; [/] on bigints truncates towards
      zero and is [Z.quot].  The three amounts of [SpendingLimits] are
      the strings the store keeps; [BigInt] of a string and [toString]
      of a bigint are written out ([JS.StringToBigInt],
      [JS.BigInt_toString]), and [BigInt] throws on a string that is no
      integer.
    - [ethers.formatUnits] and [ethers.formatEther] of a bigint return;
      [ethers.formatEther] of a string that nothing has parsed may
      throw ([Authorization.formatEther]).
    - The answer of the language model is a value of JSON
      ([Reallocation.Value]) that the code reads without a check; the
      lower case of an arbitrary string and the conversions between
      numbers and strings are taken from the runtime
      ([Reallocation.Coercions]).  The lower case of an address is
      written out on the ASCII letters ([JS.toLowerCase]).
    - Console output is dropped.
    - An [async] function that awaits its collaborators one after the
      other is a state transformer over the store, the outside world
      and the local variables of the call; an exception is an [Outcome]
      carrying the message of the error, and [try]/[catch] keeps the
      state reached when the exception was thrown.
    - What the code takes from [ethers] and from the network is a
      parameter: the classes [SignatureVerifier.Runtime],
      [WillService.Collaborators] and [Authorization.Host]. *)

From Stdlib Require Import ZArith QArith Qround Lia Lqa List String Ascii Bool.
From Stdlib Require Import Permutation Sorted Setoid Morphisms DecimalString DecimalPos.
From Stdlib Require Import PrimFloat SpecFloat FloatOps.
From Stdlib Require Uint63.
Import ListNotations.

Set Implicit Arguments.
Set Warnings "-inexact-float,-register-all".

(* ================================================================== *)
(** * Part I: definitions *)
(* ================================================================== *)

(** ** The fragment of the JavaScript runtime the code relies on *)

Module JS.

(** The result of a call that may throw: the value, or the message of
    the error. *)
Inductive Outcome (A : Type) : Type :=
| Returned (a : A)
| Thrown (message : string).
Arguments Returned {A} a.
Arguments Thrown {A} message.

(** *** Numbers

    A [number] is an IEEE 754 double: the primitive [float], with its
    [+], [-], [*], [/], [=?] (which is [===] on numbers) and [<?]. *)

(** The double of an integer below [2 ^ 53] in magnitude. *)
Definition ofZ (z : Z) : float :=
  if (z <? 0)%Z then (- of_uint63 (Uint63.of_Z (- z)))%float
  else of_uint63 (Uint63.of_Z z).

(** [Math.floor]: a double whose exponent is not negative is an
    integer already; otherwise the mantissa is shifted and, for a
    negative number that is not an integer, rounded away from zero. *)
Definition Math_floor (x : float) : float :=
  match Prim2SF x with
  | S754_finite s m e =>
      if (0 <=? e)%Z then x
      else
        let q := Z.shiftr (Zpos m) (- e) in
        if s then ofZ (- (if (Z.shiftl q (- e) =? Zpos m)%Z then q else q + 1))
        else ofZ q
  | _ => x
  end.

(** [Math.round]: the nearest integer, halves towards plus infinity;
    a result of zero keeps the sign of the argument. *)
Definition Math_round (x : float) : float :=
  match Prim2SF x with
  | S754_finite _ _ _ =>
      let f := Math_floor x in
      if (x - f <? 0.5)%float then f
      else
        let r := (f + 1)%float in
        if (r =? 0)%float && (x <? 0)%float then (- 0)%float else r
  | _ => x
  end.

(** [Math.min] on two numbers: [NaN] if one of them is, and [-0]
    below [+0]. *)
Definition Math_min (x y : float) : float :=
  if is_nan x then x
  else if is_nan y then y
  else if (x <? y)%float then x
  else if (y <? x)%float then y
  else match Prim2SF x with
       | S754_zero true => x
       | _ => y
       end.

(** [BigInt(n)] for a number: a [RangeError] unless [n] is an integer;
    [NaN] and the infinities are none. *)
Definition NumberToBigInt (x : float) : Outcome Z :=
  match Prim2SF x with
  | S754_zero _ => Returned 0%Z
  | S754_finite s m e =>
      if (0 <=? e)%Z
      then Returned (if s then - Z.shiftl (Zpos m) e else Z.shiftl (Zpos m) e)%Z
      else
        let q := Z.shiftr (Zpos m) (- e) in
        if (Z.shiftl q (- e) =? Zpos m)%Z
        then Returned (if s then - q else q)%Z
        else Thrown "The number cannot be converted to a BigInt because it is not an integer"
  | _ => Thrown "The number cannot be converted to a BigInt because it is not an integer"
  end.

(** The rational a finite double stands for, in lowest terms; [None]
    for [NaN] and the infinities, which [JSON.stringify] writes as
    [null]. *)
Definition toRational (x : float) : option Q :=
  match Prim2SF x with
  | S754_zero _ => Some 0%Q
  | S754_finite s m e =>
      let n := if s then Zneg m else Zpos m in
      Some (if (0 <=? e)%Z then inject_Z (Z.shiftl n e)
            else Qred (Qmake n (Z.to_pos (Z.shiftl 1 (- e)))))
  | _ => None
  end.

(** A number of the verifier, which is kept as a rational: it is an
    integer. *)
Definition isInteger (x : Q) : bool := Qeq_bool x (inject_Z (Qfloor x)).

(** *** Strings *)

(** [String.prototype.toLowerCase] and the [LOWER] of SQLite on the
    strings the back end lowers, which are addresses: the ASCII
    letters. *)
Definition lower_ascii (c : ascii) : ascii :=
  let n := nat_of_ascii c in
  if (65 <=? n)%nat && (n <=? 90)%nat then ascii_of_nat (n + 32) else c.

Fixpoint toLowerCase (s : string) : string :=
  match s with
  | EmptyString => EmptyString
  | String c s' => String (lower_ascii c) (toLowerCase s')
  end.

(** [s.includes(sub)]: [sub] occurs in [s] as a substring. *)
Fixpoint includes (s sub : string) : bool :=
  if String.prefix sub s then true
  else match s with
       | EmptyString => false
       | String _ s' => includes s' sub
       end.

(** The double quote character, as a one-character string. *)
Definition dquote : string := String "034"%char EmptyString.

(** *** Bigints and their strings

    A [bigint] is an integer of [Z]. *)

(** [n.toString()] of a bigint. *)
Definition BigInt_toString (n : Z) : string := NilZero.string_of_int (Z.to_int n).

(** The white space [BigInt(s)] trims from a string, the strings being
    sequences of bytes in UTF-8: TAB to CR and the space; U+00A0;
    U+1680; U+2000 to U+200A, U+2028, U+2029 and U+202F; U+205F;
    U+3000; U+FEFF. *)
Definition white1 (a : ascii) : bool :=
  let x := nat_of_ascii a in
  ((9 <=? x) && (x <=? 13) || (x =? 32))%nat.

Definition white2 (a b : ascii) : bool :=
  ((nat_of_ascii a =? 194) && (nat_of_ascii b =? 160))%nat.

Definition white3 (a b c : ascii) : bool :=
  let x := nat_of_ascii a in
  let y := nat_of_ascii b in
  let z := nat_of_ascii c in
  ((x =? 225) && (y =? 154) && (z =? 128)
   || (x =? 226) && (y =? 128)
      && ((128 <=? z) && (z <=? 138) || (z =? 168) || (z =? 169) || (z =? 175))
   || (x =? 226) && (y =? 129) && (z =? 159)
   || (x =? 227) && (y =? 128) && (z =? 128)
   || (x =? 239) && (y =? 187) && (z =? 191))%nat.

(** The string without the white space it starts with; [back] reads
    the bytes of a character from the last to the first, for a string
    that is reversed. *)
Fixpoint trimStart (back : bool) (s : string) : string :=
  match s with
  | String a s1 =>
      if white1 a then trimStart back s1
      else
        match s1 with
        | String b s2 =>
            if (if back then white2 b a else white2 a b) then trimStart back s2
            else
              match s2 with
              | String c s3 =>
                  if (if back then white3 c b a else white3 a b c)
                  then trimStart back s3
                  else s
              | EmptyString => s
              end
        | EmptyString => s
        end
  | EmptyString => s
  end.

Fixpoint reverseOnto (s acc : string) : string :=
  match s with
  | EmptyString => acc
  | String c s' => reverseOnto s' (String c acc)
  end.

Definition reverse (s : string) : string := reverseOnto s EmptyString.

Definition trim (s : string) : string :=
  reverse (trimStart true (reverse (trimStart false s))).

(** The value of a digit in a base, for the digits and the letters of
    both cases. *)
Definition digitValue (base : Z) (c : ascii) : option Z :=
  let x := Z.of_nat (nat_of_ascii c) in
  let v := (if (48 <=? x) && (x <=? 57) then x - 48
            else if (97 <=? x) && (x <=? 122) then x - 87
            else if (65 <=? x) && (x <=? 90) then x - 55
            else base)%Z in
  if (v <? base)%Z then Some v else None.

Fixpoint digitsValue (base acc : Z) (s : string) : option Z :=
  match s with
  | EmptyString => Some acc
  | String c s' =>
      match digitValue base c with
      | Some v => digitsValue base (acc * base + v)%Z s'
      | None => None
      end
  end.

(** A numeral in a base: one digit at least. *)
Definition numeral (base : Z) (s : string) : Outcome Z :=
  match s with
  | EmptyString => Thrown "Cannot convert to a BigInt"
  | _ => match digitsValue base 0%Z s with
         | Some n => Returned n
         | None => Thrown "Cannot convert to a BigInt"
         end
  end.

Definition negated (o : Outcome Z) : Outcome Z :=
  match o with
  | Returned n => Returned (- n)%Z
  | Thrown m => Thrown m
  end.

(** [BigInt(s)] for a string: a [SyntaxError] unless [s], trimmed, is
    empty, a decimal numeral with or without a sign, or a numeral in
    base 16, 8 or 2 after [0x], [0o] or [0b]. *)
Definition StringToBigInt (s : string) : Outcome Z :=
  match trim s with
  | EmptyString => Returned 0%Z
  | String "-" digits => negated (numeral 10 digits)
  | String "+" digits => numeral 10 digits
  | String "0" (String c digits) as literal =>
      let x := nat_of_ascii c in
      if ((x =? 120) || (x =? 88))%nat then numeral 16 digits
      else if ((x =? 111) || (x =? 79))%nat then numeral 8 digits
      else if ((x =? 98) || (x =? 66))%nat then numeral 2 digits
      else numeral 10 literal
  | literal => numeral 10 literal
  end.

(** The characters [toString] writes a bigint with: the decimal digits
    and the sign. *)
Definition digit (c : ascii) : bool :=
  let x := nat_of_ascii c in
  ((48 <=? x) && (x <=? 57))%nat.

Definition signOrDigit (c : ascii) : bool :=
  digit c || (nat_of_ascii c =? 45)%nat.

Fixpoint every (p : ascii -> bool) (s : string) : bool :=
  match s with
  | EmptyString => true
  | String c s' => p c && every p s'
  end.

End JS.

(** ** Weighted reallocation ([kiteService.ts], lines 1286-1518) *)

Module Reallocation.
Import JS.
Open Scope string_scope.

(** [Beneficiary] of [src/frontend/src/types.ts]. *)
Record Beneficiary : Type := mkBeneficiary {
  name : string;
  category : string;
  percentage : float;
  walletAddress : string;
  reason : string
}.

(** A value of JSON.  The answer of the language model is parsed and
    cast to [SocialBeneficiary[]] without a check, so that any value
    may stand where the list and where its entries are expected. *)
Inductive Value : Type :=
| Null
| Bool (b : bool)
| Number (n : float)
| Str (s : string)
| Array (items : list Value)
| Object (fields : list (string * Value)).

(** What reading a property gives: a value, or [undefined]. *)
Definition Field : Type := option Value.

Inductive Source : Type := WILL | SOCIAL | BLEND.

Record AdjustmentEntry : Type := mkEntry {
  beneficiary : Field;
  originalPercentage : float;
  adjustedPercentage : float;
  entry_reason : string;
  source : Source
}.

(** An entry of [adjustedBeneficiaries]: a beneficiary of the will
    with its name and category, or one taken from a social entry,
    whose name and relationship are whatever the entry holds. *)
Record AdjustedBeneficiary : Type := mkAdjusted {
  ab_name : Field;
  ab_category : Field;
  ab_percentage : float;
  ab_walletAddress : string;
  ab_reason : string
}.

Inductive Recommendation : Type := EXECUTE | REVIEW.

Record WeightedDistributionResult : Type := mkResult {
  adjustedBeneficiaries : list AdjustedBeneficiary;
  res_willWeight : float;
  res_socialWeight : float;
  adjustmentLog : list AdjustmentEntry;
  recommendation : Recommendation
}.

(** What the reallocation takes from the runtime:
    [String.prototype.toLowerCase] on any string, the string of a
    number in a template literal, and the number of a string that is
    multiplied. *)
Class Coercions : Type := {
  String_toLowerCase : string -> string;
  NumberToString : float -> string;
  StringToNumber : string -> float
}.

Definition willWeight : float := 0.80.
Definition socialWeight : float := 0.20.

(** [Math.round(x * 10) / 10]. *)
Definition round1 (x : float) : float := (Math_round (x * 10) / 10)%float.

Definition setPercentage (b : AdjustedBeneficiary) (p : float) : AdjustedBeneficiary :=
  mkAdjusted (ab_name b) (ab_category b) p (ab_walletAddress b) (ab_reason b).

Fixpoint lookup (key : string) (fields : list (string * Value)) : Field :=
  match fields with
  | [] => None
  | (k, v) :: fields' => if String.eqb k key then Some v else lookup key fields'
  end.

(** [v.key] for a value that is not [null]: none of the keys the code
    reads is a property of a string, a number, a boolean or an
    array. *)
Definition read (v : Value) (key : string) : Field :=
  match v with
  | Object fields => lookup key fields
  | _ => None
  end.

(** [v.key]: a [TypeError] on [null]. *)
Definition prop (v : Value) (key : string) : Outcome Field :=
  match v with
  | Null => Thrown ("Cannot read properties of null (reading '" ++ key ++ "')")
  | _ => Returned (read v key)
  end.

(** [f === s] for a string [s]. *)
Definition isString (f : Field) (s : string) : bool :=
  match f with
  | Some (Str x) => String.eqb x s
  | _ => false
  end.

(** A value in a condition. *)
Definition truthy (f : Field) : bool :=
  match f with
  | None | Some Null => false
  | Some (Bool b) => b
  | Some (Number n) => negb (n =? 0)%float && negb (is_nan n)
  | Some (Str s) => negb (String.eqb s "")
  | Some (Array _) | Some (Object _) => true
  end.

(** A [for] loop or an array method whose callback may throw. *)
Fixpoint findM {A} (p : A -> Outcome bool) (l : list A) : Outcome (option A) :=
  match l with
  | [] => Returned None
  | x :: l' =>
      match p x with
      | Thrown m => Thrown m
      | Returned true => Returned (Some x)
      | Returned false => findM p l'
      end
  end.

Fixpoint filterM {A} (p : A -> Outcome bool) (l : list A) : Outcome (list A) :=
  match l with
  | [] => Returned []
  | x :: l' =>
      match p x with
      | Thrown m => Thrown m
      | Returned keep =>
          match filterM p l' with
          | Thrown m => Thrown m
          | Returned kept => Returned (if keep then x :: kept else kept)
          end
      end
  end.

Fixpoint someM {A} (p : A -> Outcome bool) (l : list A) : Outcome bool :=
  match l with
  | [] => Returned false
  | x :: l' =>
      match p x with
      | Thrown m => Thrown m
      | Returned true => Returned true
      | Returned false => someM p l'
      end
  end.

Fixpoint mapM {A B} (f : A -> Outcome B) (l : list A) : Outcome (list B) :=
  match l with
  | [] => Returned []
  | x :: l' =>
      match f x with
      | Thrown m => Thrown m
      | Returned y =>
          match mapM f l' with
          | Thrown m => Thrown m
          | Returned ys => Returned (y :: ys)
          end
      end
  end.

(** [quantifySocialIntents]: the language model is asked only for a
    list of intents that is not empty, and every failure of the call,
    of [JSON.parse] or of the reading of [parsed.beneficiaries], which
    throws on [null], yields the empty list.  [llm] stands for
    [callAIAPI] followed by the parse.  What is returned is the parsed
    value when it is an array, and otherwise
    [parsed.beneficiaries || []]. *)
Definition quantifySocialIntents (llm : list string -> string -> Outcome Value)
    (extractedIntents : list string) (lang : string) : Value :=
  match extractedIntents with
  | [] => Array []
  | _ =>
      match llm extractedIntents lang with
      | Thrown _ => Array []
      | Returned (Array items) => Array items
      | Returned parsed =>
          match prop parsed "beneficiaries" with
          | Thrown _ => Array []
          | Returned (Some v) => if truthy (Some v) then v else Array []
          | Returned None => Array []
          end
      end
  end.

Section Weighted.
Context {CO : Coercions}.

(** A value in a template literal. *)
Fixpoint display (v : Value) : string :=
  match v with
  | Null => "null"
  | Bool b => if b then "true" else "false"
  | Number n => NumberToString n
  | Str s => s
  | Array items =>
      String.concat ","
        (map (fun item => match item with Null => "" | _ => display item end) items)
  | Object _ => "[object Object]"
  end.

Definition displayField (f : Field) : string :=
  match f with
  | None => "undefined"
  | Some v => display v
  end.

(** A value that is multiplied. *)
Definition ToNumber (f : Field) : float :=
  match f with
  | None => nan
  | Some Null => 0%float
  | Some (Bool b) => if b then 1%float else 0%float
  | Some (Number n) => n
  | Some (Str s) => StringToNumber s
  | Some v => StringToNumber (display v)
  end.

(** [sb.name.toLowerCase()] for the name [f]: a [TypeError] unless [f]
    is a string. *)
Definition lowered (f : Field) : Outcome string :=
  match f with
  | Some (Str s) => Returned (String_toLowerCase s)
  | None => Thrown "Cannot read properties of undefined (reading 'toLowerCase')"
  | Some Null => Thrown "Cannot read properties of null (reading 'toLowerCase')"
  | _ => Thrown "sb.name.toLowerCase is not a function"
  end.

(** The entries of [socialBeneficiaries] for its method [find] or
    [filter]: a [TypeError] unless it is an array. *)
Definition entries (method : string) (socialBeneficiaries : Value)
    : Outcome (list Value) :=
  match socialBeneficiaries with
  | Array items => Returned items
  | _ => Thrown ("socialBeneficiaries." ++ method ++ " is not a function")
  end.

(** The callback of [find] in step 3.1:
    [sb.action === 'REMOVE' &&
     sb.name.toLowerCase().includes(wb.name.toLowerCase())]. *)
Definition removes (wb : Beneficiary) (sb : Value) : Outcome bool :=
  match prop sb "action" with
  | Thrown m => Thrown m
  | Returned action =>
      if isString action "REMOVE"
      then match lowered (read sb "name") with
           | Thrown m => Thrown m
           | Returned n => Returned (includes n (String_toLowerCase (name wb)))
           end
      else Returned false
  end.

(** Step 3.1: the first social entry that asks to remove [wb]. *)
Definition exclusion (socialBeneficiaries : Value) (wb : Beneficiary)
    : Outcome (option Value) :=
  match entries "find" socialBeneficiaries with
  | Thrown m => Thrown m
  | Returned items => findM (removes wb) items
  end.

(** The share of a will beneficiary before rounding. *)
Definition blendWill (exclusion : option Value) (wb : Beneficiary) : float :=
  match exclusion with
  | Some _ => (percentage wb * willWeight * 0.5)%float
  | None => (percentage wb * willWeight)%float
  end.

Definition reasonWill (exclusion : option Value) : string :=
  match exclusion with
  | Some ex => "社交排除信号 (" ++ displayField (read ex "intent") ++ ")，保护机制保留 40%"
  | None => "原遗嘱 × 80%"
  end.

Definition sourceWill (exclusion : option Value) : Source :=
  match exclusion with
  | Some _ => BLEND
  | None => WILL
  end.

Definition logWill (exclusion : option Value) (wb : Beneficiary) : AdjustmentEntry :=
  mkEntry (Some (Str (name wb))) (percentage wb)
          (round1 (blendWill exclusion wb))
          (reasonWill exclusion)
          (sourceWill exclusion).

Definition adjustWill (exclusion : option Value) (wb : Beneficiary)
    : AdjustedBeneficiary :=
  mkAdjusted (Some (Str (name wb))) (Some (Str (category wb)))
             (round1 (blendWill exclusion wb))
             (walletAddress wb)
             (reason wb ++ " [调整: " ++ reasonWill exclusion ++ "]").

(** The body of the loop of step 3.1: what is pushed on the log and on
    the adjusted list. *)
Definition fromWill (socialBeneficiaries : Value) (wb : Beneficiary)
    : Outcome (AdjustmentEntry * AdjustedBeneficiary) :=
  match exclusion socialBeneficiaries wb with
  | Thrown m => Thrown m
  | Returned ex => Returned (logWill ex wb, adjustWill ex wb)
  end.

(** The callback of [filter] in step 3.2:
    [sb.action === 'ADD' && !willBeneficiaries.some(wb =>
       wb.name.toLowerCase().includes(sb.name.toLowerCase()))]. *)
Definition adds (willBeneficiaries : list Beneficiary) (sb : Value) : Outcome bool :=
  match prop sb "action" with
  | Thrown m => Thrown m
  | Returned action =>
      if isString action "ADD"
      then match someM (fun wb =>
                          match lowered (read sb "name") with
                          | Thrown m => Thrown m
                          | Returned n =>
                              Returned (includes (String_toLowerCase (name wb)) n)
                          end)
                       willBeneficiaries with
           | Thrown m => Thrown m
           | Returned named => Returned (negb named)
           end
      else Returned false
  end.

(** Step 3.2: the social entries that add somebody the will does not
    name. *)
Definition newFromSocial (willBeneficiaries : list Beneficiary)
    (socialBeneficiaries : Value) : Outcome (list Value) :=
  match entries "filter" socialBeneficiaries with
  | Thrown m => Thrown m
  | Returned items => filterM (adds willBeneficiaries) items
  end.

Definition cappedPercentage (sb : Value) : float :=
  Math_min (ToNumber (read sb "percentage") * socialWeight)%float 30%float.

Definition logSocial (sb : Value) : AdjustmentEntry :=
  mkEntry (read sb "name") 0%float (round1 (cappedPercentage sb))
          ("社交新增 (" ++ displayField (read sb "relationship") ++ "): "
           ++ displayField (read sb "intent"))
          SOCIAL.

Definition adjustSocial (sb : Value) : AdjustedBeneficiary :=
  mkAdjusted (read sb "name")
             (if truthy (read sb "relationship") then read sb "relationship"
              else Some (Str "Unknown"))
             (round1 (cappedPercentage sb))
             "0x53C1844Af058fE3B3195e49fEC8f97E0a4F87772"
             ("从社交媒体提取: " ++ dquote ++ displayField (read sb "intent") ++ dquote).

(** [beneficiaries.reduce((sum, b) => sum + b.percentage, 0)]. *)
Definition total (beneficiaries : list AdjustedBeneficiary) : float :=
  fold_left (fun sum b => (sum + ab_percentage b)%float) beneficiaries 0%float.

(** [beneficiaries.reduce((maxI, b, i, arr) =>
      b.percentage > arr[maxI].percentage ? i : maxI, 0)]:
    the index of the first largest share. *)
Definition percentageAt (arr : list AdjustedBeneficiary) (i : nat) : float :=
  match nth_error arr i with
  | Some b => ab_percentage b
  | None => nan
  end.

Definition maxIdxFrom (arr : list AdjustedBeneficiary)
    (rest : list AdjustedBeneficiary) (maxI i : nat) : nat :=
  fst (fold_left (fun '(maxI, i) b =>
                    (if (percentageAt arr maxI <? ab_percentage b)%float then i else maxI,
                     S i))
                 rest (maxI, i)).

Definition maxIdx (arr : list AdjustedBeneficiary) : nat :=
  maxIdxFrom arr arr 0%nat 0%nat.

(** [beneficiaries[i].percentage = f(beneficiaries[i].percentage)]. *)
Fixpoint updateAt (i : nat) (f : float -> float) (l : list AdjustedBeneficiary)
    : list AdjustedBeneficiary :=
  match l, i with
  | [], _ => []
  | b :: l', O => setPercentage b (f (ab_percentage b)) :: l'
  | b :: l', S i' => b :: updateAt i' f l'
  end.

(** The shares after the scaling and truncation of step 4. *)
Definition scaled (beneficiaries : list AdjustedBeneficiary)
    : list AdjustedBeneficiary :=
  let factor := (100 / total beneficiaries)%float in
  map (fun b => setPercentage b
                  (Math_floor (ab_percentage b * factor * 10) / 10)%float)
      beneficiaries.

(** The residual of step 4: [Math.round((100 - newTotal) * 10) / 10]. *)
Definition residual (beneficiaries : list AdjustedBeneficiary) : float :=
  round1 (100 - total (scaled beneficiaries))%float.

(** [normalizeToHundred]; the array is updated in place, the embedding
    returns its final content. *)
Definition normalizeToHundred (beneficiaries : list AdjustedBeneficiary)
    : list AdjustedBeneficiary :=
  if (total beneficiaries =? 0)%float then beneficiaries
  else
    let truncated := scaled beneficiaries in
    let diff := residual beneficiaries in
    if negb (diff =? 0)%float && (0 <? List.length truncated)%nat
    then updateAt (maxIdx truncated) (fun p => round1 (p + diff)%float) truncated
    else truncated.

(** [calculateWeightedDistribution]; a [TypeError] of step 3 leaves the
    function.  [intentMatch] is not used by the computation. *)
Definition calculateWeightedDistribution
    (llm : list string -> string -> Outcome Value)
    (willBeneficiaries : list Beneficiary) (extractedIntents : list string)
    (intentMatch : float) (lang : string) : Outcome WeightedDistributionResult :=
  let socialBeneficiaries := quantifySocialIntents llm extractedIntents lang in
  match mapM (fromWill socialBeneficiaries) willBeneficiaries with
  | Thrown m => Thrown m
  | Returned kept =>
      match newFromSocial willBeneficiaries socialBeneficiaries with
      | Thrown m => Thrown m
      | Returned newcomers =>
          Returned
            (mkResult
               (normalizeToHundred (map snd kept ++ map adjustSocial newcomers))
               willWeight socialWeight
               (map fst kept ++ map logSocial newcomers)
               (if (0.5 <? socialWeight)%float then REVIEW else EXECUTE))
      end
  end.

End Weighted.

(** *** Notions used to state the properties *)

(** An entry as the prompt asks for it, as far as the reallocation
    reads it before it computes: an object whose name is a string. *)
Definition named (sb : Value) : Prop :=
  exists fields n, sb = Object fields /\ lookup "name" fields = Some (Str n).


End Reallocation.

(** ** The signature verifier ([willService.ts], lines 103-172) *)

Module SignatureVerifier.
Import JS.
Open Scope string_scope.

(** The beneficiaries reach the verifier as parsed JSON: objects whose
    keys come in the order the client wrote them, possibly with further
    keys.  [JSNumber None] is [NaN]. *)
Inductive JSValue : Type :=
| JSUndefined
| JSString (s : string)
| JSNumber (n : option Q).

Definition JSObject : Type := list (string * JSValue).

(** Property access [o.key]. *)
Fixpoint get (o : JSObject) (key : string) : JSValue :=
  match o with
  | [] => JSUndefined
  | (k, v) :: o' => if String.eqb k key then v else get o' key
  end.

(** The message of the [WillAuthorization] typed data. *)
Record Message : Type := mkMessage {
  msg_owner : string;
  msg_beneficiaries : string;
  msg_totalAmount : Z;
  msg_validUntil : Z;
  nonce : Z
}.

(** What the verifier takes from the runtime and from [ethers]:
    [Number(s)] and [String(n)] for numbers, [BigInt(s)], and
    [ethers.verifyTypedData] at the constant domain and types of the
    module, which recovers the signer or throws. *)
Class Runtime : Type := {
  Number_of_string : string -> option Q;
  Number_toString : Q -> string;
  BigInt_of_string : string -> Outcome Z;
  verifyTypedData : Message -> string -> Outcome string
}.

Section Verifier.
Context {RT : Runtime}.

(** [Number(v)]. *)
Definition Number (v : JSValue) : option Q :=
  match v with
  | JSUndefined => None
  | JSString s => Number_of_string s
  | JSNumber n => n
  end.

(** The object literal [{ address: b.address, name: b.name,
    percentage: Number(b.percentage) }]. *)
Definition canonical (b : JSObject) : JSObject :=
  [ ("address", get b "address");
    ("name", get b "name");
    ("percentage", JSNumber (Number (get b "percentage"))) ].

Definition hexDigit (n : nat) : string :=
  String (ascii_of_nat (if (n <? 10)%nat then 48 + n else 87 + n)) EmptyString.

(** The escape of one character inside a JSON string. *)
Definition escapeChar (c : ascii) : string :=
  let n := nat_of_ascii c in
  if (n =? 34)%nat then "\" ++ dquote
  else if (n =? 92)%nat then "\\"
  else if (n =? 8)%nat then "\b"
  else if (n =? 12)%nat then "\f"
  else if (n =? 10)%nat then "\n"
  else if (n =? 13)%nat then "\r"
  else if (n =? 9)%nat then "\t"
  else if (n <? 32)%nat then "\u00" ++ hexDigit (n / 16) ++ hexDigit (n mod 16)
  else String c EmptyString.

Fixpoint escape (s : string) : string :=
  match s with
  | EmptyString => EmptyString
  | String c s' => escapeChar c ++ escape s'
  end.

Definition quote (s : string) : string := dquote ++ escape s ++ dquote.

(** [JSON.stringify] of a property value; [None] when the property is
    left out. *)
Definition stringifyValue (v : JSValue) : option string :=
  match v with
  | JSUndefined => None
  | JSString s => Some (quote s)
  | JSNumber (Some q) => Some (Number_toString q)
  | JSNumber None => Some "null"
  end.

Fixpoint stringifyProperties (o : JSObject) : list string :=
  match o with
  | [] => []
  | (k, v) :: o' =>
      match stringifyValue v with
      | Some s => (quote k ++ ":" ++ s) :: stringifyProperties o'
      | None => stringifyProperties o'
      end
  end.

Definition stringifyObject (o : JSObject) : string :=
  "{" ++ String.concat "," (stringifyProperties o) ++ "}".

Definition stringifyArray (l : list JSObject) : string :=
  "[" ++ String.concat "," (map stringifyObject l) ++ "]".

(** [beneficiariesStr]: the string that is signed. *)
Definition beneficiariesStr (beneficiaries : list JSObject) : string :=
  stringifyArray (map canonical beneficiaries).

(** [BigInt(validUntil)]. *)
Definition BigInt_of_number (x : Q) : Outcome Z :=
  if isInteger x then Returned (Qfloor x) else Thrown "RangeError".

(** [verifyWillAuthorization]; every exception gives [false]. *)
Definition verifyWillAuthorization (owner : string)
    (beneficiaries : list JSObject) (totalAmount : string)
    (validUntil : Q) (signature : string) : bool :=
  match BigInt_of_string totalAmount with
  | Thrown _ => false
  | Returned total =>
      match BigInt_of_number validUntil with
      | Thrown _ => false
      | Returned until =>
          let message :=
            mkMessage owner (beneficiariesStr beneficiaries) total until 0 in
          match verifyTypedData message signature with
          | Thrown _ => false
          | Returned recoveredAddress =>
              String.eqb (toLowerCase recoveredAddress) (toLowerCase owner)
          end
      end
  end.

(** Two objects with the same address, name and percentage. *)
Definition sameFields (b b' : JSObject) : Prop :=
  get b "address" = get b' "address"
  /\ get b "name" = get b' "name"
  /\ Number (get b "percentage") = Number (get b' "percentage").

End Verifier.

End SignatureVerifier.

(** ** The persistent store ([database.ts]) *)

Module Database.
Open Scope string_scope.

Inductive WillStatus : Type := pending | executed | expired.

Definition WillStatus_toString (s : WillStatus) : string :=
  match s with
  | pending => "pending"
  | executed => "executed"
  | expired => "expired"
  end.

Record Beneficiary : Type := mkBeneficiary {
  address : string;
  percentage : float;
  name : string
}.

(** The three amounts are strings, read with [BigInt] when they are
    compared. *)
Record SpendingLimits : Type := mkSpendingLimits {
  perTxLimit : string;
  dailyLimit : string;
  dailySpent : string;
  lastResetDate : string
}.

Record StoredWillAuthorization : Type := mkWill {
  willId : string;
  owner : string;
  beneficiaries : list Beneficiary;
  totalAmount : string;
  validUntil : Z;
  signature : string;
  createdAt : Z;
  status : WillStatus;
  useStablecoin : bool;
  spendingLimits : SpendingLimits;
  aaWallet : option string;
  kitepassAddress : option string;
  useKitepass : bool;
  spendingRulesConfigured : bool
}.

Inductive TxType : Type := DEATH_DECLARATION | DISTRIBUTION.
Inductive TxStatus : Type := tx_pending | tx_confirmed | tx_failed.

Record TransactionRecord : Type := mkTransaction {
  txHash : string;
  tx_willId : string;
  tx_owner : string;
  beneficiaryAddress : string;
  beneficiaryName : string;
  amount : Z;
  tokenSymbol : string;
  txType : TxType;
  tx_status : TxStatus;
  tx_createdAt : Z
}.

Inductive LinkedWalletStatus : Type := lw_pending | approved | removed.

Record LinkedWallet : Type := mkLinkedWallet {
  lw_willId : string;
  lw_address : string;
  lw_signature : string;
  approvedAt : Z;
  lw_status : LinkedWalletStatus;
  lastBalance : option string
}.

(** The three tables of the engine. *)
Record DB : Type := mkDB {
  wills : list StoredWillAuthorization;
  transactions : list TransactionRecord;
  linked_wallets : list LinkedWallet
}.

Definition setStatus (w : StoredWillAuthorization) (s : WillStatus)
    : StoredWillAuthorization :=
  mkWill (willId w) (owner w) (beneficiaries w) (totalAmount w) (validUntil w)
         (signature w) (createdAt w) s (useStablecoin w) (spendingLimits w)
         (aaWallet w) (kitepassAddress w) (useKitepass w)
         (spendingRulesConfigured w).

Definition setSpendingLimits (w : StoredWillAuthorization) (l : SpendingLimits)
    : StoredWillAuthorization :=
  mkWill (willId w) (owner w) (beneficiaries w) (totalAmount w) (validUntil w)
         (signature w) (createdAt w) (status w) (useStablecoin w) l
         (aaWallet w) (kitepassAddress w) (useKitepass w)
         (spendingRulesConfigured w).

Definition setBeneficiaries (w : StoredWillAuthorization) (l : list Beneficiary)
    : StoredWillAuthorization :=
  mkWill (willId w) (owner w) l (totalAmount w) (validUntil w)
         (signature w) (createdAt w) (status w) (useStablecoin w)
         (spendingLimits w) (aaWallet w) (kitepassAddress w) (useKitepass w)
         (spendingRulesConfigured w).

(** [SELECT * FROM wills WHERE willId = ?]; the row is parsed into a
    fresh object. *)
Definition getWillById (d : DB) (id : string) : option StoredWillAuthorization :=
  find (fun w => String.eqb (willId w) id) (wills d).

(** [UPDATE wills SET status = ? WHERE willId = ?]. *)
Definition updateWillStatus (id : string) (s : WillStatus) (d : DB) : DB :=
  mkDB (map (fun w => if String.eqb (willId w) id then setStatus w s else w) (wills d))
       (transactions d) (linked_wallets d).

(** [UPDATE wills SET spendingLimits = ? WHERE willId = ?]. *)
Definition updateWillSpendingLimits (id : string) (l : SpendingLimits) (d : DB) : DB :=
  mkDB (map (fun w => if String.eqb (willId w) id then setSpendingLimits w l else w)
            (wills d))
       (transactions d) (linked_wallets d).

(** [INSERT OR REPLACE INTO transactions]: [txHash] is unique, a row
    with the same hash is replaced. *)
Definition saveTransaction (tx : TransactionRecord) (d : DB) : DB :=
  mkDB (wills d)
       (filter (fun t => negb (String.eqb (txHash t) (txHash tx))) (transactions d)
        ++ [tx])
       (linked_wallets d).

(** [ORDER BY approvedAt ASC], as a stable insertion sort. *)
Fixpoint insertByApprovedAt (x : LinkedWallet) (l : list LinkedWallet)
    : list LinkedWallet :=
  match l with
  | [] => [x]
  | y :: l' => if (approvedAt x <? approvedAt y)%Z then x :: l
               else y :: insertByApprovedAt x l'
  end.

Definition orderByApprovedAt (l : list LinkedWallet) : list LinkedWallet :=
  fold_left (fun acc x => insertByApprovedAt x acc) l [].

Definition isApproved (s : LinkedWalletStatus) : bool :=
  match s with approved => true | _ => false end.

(** [SELECT * FROM linked_wallets WHERE willId = ? AND status =
    'approved' ORDER BY approvedAt ASC]. *)
Definition getLinkedWalletsByWillId (d : DB) (id : string) : list LinkedWallet :=
  orderByApprovedAt
    (filter (fun lw => String.eqb (lw_willId lw) id && isApproved (lw_status lw))
            (linked_wallets d)).

End Database.

(** ** The execution engine ([willService.ts]) *)

Module WillService.
Import JS Database.
Open Scope string_scope.
Open Scope Z_scope.

Inductive ResultStatus : Type := confirmed | failed.

Record ExecutionResult : Type := mkExecutionResult {
  beneficiary : string;
  res_txHash : string;
  res_amount : Z;
  res_status : ResultStatus;
  res_tokenSymbol : string;
  error : option string
}.

Record LimitCheck : Type := mkLimitCheck {
  allowed : bool;
  reason : option string
}.

(** The object [executeWill] resolves to. *)
Record Response : Type := mkResponse {
  success : bool;
  resp_transactions : option (list ExecutionResult);
  deathTxHash : option string;
  resp_error : option string
}.

Definition failure (message : string) : Response :=
  mkResponse false None None (Some message).

Definition succeeded (rs : list ExecutionResult) (death : option string) : Response :=
  mkResponse true (Some rs) death None.

(** Results of [getVaultBalance] and [withdrawFunds] of
    [kitepassService.ts]. *)
Record VaultBalance : Type := mkVaultBalance {
  vb_success : bool;
  vb_balance : option string
}.

Record WithdrawResult : Type := mkWithdrawResult {
  wr_success : bool;
  wr_txHash : option string;
  wr_error : option string
}.

(** A string or [undefined] in a condition. *)
Definition truthy (s : option string) : bool :=
  match s with
  | Some x => negb (String.eqb x "")
  | None => false
  end.

(** The collaborators of the engine over a state [W] of the outside
    world (the ledger, the vault provider and the clock).  A call that
    signs takes the custody key; a transfer is the submission followed
    by the wait for its receipt and yields the hash of the receipt. *)
Class Collaborators (W : Type) : Type := {
  DEATH_CERTIFICATE_ADDRESS : string;
  today : W -> string;
  Date_now : W -> Z;
  formatUnits : Z -> Z -> string;
  parseUnits : string -> Z -> Outcome Z;
  getAddress : string -> Outcome string;
  Wallet_address : string -> Outcome string;
  provider_getBalance : string -> W -> Outcome Z * W;
  token_symbol : W -> Outcome string * W;
  token_decimals : W -> Outcome Z * W;
  token_balanceOf : string -> W -> Outcome Z * W;
  token_allowance : string -> string -> W -> Outcome Z * W;
  token_transferFrom : string -> string -> string -> Z -> W -> Outcome string * W;
  custody_sendTransaction : string -> string -> Z -> W -> Outcome string * W;
  recordDeath : string -> string -> string -> nat -> string -> W -> Outcome string * W;
  kitepassGetBalance : string -> W -> VaultBalance * W;
  kitepassWithdraw : string -> string -> string -> string -> W
                     -> Outcome WithdrawResult * W
}.

(** [ethers.parseEther('0.05')] and [ethers.parseEther('0.01')]. *)
Definition minGasRequired : Z := 50000000000000000.
Definition gasReserve : Z := 10000000000000000.

(** The amount of one transfer:
    [(balance * BigInt(Math.round(percentage * 10))) / 1000n].
    [BigInt] throws a [RangeError] when the rounded product is not an
    integer, which is the case of [NaN] and of the infinities. *)
Definition percentageScaled (percentage : float) : Outcome Z :=
  NumberToBigInt (Math_round (percentage * 10)%float).

Definition computeAmount (balance : Z) (percentage : float) : Outcome Z :=
  match percentageScaled percentage with
  | Returned scaled => Returned (Z.quot (balance * scaled) 1000)
  | Thrown m => Thrown m
  end.

Section Engine.
Context {W : Type} {C : Collaborators W}.

Definition formatEther (x : Z) : string := formatUnits x 18.

(** The daily reset of [checkSpendingLimits]. *)
Definition resetIfNewDay (today : string) (limits : SpendingLimits)
    : SpendingLimits :=
  if negb (String.eqb (lastResetDate limits) today)
  then mkSpendingLimits (perTxLimit limits) (dailyLimit limits) "0" today
  else limits.

(** The two comparisons of [checkSpendingLimits].  Each amount is read
    with [BigInt] when its turn comes; a string that is no integer
    throws a [SyntaxError]. *)
Definition compareWithCaps (limits : SpendingLimits) (amount : Z) : Outcome LimitCheck :=
  match StringToBigInt (perTxLimit limits) with
  | Thrown m => Thrown m
  | Returned perTx =>
      if amount >? perTx
      then Returned (mkLimitCheck false
                       (Some ("Exceeds per-transaction limit: " ++ formatEther perTx)))
      else
        match StringToBigInt (dailyLimit limits) with
        | Thrown m => Thrown m
        | Returned daily =>
            match StringToBigInt (dailySpent limits) with
            | Thrown m => Thrown m
            | Returned spent =>
                if spent + amount >? daily
                then Returned (mkLimitCheck false
                                 (Some ("Exceeds daily limit: " ++ formatEther daily)))
                else Returned (mkLimitCheck true None)
            end
        end
  end.

(** [checkSpendingLimits]: the will object with its limits after the
    reset, which is made before anything can throw, and the verdict.
    [today] is the UTC date of the call. *)
Definition checkSpendingLimits (today : string)
    (will : StoredWillAuthorization) (amount : Z)
    : StoredWillAuthorization * Outcome LimitCheck :=
  let limits := resetIfNewDay today (spendingLimits will) in
  (setSpendingLimits will limits, compareWithCaps limits amount).

(** [updateDailySpent]. *)
Definition updateDailySpent (will : StoredWillAuthorization) (amount : Z)
    : Outcome StoredWillAuthorization :=
  let limits := spendingLimits will in
  match StringToBigInt (dailySpent limits) with
  | Thrown m => Thrown m
  | Returned currentSpent =>
      Returned (setSpendingLimits will
                  (mkSpendingLimits (perTxLimit limits) (dailyLimit limits)
                                    (BigInt_toString (currentSpent + amount))
                                    (lastResetDate limits)))
  end.

(** *** The state of one run

    The store, the outside world, the working copy of the will and
    the [results] array. *)
Record Run : Type := mkRun {
  db : DB;
  world : W;
  will : StoredWillAuthorization;
  results : list ExecutionResult
}.

Definition M (A : Type) : Type := Run -> Outcome A * Run.

Definition ret {A} (a : A) : M A := fun r => (Returned a, r).

Definition bind {A B} (c : M A) (k : A -> M B) : M B :=
  fun r => match c r with
           | (Returned a, r') => k a r'
           | (Thrown m, r') => (Thrown m, r')
           end.

(** [try { c } catch (e) { h(e.message) }]. *)
Definition tryCatch {A} (c : M A) (h : string -> M A) : M A :=
  fun r => match c r with
           | (Returned a, r') => (Returned a, r')
           | (Thrown m, r') => h m r'
           end.

(** An awaited call to a collaborator. *)
Definition call {A} (op : W -> Outcome A * W) : M A :=
  fun r => let (o, w) := op (world r) in
           (o, mkRun (db r) w (will r) (results r)).

Definition lift {A} (o : Outcome A) : M A := fun r => (o, r).

Definition getWill : M StoredWillAuthorization := fun r => (Returned (will r), r).
Definition getResults : M (list ExecutionResult) := fun r => (Returned (results r), r).
Definition getDB : M DB := fun r => (Returned (db r), r).
Definition getNow : M Z := fun r => (Returned (Date_now (world r)), r).

Definition modifyDB (f : DB -> DB) : M unit :=
  fun r => (Returned tt, mkRun (f (db r)) (world r) (will r) (results r)).

Definition modifyWill (f : StoredWillAuthorization -> StoredWillAuthorization)
    : M unit :=
  fun r => (Returned tt, mkRun (db r) (world r) (f (will r)) (results r)).

(** [results.push(x)]. *)
Definition push (x : ExecutionResult) : M unit :=
  fun r => (Returned tt, mkRun (db r) (world r) (will r) (results r ++ [x])).

End Engine.

Declare Scope run_scope.
Delimit Scope run_scope with run.
Notation "x <- c ;; k" := (bind c (fun x => k))
  (at level 61, c at next level, right associativity) : run_scope.
Notation "c ;; k" := (bind c (fun _ => k))
  (at level 61, right associativity) : run_scope.

Section Execution.
Context {W : Type} {C : Collaborators W}.
Local Open Scope run_scope.
Local Abbreviation Eff := (@M W).

Fixpoint forEach {A} (body : A -> Eff unit) (l : list A) : Eff unit :=
  match l with
  | [] => ret tt
  | x :: l' => body x ;; forEach body l'
  end.

(** The limiter as consulted by the loop: the clock is read, the
    working copy takes the reset. *)
Definition checkLimits (amount : Z) : Eff LimitCheck :=
  fun r =>
    let (will', verdict) := checkSpendingLimits (today (world r)) (will r) amount in
    (verdict, mkRun (db r) (world r) will' (results r)).

(** The commit of an amount on the working copy. *)
Definition commit (amount : Z) : Eff unit :=
  fun r =>
    match updateDailySpent (will r) amount with
    | Returned will' => (Returned tt, mkRun (db r) (world r) will' (results r))
    | Thrown m => (Thrown m, r)
    end.

(** Submission of one transfer and the wait for its receipt
    (lines 509-533). *)
Definition transfer (custodyKey : string) (linkedWallet : LinkedWallet)
    (b : Beneficiary) (amount : Z) : Eff string :=
  w <- getWill ;;
  if useStablecoin w
  then fromAddr <- lift (getAddress (lw_address linkedWallet)) ;;
       toAddr <- lift (getAddress (address b)) ;;
       call (token_transferFrom custodyKey fromAddr toAddr amount)
  else toAddress <- lift (getAddress (address b)) ;;
       call (custody_sendTransaction custodyKey toAddress amount).

(** The body of the loop over the beneficiaries (lines 481-572).  The
    amount and the check of the limits come before the inner [try]:
    what they throw leaves the loop. *)
Definition distributeTo (custodyKey tokenSymbol : string)
    (linkedWallet : LinkedWallet) (walletBalance : Z) (b : Beneficiary)
    : Eff unit :=
  amount <- lift (computeAmount walletBalance (percentage b)) ;;
  if amount =? 0 then ret tt
  else
    limitCheck <- checkLimits amount ;;
    if negb (allowed limitCheck)
    then push (mkExecutionResult (name b) "" amount failed tokenSymbol
                                 (reason limitCheck))
    else
      tryCatch
        (txHash <- transfer custodyKey linkedWallet b amount ;;
         commit amount ;;
         w <- getWill ;;
         now <- getNow ;;
         modifyDB (saveTransaction
                     (mkTransaction txHash (willId w) (lw_address linkedWallet)
                                    (address b) (name b) amount tokenSymbol
                                    DISTRIBUTION tx_confirmed now)) ;;
         push (mkExecutionResult (name b) txHash amount confirmed tokenSymbol None))
        (fun message =>
           push (mkExecutionResult (name b) "" amount failed tokenSymbol
                                   (Some message))).

(** The distributable balance of a wallet (lines 450-462). *)
Definition distributable (linkedWallet : LinkedWallet) : Eff Z :=
  w <- getWill ;;
  if useStablecoin w
  then call (token_balanceOf (lw_address linkedWallet))
  else rawBalance <- call (provider_getBalance (lw_address linkedWallet)) ;;
       ret (if rawBalance >? gasReserve then rawBalance - gasReserve else 0).

(** The body of the loop over the linked wallets (lines 445-576): an
    exception of the queries, of an amount or of the limiter ends the
    turn of the wallet. *)
Definition processWallet (custodyKey custodyAddress tokenSymbol : string)
    (linkedWallet : LinkedWallet) : Eff unit :=
  tryCatch
    (walletBalance <- distributable linkedWallet ;;
     if walletBalance =? 0 then ret tt
     else
       w <- getWill ;;
       hasAllowance <-
         (if useStablecoin w
          then allowance <- call (token_allowance (lw_address linkedWallet)
                                                  custodyAddress) ;;
               ret (negb (allowance =? 0))
          else ret true) ;;
       if hasAllowance
       then forEach (distributeTo custodyKey tokenSymbol linkedWallet walletBalance)
                    (beneficiaries w)
       else ret tt)
    (fun _ => ret tt).

(** The fan-out over the linked wallets. *)
Definition fanOut (custodyKey custodyAddress tokenSymbol : string)
    (linkedWallets : list LinkedWallet) : Eff unit :=
  forEach (processWallet custodyKey custodyAddress tokenSymbol) linkedWallets.

(** The death declaration; [None] when it is skipped or fails
    (lines 369-418 and 620-663). *)
Definition declareDeath (custodyKey deathMessage : string) : Eff (option string) :=
  tryCatch
    (if String.eqb DEATH_CERTIFICATE_ADDRESS "" then ret None
     else
       w <- getWill ;;
       hash <- call (recordDeath custodyKey (willId w) (owner w)
                                 (List.length (beneficiaries w))
                                 (deathMessage ++ willId w)) ;;
       now <- getNow ;;
       modifyDB (saveTransaction
                   (mkTransaction hash (willId w) (owner w)
                                  DEATH_CERTIFICATE_ADDRESS
                                  "Death Certificate Registry" 0 "KITE"
                                  DEATH_DECLARATION tx_confirmed now)) ;;
       ret (Some hash))
    (fun _ => ret None).

Definition insufficientGas (custodyBalance : Z) : Response :=
  failure ("Custody wallet has insufficient gas. Required: "
           ++ formatEther minGasRequired ++ " KITE, Available: "
           ++ formatEther custodyBalance ++ " KITE").

(** The linked wallets of the run, the owner alone when there is none
    (lines 423-437). *)
Definition linkedWalletsOf (d : DB) (w : StoredWillAuthorization)
    (id : string) : list LinkedWallet :=
  match getLinkedWalletsByWillId d id with
  | [] => [mkLinkedWallet id (owner w) (signature w) (createdAt w) approved None]
  | l => l
  end.

(** The approve mode of [executeWill] (lines 345-585). *)
Definition executeApprove (id custodyPrivateKey : string) : Eff Response :=
  custodyAddress <- lift (Wallet_address custodyPrivateKey) ;;
  custodyBalance <- call (provider_getBalance custodyAddress) ;;
  if custodyBalance <? minGasRequired then ret (insufficientGas custodyBalance)
  else
    death <- declareDeath custodyPrivateKey
                          "Silene Protocol: Death confirmed for will " ;;
    w <- getWill ;;
    d <- getDB ;;
    let linkedWallets := linkedWalletsOf d w id in
    tokenSymbol <- (if useStablecoin w then call token_symbol else ret "KITE") ;;
    tokenDecimals <- (if useStablecoin w then call token_decimals else ret 18) ;;
    fanOut custodyPrivateKey custodyAddress tokenSymbol linkedWallets ;;
    modifyDB (updateWillStatus id executed) ;;
    rs <- getResults ;;
    ret (succeeded rs death).

(** The body of the loop of [executeWithKitepass] (lines 686-752); an
    exception of the amount leaves the loop. *)
Definition withdrawTo (custodyPrivateKey vault : string) (vaultBalance : Z)
    (b : Beneficiary) : Eff unit :=
  amount <- lift (computeAmount vaultBalance (percentage b)) ;;
  let amountFormatted := formatUnits amount 6 in
  if amount =? 0 then ret tt
  else
    tryCatch
      (w <- getWill ;;
       withdrawResult <- call (kitepassWithdraw (owner w) vault amountFormatted
                                                custodyPrivateKey) ;;
       if wr_success withdrawResult && truthy (wr_txHash withdrawResult)
       then
         let hash := match wr_txHash withdrawResult with
                     | Some h => h
                     | None => ""
                     end in
         now <- getNow ;;
         modifyDB (saveTransaction
                     (mkTransaction hash (willId w) vault (address b) (name b)
                                    amount "USDT" DISTRIBUTION tx_confirmed now)) ;;
         push (mkExecutionResult (name b) hash amount confirmed "USDT" None)
       else
         push (mkExecutionResult (name b) "" amount failed "USDT"
                                 (wr_error withdrawResult)))
      (fun message =>
         push (mkExecutionResult (name b) "" amount failed "USDT" (Some message))).

(** [executeWithKitepass] (lines 596-766). The inner [try] yields the
    response of an early [return], if any. *)
Definition executeWithKitepass (custodyPrivateKey : string) : Eff Response :=
  custodyAddress <- lift (Wallet_address custodyPrivateKey) ;;
  custodyBalance <- call (provider_getBalance custodyAddress) ;;
  if custodyBalance <? minGasRequired then ret (insufficientGas custodyBalance)
  else
    death <- declareDeath custodyPrivateKey
                          "Silene Protocol (KitePass): Death confirmed for will " ;;
    w <- getWill ;;
    let vault := match kitepassAddress w with Some a => a | None => "" end in
    early <-
      tryCatch
        (balanceResult <- call (fun x => let (v, x') := kitepassGetBalance vault x in
                                         (Returned v, x')) ;;
         if negb (vb_success balanceResult) || negb (truthy (vb_balance balanceResult))
         then ret (Some (failure "Failed to get KitePass vault balance"))
         else
           let balance := match vb_balance balanceResult with
                          | Some s => s
                          | None => ""
                          end in
           vaultBalance <- lift (parseUnits balance 6) ;;
           if vaultBalance =? 0
           then modifyDB (updateWillStatus (willId w) executed) ;;
                ret (Some (succeeded [] death))
           else forEach (withdrawTo custodyPrivateKey vault vaultBalance)
                        (beneficiaries w) ;;
                ret None)
        (fun message => ret (Some (failure message))) ;;
    match early with
    | Some response => ret response
    | None =>
        modifyDB (updateWillStatus (willId w) executed) ;;
        rs <- getResults ;;
        ret (succeeded rs death)
    end.

Definition isPending (s : WillStatus) : bool :=
  match s with pending => true | _ => false end.

(** The working copy of a stored will: the beneficiaries are replaced
    by a non-empty override (lines 328-332). *)
Definition working (stored : StoredWillAuthorization)
    (overrideBeneficiaries : option (list Beneficiary)) : StoredWillAuthorization :=
  match overrideBeneficiaries with
  | Some (b :: l) => setBeneficiaries stored (b :: l)
  | _ => stored
  end.

(** The mode of [executeWill] for a will (line 340). *)
Definition kitepassMode (w : StoredWillAuthorization) : bool :=
  useKitepass w && truthy (kitepassAddress w).

(** [executeWill] (lines 305-590): the response and the state of the
    store and of the world after the call.  The outer [catch] turns
    every exception into a failure. *)
Definition executeWill (id owner' custodyPrivateKey : string)
    (overrideBeneficiaries : option (list Beneficiary))
    (st : DB * W) : Response * (DB * W) :=
  match getWillById (fst st) id with
  | None => (failure "Will not found", st)
  | Some stored =>
      if negb (String.eqb (toLowerCase (owner stored)) (toLowerCase owner'))
      then (failure "Owner mismatch", st)
      else if negb (isPending (status stored))
      then (failure ("Will already " ++ WillStatus_toString (status stored)), st)
      else
        let w := working stored overrideBeneficiaries in
        let body := if kitepassMode w
                    then executeWithKitepass custodyPrivateKey
                    else executeApprove id custodyPrivateKey in
        match body (mkRun (fst st) (snd st) w []) with
        | (Returned response, r) => (response, (db r, world r))
        | (Thrown message, r) => (failure message, (db r, world r))
        end
  end.

End Execution.

(** *** Notions used to state the properties *)

Section Notions.
Context {W : Type} {C : Collaborators W}.

(** A share that scales to an integer, so that its amount can be
    computed. *)
Definition scalable (b : Beneficiary) : Prop :=
  exists scaled, percentageScaled (percentage b) = Returned scaled.

(** Limits whose three amounts are strings of integers. *)
Definition wellFormed (limits : SpendingLimits) : Prop :=
  exists perTx daily spent,
    StringToBigInt (perTxLimit limits) = Returned perTx
    /\ StringToBigInt (dailyLimit limits) = Returned daily
    /\ StringToBigInt (dailySpent limits) = Returned spent.

(** A will the loop over the beneficiaries goes through without an
    exception. *)
Definition sound (w : StoredWillAuthorization) : Prop :=
  Forall scalable (beneficiaries w) /\ wellFormed (spendingLimits w).

(** The beneficiaries a wallet of balance [walletBalance] pays: those
    with an amount that is not zero. *)
Definition payable (walletBalance : Z) (b : Beneficiary) : bool :=
  match computeAmount walletBalance (percentage b) with
  | Returned amount => negb (amount =? 0)
  | Thrown _ => false
  end.

(** [x] reports the attempt to pay [b] from a wallet of balance
    [walletBalance]: confirmed, or failed with a reason. *)
Definition attempted (tokenSymbol : string) (walletBalance : Z)
    (b : Beneficiary) (x : ExecutionResult) : Prop :=
  beneficiary x = name b
  /\ computeAmount walletBalance (percentage b) = Returned (res_amount x)
  /\ res_tokenSymbol x = tokenSymbol
  /\ ((res_status x = confirmed /\ error x = None)
      \/ (res_status x = failed /\ exists why, error x = Some why)).

(** The balance [processWallet] distributes from a wallet in the state
    [r], if it gets as far as the loop over the beneficiaries: the
    balance query and, for the stablecoin, the allowance query succeed
    and are not zero. *)
Definition eligibleBalance (custodyAddress : string) (linkedWallet : LinkedWallet)
    (r : @Run W) : option Z :=
  match distributable linkedWallet r with
  | (Returned walletBalance, r1) =>
      if walletBalance =? 0 then None
      else if useStablecoin (will r1)
      then match token_allowance (lw_address linkedWallet) custodyAddress (world r1) with
           | (Returned allowance, _) =>
               if allowance =? 0 then None else Some walletBalance
           | (Thrown _, _) => None
           end
      else Some walletBalance
  | (Thrown _, _) => None
  end.

(** The state in which each wallet of the fan-out is processed. *)
Fixpoint walletRuns (custodyKey custodyAddress tokenSymbol : string)
    (linkedWallets : list LinkedWallet) (r : @Run W) : list (@Run W) :=
  match linkedWallets with
  | [] => []
  | lw :: rest =>
      r :: walletRuns custodyKey custodyAddress tokenSymbol rest
             (snd (processWallet custodyKey custodyAddress tokenSymbol lw r))
  end.

(** The results a wallet contributes: one per payable beneficiary, in
    the order of the will, when the wallet is eligible; none otherwise. *)
Definition contribution (custodyAddress tokenSymbol : string)
    (processed : LinkedWallet * @Run W) (group : list ExecutionResult) : Prop :=
  let (linkedWallet, r) := processed in
  match eligibleBalance custodyAddress linkedWallet r with
  | Some walletBalance =>
      Forall2 (attempted tokenSymbol walletBalance)
              (filter (payable walletBalance) (beneficiaries (will r))) group
  | None => group = []
  end.

(** What a step of the fan-out leaves alone: the stored wills and
    linked wallets, the working copy of the will but for its spending
    limits, and the results already pushed. *)
Definition steps (r r' : @Run W) : Prop :=
  wills (db r') = wills (db r)
  /\ linked_wallets (db r') = linked_wallets (db r)
  /\ will r' = setSpendingLimits (will r) (spendingLimits (will r'))
  /\ exists xs, results r' = (results r ++ xs)%list.

(** The state a call reaches before it distributes anything: the
    custody wallet is built and holds the gas that is required, and the
    death is declared, with or without success. *)
Definition started (deathMessage custodyPrivateKey : string) (r : @Run W)
    : option (string * @Run W) :=
  match Wallet_address custodyPrivateKey with
  | Returned custodyAddress =>
      match provider_getBalance custodyAddress (world r) with
      | (Returned custodyBalance, w1) =>
          if custodyBalance <? minGasRequired then None
          else Some (custodyAddress,
                     snd (declareDeath custodyPrivateKey deathMessage
                                       (mkRun (db r) w1 (will r) (results r))))
      | (Thrown _, _) => None
      end
  | Thrown _ => None
  end.

(** The message of the death declaration in each mode. *)
Definition deathMessage (w : StoredWillAuthorization) : string :=
  if kitepassMode w
  then "Silene Protocol (KitePass): Death confirmed for will "
  else "Silene Protocol: Death confirmed for will ".

(** *** The failures that end a call

    Each cause names the state of the outside world in which the
    failing call is made and the one it leaves.

    The custody wallet cannot be built, its balance cannot be read, or
    it holds less than [minGasRequired]. *)
Definition custodyCause (custodyPrivateKey : string) (w0 w' : W) : Prop :=
  ((exists m, Wallet_address custodyPrivateKey = Thrown m) /\ w' = w0)
  \/ (exists a m, Wallet_address custodyPrivateKey = Returned a
                  /\ provider_getBalance a w0 = (Thrown m, w'))
  \/ (exists a bal, Wallet_address custodyPrivateKey = Returned a
                    /\ provider_getBalance a w0 = (Returned bal, w')
                    /\ bal < minGasRequired).

(** The symbol or the decimals of the stablecoin cannot be read. *)
Definition tokenCause (w : StoredWillAuthorization) (w1 w' : W) : Prop :=
  useStablecoin w = true
  /\ ((exists m, token_symbol w1 = (Thrown m, w'))
      \/ (exists sym w2 m, token_symbol w1 = (Returned sym, w2)
                           /\ token_decimals w2 = (Thrown m, w'))).

(** The balance of the vault cannot be read or parsed. *)
Definition vaultCause (w : StoredWillAuthorization) (w1 w' : W) : Prop :=
  exists vault v,
    kitepassAddress w = Some vault
    /\ kitepassGetBalance vault w1 = (v, w')
    /\ (vb_success v = false
        \/ truthy (vb_balance v) = false
        \/ exists balance m, vb_balance v = Some balance
                             /\ parseUnits balance 6 = Thrown m).

(** The will is missing, belongs to somebody else or is not pending. *)
Definition validationCause (d : DB) (id owner' : string) : Prop :=
  match getWillById d id with
  | None => True
  | Some stored =>
      toLowerCase (owner stored) <> toLowerCase owner'
      \/ status stored <> pending
  end.

(** The list returned by the approve mode: the results of the fan-out
    over the linked wallets of the will, started with the working copy
    and the results of [r] in a state [r0] that the steps before the
    fan-out leave. *)
Definition approveReport (id key : string) (r : @Run W) (rs : list ExecutionResult)
    : Prop :=
  exists r0 custodyAddress tokenSymbol,
    steps r r0 /\ results r0 = results r /\ will r0 = will r
    /\ rs = results (snd (fanOut key custodyAddress tokenSymbol
                                 (linkedWalletsOf (db r) (will r) id) r0)).

End Notions.

End WillService.

(** ** Concrete scenarios *)

Module Scenarios.
Import JS.
Open Scope string_scope.

(** *** Reallocation *)

Module Shares.
Import Reallocation.

(** The coercions of the scenarios, whose names are written in ASCII
    and whose numbers are integers. *)
#[export] Instance plain : Coercions := {|
  String_toLowerCase := toLowerCase;
  NumberToString := fun n =>
    match NumberToBigInt n with
    | Returned z => BigInt_toString z
    | Thrown _ => "NaN"
    end;
  StringToNumber := fun s =>
    match StringToBigInt s with
    | Returned z => ofZ z
    | Thrown _ => nan
    end
|}.

Definition heir (n : string) (p : float) : Beneficiary :=
  mkBeneficiary n "Family" p "0x00000000000000000000000000000000000000A1" "as written".

(** An entry as the prompt asks for it. *)
Definition signal (n : string) (p : float) (a : string) : Value :=
  Object [("name", Str n); ("percentage", Number p);
          ("intent", Str "seen in a post"); ("relationship", Str "friend");
          ("trustScore", Number 90); ("action", Str a)].

(** A language model that gives the same answer to every question. *)
Definition answers (v : Value) : list string -> string -> Outcome Value :=
  fun _ _ => Returned v.

(** A language model that cannot be reached. *)
Definition silent : list string -> string -> Outcome Value :=
  fun _ _ => Thrown "Agent API Error".

Definition posts : list string := ["what was posted"].

Definition share (n : string) (p : float) : AdjustedBeneficiary :=
  mkAdjusted (Some (Str n)) (Some (Str "Family")) p
             "0x00000000000000000000000000000000000000A1" "as written".

(** Lists of one-decimal shares that sum to 100. *)
Definition settled : list AdjustedBeneficiary :=
  [share "Alice" 36.3; share "Bob" 33.3; share "Carol" 30.4].

Definition drifting : list AdjustedBeneficiary :=
  [share "Alice" 51.7; share "Bob" 17.6; share "Carol" 10.7; share "Dan" 20].

(** Alice holds the whole will, a post asks to remove her and another one
    to add Carol with everything. *)
Definition aliceOnly : list Beneficiary := [heir "Alice" 100].
Definition removeAliceAddCarol : Value :=
  Array [signal "alice" 0 "REMOVE"; signal "Carol" 100 "ADD"].

(** Alice and Bob share the will, a post asks to remove Alice and five
    posts add somebody new with everything. *)
Definition aliceAndBob : list Beneficiary := [heir "Alice" 50; heir "Bob" 50].
Definition removeAliceAddFive : Value :=
  Array [signal "alice" 0 "REMOVE"; signal "Dan" 100 "ADD"; signal "Eve" 100 "ADD";
         signal "Fay" 100 "ADD"; signal "Gus" 100 "ADD"; signal "Hal" 100 "ADD"].

(** An answer in JSON mode that holds no list, and an entry that has
    no name. *)
Definition noList : Value := Object [("beneficiaries", Str "none")].
Definition nameless : Value :=
  Array [Object [("action", Str "ADD"); ("percentage", Number 10)]].

End Shares.

(** *** Signing *)

Module Signing.
Import SignatureVerifier.

Definition showNat (n : Z) : string := NilZero.string_of_uint (N.to_uint (Z.to_N n)).

Fixpoint fractionDigits (fuel : nat) (num den : Z) : string :=
  match fuel with
  | O => ""
  | S fuel' =>
      if (num =? 0)%Z then ""
      else showNat (num * 10 / den) ++ fractionDigits fuel' ((num * 10) mod den) den
  end.

(** The decimal notation of a number, for the numbers with a short
    finite expansion. *)
Definition showNumber (q : Q) : string :=
  let n := Z.abs (Qnum q) in
  let d := Zpos (Qden q) in
  (if (Qnum q <? 0)%Z then "-" else "")
  ++ showNat (n / d)
  ++ (if (n mod d =? 0)%Z then "" else "." ++ fractionDigits 20 (n mod d) d).

Definition parseBigInt (s : string) : Outcome Z :=
  match NilZero.int_of_string s with
  | Some d => Returned (Z.of_int d)
  | None => Thrown "SyntaxError"
  end.

(** A toy signature scheme: the signature of a message by [owner] is the
    text of what was signed; anything else recovers the zero address. *)
Definition toySignature (m : Message) : string :=
  msg_owner m ++ "|" ++ msg_beneficiaries m ++ "|"
  ++ showNumber (inject_Z (msg_totalAmount m)) ++ "|"
  ++ showNumber (inject_Z (msg_validUntil m)).

Definition toyRecover (m : Message) (signature : string) : Outcome string :=
  if String.eqb signature (toySignature m)
  then Returned (msg_owner m)
  else Returned "0x0000000000000000000000000000000000000000".

#[export] Instance toyRuntime : Runtime := {|
  Number_of_string := fun _ => None;
  Number_toString := showNumber;
  BigInt_of_string := parseBigInt;
  verifyTypedData := toyRecover
|}.

Definition ownerAddress : string := "0xAbC0000000000000000000000000000000000001".

Definition alice : JSObject :=
  [("address", JSString "0x00000000000000000000000000000000000000A1");
   ("name", JSString "Alice");
   ("percentage", JSNumber (Some 60%Q))].

Definition bob : JSObject :=
  [("address", JSString "0x00000000000000000000000000000000000000B2");
   ("name", JSString "Bob");
   ("percentage", JSNumber (Some 40%Q))].

(** Alice again, as a client that writes the keys in another order and
    adds one would send her. *)
Definition aliceReordered : JSObject :=
  [("percentage", JSNumber (Some 60%Q));
   ("reason", JSString "my sister");
   ("name", JSString "Alice");
   ("address", JSString "0x00000000000000000000000000000000000000A1")].

(** What the owner signs for Alice and Bob, in this order. *)
Definition signedByOwner : string :=
  toySignature (mkMessage ownerAddress (beneficiariesStr [alice; bob]) 1000 1767225600 0).

End Signing.

(** *** A small ledger *)

Module Ledger.
Import Database WillService.
Open Scope Z_scope.

(** The outside world of the scenarios: the date, the balances known to
    the node (the query of any other address fails), the addresses
    whose incoming transfers revert, and the transfers made so far. *)
Record World : Type := mkWorld {
  date : string;
  balances : list (string * Z);
  reverting : list string;
  transfers : list (string * Z)
}.

Fixpoint lookup (a : string) (l : list (string * Z)) : option Z :=
  match l with
  | [] => None
  | (k, v) :: l' => if String.eqb k a then Some v else lookup a l'
  end.

Definition query (a : string) (w : World) : Outcome Z * World :=
  match lookup a (balances w) with
  | Some v => (Returned v, w)
  | None => (Thrown "could not detect network", w)
  end.

Definition send (to : string) (amount : Z) (w : World) : Outcome string * World :=
  if existsb (String.eqb to) (reverting w)
  then (Thrown "execution reverted", w)
  else (Returned ("0xtx" ++ Signing.showNat (Z.of_nat (List.length (transfers w)))),
        mkWorld (date w) (balances w) (reverting w) (transfers w ++ [(to, amount)])).

Definition custody : string := "0xC0570D1A00000000000000000000000000000000".
Definition registry : string := "0xDEA7000000000000000000000000000000000000".

#[export] Instance node : Collaborators World := {|
  DEATH_CERTIFICATE_ADDRESS := registry;
  today := date;
  Date_now := fun w => 1767225600000 + Z.of_nat (List.length (transfers w));
  formatUnits := fun x d => Signing.showNumber (Qred (inject_Z x / inject_Z (10 ^ d)));
  parseUnits := fun s d =>
    match NilZero.int_of_string s with
    | Some n => Returned (Z.of_int n * 10 ^ d)
    | None => Thrown "invalid FixedNumber string value"
    end;
  getAddress := fun a => if String.eqb a "" then Thrown "invalid address" else Returned a;
  Wallet_address := fun key =>
    if String.eqb key "" then Thrown "invalid private key" else Returned custody;
  provider_getBalance := query;
  token_symbol := fun w => (Returned "USDT", w);
  token_decimals := fun w => (Returned 6, w);
  token_balanceOf := query;
  token_allowance := fun _ _ w => (Returned (2 ^ 255), w);
  token_transferFrom := fun _ _ to amount => send to amount;
  custody_sendTransaction := fun _ to amount => send to amount;
  recordDeath := fun _ _ _ _ _ w => (Thrown "registry unavailable", w);
  kitepassGetBalance := fun vault w =>
    match lookup vault (balances w) with
    | Some v => (mkVaultBalance true (Some (Signing.showNat v)), w)
    | None => (mkVaultBalance false None, w)
    end;
  kitepassWithdraw := fun _ _ _ _ w =>
    (Returned (mkWithdrawResult true
                 (Some ("0xop" ++ Signing.showNat (Z.of_nat (List.length (transfers w)))))
                 None),
     mkWorld (date w) (balances w) (reverting w) (transfers w ++ [("vault", 0)]))
|}.

Definition ownerWallet : string := "0xabc0000000000000000000000000000000000001".
Definition secondWallet : string := "0xabc0000000000000000000000000000000000002".
Definition addressA : string := "0x00000000000000000000000000000000000000a1".
Definition addressB : string := "0x00000000000000000000000000000000000000b2".

Definition limits (perTx daily spent : Z) (day : string) : SpendingLimits :=
  mkSpendingLimits (BigInt_toString perTx) (BigInt_toString daily)
                   (BigInt_toString spent) day.

(** The will of the end-to-end scenario of the specification: A takes
    60%, B takes 40%, both caps are 1000. *)
Definition theWill (s : WillStatus) (l : SpendingLimits) : StoredWillAuthorization :=
  mkWill "will_1" ownerWallet
         [mkBeneficiary addressA 60 "A"; mkBeneficiary addressB 40 "B"]
         "1000" 1798761600 "0xsigned" 1767225600000 s true l
         None None false false.

Definition store (s : WillStatus) (l : SpendingLimits) : DB :=
  mkDB [theWill s l] []
       [mkLinkedWallet "will_1" ownerWallet "0xsigned" 1767225600000 approved None].

Definition yesterday : string := "2024-01-01".
Definition thisDay : string := "2024-01-02".

(** The owner holds 1000 units, the custody wallet has gas. *)
Definition funded : World :=
  mkWorld thisDay [(custody, 10 ^ 18); (ownerWallet, 1000)] [] [].


(** The custody wallet has no gas. *)
Definition outOfGas : World :=
  mkWorld thisDay [(custody, 0); (ownerWallet, 1000)] [] [].

(** Transfers to B revert. *)
Definition revertingB : World :=
  mkWorld thisDay [(custody, 10 ^ 18); (ownerWallet, 1000)] [addressB] [].


Definition fresh : SpendingLimits := limits 1000 1000 0 thisDay.
Definition spentYesterday : SpendingLimits := limits 1000 1000 900 yesterday.

(** A cap of a transfer that is not the string of an integer. *)
Definition fractionalCap : SpendingLimits := mkSpendingLimits "1.5" "1000" "0" thisDay.

Definition key : string := "0xkey".

End Ledger.

End Scenarios.

(** ** The rest of the store ([database.ts]) *)

Module Tables.
Import JS Database.
Open Scope string_scope.

(** [x || null] on the way in and [row.x || undefined] on the way out:
    an empty string is stored as [NULL] and read back as absent. *)
Definition orNull (s : option string) : option string :=
  match s with
  | Some x => if String.eqb x "" then None else Some x
  | None => None
  end.

(** A number after [JSON.stringify] and [JSON.parse]: [-0] is written
    [0], and [NaN] and the infinities are written [null], which the
    engine multiplies as zero. *)
Definition numberRow (x : float) : float :=
  match Prim2SF x with
  | S754_finite _ _ _ => x
  | _ => 0%float
  end.

Definition beneficiaryRow (b : Beneficiary) : Beneficiary :=
  mkBeneficiary (address b) (numberRow (percentage b)) (name b).

(** The will [parseWillRow] reads back from the row [saveWill] writes. *)
Definition willRow (w : StoredWillAuthorization) : StoredWillAuthorization :=
  mkWill (willId w) (owner w) (map beneficiaryRow (beneficiaries w)) (totalAmount w)
         (validUntil w)
         (signature w) (createdAt w) (status w) (useStablecoin w) (spendingLimits w)
         (orNull (aaWallet w)) (orNull (kitepassAddress w)) (useKitepass w)
         (spendingRulesConfigured w).

(** [INSERT OR REPLACE INTO wills]: [willId] is the primary key, a row
    with the same id is replaced. *)
Definition saveWill (w : StoredWillAuthorization) (d : DB) : DB :=
  mkDB (filter (fun x => negb (String.eqb (willId x) (willId w))) (wills d)
        ++ [willRow w])
       (transactions d) (linked_wallets d).

(** [ORDER BY createdAt DESC LIMIT 1]; among rows created at the same
    time the first of the table is taken. *)
Fixpoint latest (l : list StoredWillAuthorization) : option StoredWillAuthorization :=
  match l with
  | [] => None
  | w :: l' =>
      match latest l' with
      | Some w' => if (createdAt w <? createdAt w')%Z then Some w' else Some w
      | None => Some w
      end
  end.

(** [getWillByOwner]: the rows whose owner is the lower-cased argument,
    and when there is none the rows whose owner is the argument up to
    case. *)
Definition getWillByOwner (owner' : string) (d : DB) : option StoredWillAuthorization :=
  match latest (filter (fun w => String.eqb (owner w) (toLowerCase owner')) (wills d)) with
  | Some w => Some w
  | None =>
      latest (filter (fun w => String.eqb (toLowerCase (owner w)) (toLowerCase owner'))
                     (wills d))
  end.

(** [SELECT * FROM transactions WHERE txHash = ?]. *)
Definition getTransactionByHash (d : DB) (hash : string) : option TransactionRecord :=
  find (fun t => String.eqb (txHash t) hash) (transactions d).

(** The linked wallet [parseLinkedWalletRow] reads back from the row
    [saveLinkedWallet] writes: the address is stored in lower case. *)
Definition linkedWalletRow (lw : LinkedWallet) : LinkedWallet :=
  mkLinkedWallet (lw_willId lw) (toLowerCase (lw_address lw)) (lw_signature lw)
                 (approvedAt lw) (lw_status lw) (orNull (lastBalance lw)).

(** [INSERT OR REPLACE INTO linked_wallets]: the pair of [willId] and
    [address] is unique, a row with the same pair is replaced.  The
    foreign key to [wills] is not part of the embedding: the properties
    are stated for rows of a will that is stored. *)
Definition saveLinkedWallet (lw : LinkedWallet) (d : DB) : DB :=
  let row := linkedWalletRow lw in
  mkDB (wills d) (transactions d)
       (filter (fun x => negb (String.eqb (lw_willId x) (lw_willId row)
                               && String.eqb (lw_address x) (lw_address row)))
               (linked_wallets d)
        ++ [row]).

(** The condition [willId = ? AND LOWER(address) = LOWER(?)]. *)
Definition isWallet (id address' : string) (lw : LinkedWallet) : bool :=
  String.eqb (lw_willId lw) id
  && String.eqb (toLowerCase (lw_address lw)) (toLowerCase address').

Definition getLinkedWallet (d : DB) (id address' : string) : option LinkedWallet :=
  find (isWallet id address') (linked_wallets d).

(** [SELECT * FROM linked_wallets WHERE willId = ? ORDER BY approvedAt
    ASC]. *)
Definition getAllLinkedWalletsByWillId (d : DB) (id : string) : list LinkedWallet :=
  orderByApprovedAt (filter (fun lw => String.eqb (lw_willId lw) id) (linked_wallets d)).

Definition setWalletStatus (lw : LinkedWallet) (s : LinkedWalletStatus) : LinkedWallet :=
  mkLinkedWallet (lw_willId lw) (lw_address lw) (lw_signature lw) (approvedAt lw) s
                 (lastBalance lw).

(** [UPDATE linked_wallets SET status = 'removed' WHERE ...]. *)
Definition removeLinkedWallet (id address' : string) (d : DB) : DB :=
  mkDB (wills d) (transactions d)
       (map (fun lw => if isWallet id address' lw then setWalletStatus lw removed else lw)
            (linked_wallets d)).

Definition setLastBalance (lw : LinkedWallet) (balance : string) : LinkedWallet :=
  mkLinkedWallet (lw_willId lw) (lw_address lw) (lw_signature lw) (approvedAt lw)
                 (lw_status lw) (Some balance).

(** [UPDATE linked_wallets SET lastBalance = ? WHERE ...]. *)
Definition updateLinkedWalletBalance (id address' balance : string) (d : DB) : DB :=
  mkDB (wills d) (transactions d)
       (map (fun lw => if isWallet id address' lw then setLastBalance lw balance else lw)
            (linked_wallets d)).

(** [DELETE FROM linked_wallets WHERE willId = ?]. *)
Definition deleteLinkedWalletsByWillId (id : string) (d : DB) : DB :=
  mkDB (wills d) (transactions d)
       (filter (fun lw => negb (String.eqb (lw_willId lw) id)) (linked_wallets d)).

(** *** Notions used to state the properties *)

(** The store holds a will under this id: what the foreign keys of the
    other two tables ask of a row. *)
Definition known (d : DB) (id : string) : Prop := In id (map willId (wills d)).

(** No two wills share an id, as the primary key has it. *)
Definition uniqueIds (d : DB) : Prop := NoDup (map willId (wills d)).

(** Every linked wallet is stored under a lower-case address, as
    [saveLinkedWallet] writes it. *)
Definition lowerCased (d : DB) : Prop :=
  Forall (fun lw => toLowerCase (lw_address lw) = lw_address lw) (linked_wallets d).

(** No two linked wallets share a will and an address. *)
Definition uniqueWallets (d : DB) : Prop :=
  NoDup (map (fun lw => (lw_willId lw, lw_address lw)) (linked_wallets d)).

Definition byApproval (a b : LinkedWallet) : Prop := (approvedAt a <= approvedAt b)%Z.

End Tables.

(** ** Storing an authorization ([willService.ts], lines 88-101 and 214-299) *)

Module Authorization.
Import JS SignatureVerifier Database Tables.
Open Scope string_scope.

Record StoreResult : Type := mkStoreResult {
  sr_success : bool;
  sr_willId : option string;
  sr_error : option string
}.

(** [Partial<SpendingLimits>]: the keys that are given, with the
    strings the caller wrote, which nothing checks. *)
Record CustomLimits : Type := mkCustomLimits {
  c_perTxLimit : option string;
  c_dailyLimit : option string;
  c_dailySpent : option string;
  c_lastResetDate : option string
}.

(** What the service takes from its host over a state [H]: the clock
    in milliseconds, the tail of [Math.random().toString(36)] that
    ends a will id, the date at which the module was loaded, and
    [ethers.formatEther] of a string, which throws when the string is
    no number. *)
Class Host (H : Type) : Type := {
  now : H -> Z * H;
  randomSuffix : H -> string * H;
  loadDate : string;
  formatEther : string -> Outcome string
}.

(** A beneficiary as the object the verifier reads; its share is the
    rational the double stands for, and [NaN] for the infinities, which
    are written [null] like [NaN]. *)
Definition asObject (b : Beneficiary) : JSObject :=
  [ ("address", JSString (address b));
    ("percentage", JSNumber (toRational (percentage b)));
    ("name", JSString (name b)) ].

(** The decimal notation of an integer. *)
Definition showInteger (z : Z) : string := NilZero.string_of_int (Z.to_int z).

Section Service.
Context {RT : Runtime} {H : Type} {host : Host H}.

(** [DEFAULT_SPENDING_LIMITS]: 100 and 1000 ether. *)
Definition DEFAULT_SPENDING_LIMITS : SpendingLimits :=
  mkSpendingLimits (BigInt_toString (100 * 10 ^ 18)) (BigInt_toString (1000 * 10 ^ 18))
                   "0" loadDate.

(** [{ ...DEFAULT_SPENDING_LIMITS, ...customLimits }]. *)
Definition mergeLimits (customLimits : option CustomLimits) : SpendingLimits :=
  match customLimits with
  | None => DEFAULT_SPENDING_LIMITS
  | Some c =>
      mkSpendingLimits
        (match c_perTxLimit c with Some x => x | None => perTxLimit DEFAULT_SPENDING_LIMITS end)
        (match c_dailyLimit c with Some x => x | None => dailyLimit DEFAULT_SPENDING_LIMITS end)
        (match c_dailySpent c with Some x => x | None => dailySpent DEFAULT_SPENDING_LIMITS end)
        (match c_lastResetDate c with
         | Some x => x
         | None => lastResetDate DEFAULT_SPENDING_LIMITS
         end)
  end.

(** [generateWillId]. *)
Definition generateWillId (h : H) : string * H :=
  let (t, h1) := now h in
  let (suffix, h2) := randomSuffix h1 in
  ("will_" ++ showInteger t ++ "_" ++ suffix, h2).

(** The pending will of the owner with a fresh authorization
    (lines 234-242). *)
Definition reauthorized (existingWill : StoredWillAuthorization)
    (beneficiaries : list Beneficiary) (totalAmount : string) (validUntil : Z)
    (signature : string) (createdAt : Z) (useStablecoin : bool)
    : StoredWillAuthorization :=
  mkWill (willId existingWill) (owner existingWill) beneficiaries totalAmount
         validUntil signature createdAt (status existingWill) useStablecoin
         (spendingLimits existingWill) (aaWallet existingWill)
         (kitepassAddress existingWill) (useKitepass existingWill)
         (spendingRulesConfigured existingWill).

(** [storeWillAuthorization]: the result and the state of the store
    and of the host after the call.  [validUntil] is a number; the
    verifier accepts it only when it is an integer.  The limits of a
    new will are formatted for the log once the will and the wallet of
    the owner are saved; an exception there is caught like any other
    and answered with a failure. *)
Definition storeWillAuthorization (owner' : string) (beneficiaries : list Beneficiary)
    (totalAmount : string) (validUntil : Q) (signature : string)
    (useStablecoin : bool) (customLimits : option CustomLimits)
    (st : DB * H) : StoreResult * (DB * H) :=
  let (d, h) := st in
  if negb (verifyWillAuthorization owner' (map asObject beneficiaries) totalAmount
                                   validUntil signature)
  then (mkStoreResult false None (Some "Invalid signature"), st)
  else
    let fresh :=
      let spendingLimits := mergeLimits customLimits in
      let (willId, h1) := generateWillId h in
      let (createdAt, h2) := now h1 in
      let will := mkWill willId owner' beneficiaries totalAmount (Qfloor validUntil)
                         signature createdAt pending useStablecoin spendingLimits
                         None None false false in
      let d1 := saveWill will d in
      let (approvedAt, h3) := now h2 in
      let d2 := saveLinkedWallet
                  (mkLinkedWallet willId owner' signature approvedAt approved None) d1 in
      match formatEther (perTxLimit spendingLimits) with
      | Thrown m => (mkStoreResult false None (Some m), (d2, h3))
      | Returned _ =>
          match formatEther (dailyLimit spendingLimits) with
          | Thrown m => (mkStoreResult false None (Some m), (d2, h3))
          | Returned _ => (mkStoreResult true (Some willId) None, (d2, h3))
          end
      end in
    match getWillByOwner owner' d with
    | Some existingWill =>
        match status existingWill with
        | pending =>
            let (createdAt, h1) := now h in
            let updatedWill := reauthorized existingWill beneficiaries totalAmount
                                            (Qfloor validUntil) signature createdAt
                                            useStablecoin in
            (mkStoreResult true (Some (willId existingWill)) None,
             (saveWill updatedWill d, h1))
        | _ => fresh
        end
    | None => fresh
    end.

(** [getWillStatus]. *)
Definition getWillStatus (owner' : string) (d : DB) : option StoredWillAuthorization :=
  getWillByOwner owner' d.

End Service.

End Authorization.

(** ** Linking a wallet (the route [POST /api/will/:willId/wallets] of
       the server) *)

Module WalletRoutes.
Import JS Database Tables Authorization.
Open Scope string_scope.

(** The status code and the body of the answer. *)
Record LinkResponse : Type := mkLinkResponse {
  http_status : Z;
  link_success : bool;
  link_wallet : option LinkedWallet;
  link_message : option string;
  link_error : option string
}.

Section Routes.
Context {H : Type} {host : Host H}.

(** The handler; the two fields of the body are strings or absent.
    The signature is stored as it comes.  An exception of the store
    (the will is not known) would be answered with the status 500. *)
Definition postWallet (willId : string) (address' signature : option string)
    (st : DB * H) : LinkResponse * (DB * H) :=
  if negb (WillService.truthy address') || negb (WillService.truthy signature)
  then (mkLinkResponse 400 false None None
                       (Some "Missing required fields: address, signature"), st)
  else
    let a := match address' with Some x => x | None => "" end in
    let s := match signature with Some x => x | None => "" end in
    let (d, h) := st in
    let linked :=
      let (approvedAt, h1) := now h in
      let wallet := mkLinkedWallet willId (toLowerCase a) s approvedAt approved None in
      (mkLinkResponse 200 true (Some wallet) (Some "Wallet linked successfully") None,
       (saveLinkedWallet wallet d, h1)) in
    match getLinkedWallet d willId a with
    | Some existing =>
        if isApproved (lw_status existing)
        then (mkLinkResponse 200 true (Some existing) (Some "Wallet already linked") None,
              st)
        else linked
    | None => linked
    end.

End Routes.

End WalletRoutes.

(** ** Withdrawals in a batch ([kitepassService.ts], lines 410-446) *)

Module KitepassBatch.
Import JS Database WillService.
Open Scope string_scope.




Section Batch.
Context {W : Type} {C : Collaborators W}.



End Batch.

End KitepassBatch.

(** ** The death certificate registry ([DeathCertificateRegistry.sol]) *)

Module Registry.
Import JS.
Open Scope string_scope.
Open Scope Z_scope.

(** An [address], a [bytes32] and a [uint256] are the integer they
    denote; events are not part of the state. *)
Record Certificate : Type := mkCertificate {
  c_willId : Z;
  c_owner : Z;
  c_timestamp : Z;
  c_beneficiaryCount : Z;
  c_message : string;
  c_recordedBy : Z
}.

Record State : Type := mkState {
  admin : Z;
  recorder : Z;
  certificates : Z -> Certificate;
  ownerToWillId : Z -> Z;
  totalCertificates : Z
}.

(** [msg.sender] and [block.timestamp] of a transaction. *)
Record Tx : Type := mkTx {
  sender : Z;
  timestamp : Z
}.

Definition maxUint256 : Z := 2 ^ 256 - 1.

(** A slot of a mapping that was never written. *)
Definition noCertificate : Certificate := mkCertificate 0 0 0 0 "" 0.

Definition write {A} (m : Z -> A) (key : Z) (v : A) : Z -> A :=
  fun k => if k =? key then v else m k.

(** The constructor. *)
Definition deploy (tx : Tx) (_recorder : Z) : Outcome State :=
  if _recorder =? 0 then Thrown "Invalid recorder"
  else Returned (mkState (sender tx) _recorder (fun _ => noCertificate) (fun _ => 0) 0).

(** The modifiers. *)
Definition onlyAdmin (tx : Tx) (s : State) : bool := sender tx =? admin s.

Definition onlyRecorder (tx : Tx) (s : State) : bool :=
  (sender tx =? recorder s) || (sender tx =? admin s).

(** [recordDeath]: the state after the call, or the reason of the
    revert.  The increment of the counter is checked. *)
Definition recordDeath (tx : Tx) (_willId _owner _beneficiaryCount : Z)
    (_message : string) (s : State) : Outcome State :=
  if negb (onlyRecorder tx s) then Thrown "Not authorized"
  else if _willId =? 0 then Thrown "Invalid willId"
  else if _owner =? 0 then Thrown "Invalid owner"
  else if negb (c_timestamp (certificates s _willId) =? 0) then Thrown "Already recorded"
  else if totalCertificates s =? maxUint256 then Thrown "Panic(0x11)"
  else Returned
         (mkState (admin s) (recorder s)
                  (write (certificates s) _willId
                         (mkCertificate _willId _owner (timestamp tx) _beneficiaryCount
                                        _message (sender tx)))
                  (write (ownerToWillId s) _owner _willId)
                  (totalCertificates s + 1)).

Definition getCertificate (_willId : Z) (s : State) : Z * Z * Z * string * Z :=
  let cert := certificates s _willId in
  (c_owner cert, c_timestamp cert, c_beneficiaryCount cert, c_message cert,
   c_recordedBy cert).

Definition isDeceased (_owner : Z) (s : State) : bool :=
  let willId := ownerToWillId s _owner in
  c_timestamp (certificates s willId) >? 0.

Definition getWillIdByOwner (_owner : Z) (s : State) : Z := ownerToWillId s _owner.

Definition isRecorded (_willId : Z) (s : State) : bool :=
  c_timestamp (certificates s _willId) >? 0.

Definition setRecorder (tx : Tx) (_newRecorder : Z) (s : State) : Outcome State :=
  if negb (onlyAdmin tx s) then Thrown "Only admin"
  else if _newRecorder =? 0 then Thrown "Invalid address"
  else Returned (mkState (admin s) _newRecorder (certificates s) (ownerToWillId s)
                         (totalCertificates s)).

Definition transferAdmin (tx : Tx) (_newAdmin : Z) (s : State) : Outcome State :=
  if negb (onlyAdmin tx s) then Thrown "Only admin"
  else if _newAdmin =? 0 then Thrown "Invalid address"
  else Returned (mkState _newAdmin (recorder s) (certificates s) (ownerToWillId s)
                         (totalCertificates s)).

(** *** The life of the contract *)

Inductive Call : Type :=
| RecordDeath (tx : Tx) (_willId _owner _beneficiaryCount : Z) (_message : string)
| SetRecorder (tx : Tx) (_newRecorder : Z)
| TransferAdmin (tx : Tx) (_newAdmin : Z).

Definition txOf (c : Call) : Tx :=
  match c with
  | RecordDeath tx _ _ _ _ => tx
  | SetRecorder tx _ => tx
  | TransferAdmin tx _ => tx
  end.

Definition perform (c : Call) (s : State) : Outcome State :=
  match c with
  | RecordDeath tx i o n m => recordDeath tx i o n m s
  | SetRecorder tx a => setRecorder tx a s
  | TransferAdmin tx a => transferAdmin tx a s
  end.

(** A transaction that reverts leaves the state as it was. *)
Definition after (c : Call) (s : State) : State :=
  match perform c s with
  | Returned s' => s'
  | Thrown _ => s
  end.

Fixpoint run (cs : list Call) (s : State) : State :=
  match cs with
  | [] => s
  | c :: cs' => run cs' (after c s)
  end.

(** The ids of the calls of [recordDeath] that went through, in the
    order of the calls. *)
Fixpoint recordedIds (cs : list Call) (s : State) : list Z :=
  match cs with
  | [] => []
  | c :: cs' =>
      match c, perform c s with
      | RecordDeath _ i _ _ _, Returned _ => i :: recordedIds cs' (after c s)
      | _, _ => recordedIds cs' (after c s)
      end
  end.

(** Blocks carry a positive timestamp. *)
Definition timed (cs : list Call) : Prop :=
  Forall (fun c => 0 < timestamp (txOf c)) cs.

(** What holds of a state of the contract that is reached with timed
    blocks: the zero id carries no certificate, the id kept for an
    owner carries a certificate of this owner, and the owner of a
    certificate has an id. *)
Definition consistent (s : State) : Prop :=
  c_timestamp (certificates s 0) = 0
  /\ (forall i, 0 <= c_timestamp (certificates s i))
  /\ (forall o, ownerToWillId s o <> 0 ->
        0 < c_timestamp (certificates s (ownerToWillId s o))
        /\ c_owner (certificates s (ownerToWillId s o)) = o)
  /\ (forall i, 0 < c_timestamp (certificates s i) ->
        ownerToWillId s (c_owner (certificates s i)) <> 0).

End Registry.

(** ** The distribution plan and the signature of the owner
       ([kiteService.ts], lines 288-303, 338-393 and 693-740) *)

Module Planning.
Import JS SignatureVerifier Reallocation.
Open Scope string_scope.
Open Scope Z_scope.

Record DistributionItem : Type := mkItem {
  item_beneficiary : Beneficiary;
  item_amount : Z;
  amountFormatted : string
}.

Record DistributionPlan : Type := mkPlan {
  plan_totalAmount : Z;
  plan_gasReserve : Z;
  distributions : list DistributionItem;
  isValid : bool;
  errorMessage : option string
}.

(** [s.padStart(n, '0')]. *)
Fixpoint zeros (n : nat) : string :=
  match n with
  | O => ""
  | S n' => "0" ++ zeros n'
  end.

Definition padStart (n : nat) (s : string) : string :=
  zeros (n - String.length s) ++ s.

(** [s.slice(0, n)]. *)
Definition slice0 (n : nat) (s : string) : string := substring 0 n s.

(** The body of [formatBalance] once the balance is a bigint. *)
Definition formatWei (balanceBigInt : Z) (decimals : nat) : string :=
  let divisor := 10 ^ 18 in
  let integerPart := Z.quot balanceBigInt divisor in
  let remainder := Z.rem balanceBigInt divisor in
  let decimalStr := slice0 decimals (padStart 18 (BigInt_toString remainder)) in
  BigInt_toString integerPart ++ "." ++ decimalStr.

Section Plan.
Context {RT : Runtime}.

(** [formatBalance]; [decimals] is 4 when it is not given. *)
Definition formatBalance (weiBalance : string) (decimals : nat) : string :=
  match BigInt_of_string weiBalance with
  | Returned balanceBigInt => formatWei balanceBigInt decimals
  | Thrown _ => "0.0000"
  end.

(** The callback of [beneficiaries.map]: the amount of a beneficiary is
    kept as the bigint its string denotes, formatted with the default
    four decimals. *)
Definition itemFor (distributableAmount : Z) (b : Beneficiary) : Outcome DistributionItem :=
  match NumberToBigInt (percentage b) with
  | Returned p =>
      let amount := Z.quot (distributableAmount * p) 100 in
      Returned (mkItem b amount (formatWei amount 4))
  | Thrown m => Thrown m
  end.

(** [beneficiaries.map(...)], which stops at the first exception. *)
Fixpoint mapItems (distributableAmount : Z) (bs : list Beneficiary)
    : Outcome (list DistributionItem) :=
  match bs with
  | [] => Returned []
  | b :: bs' =>
      match itemFor distributableAmount b with
      | Returned item =>
          match mapItems distributableAmount bs' with
          | Returned items => Returned (item :: items)
          | Thrown m => Thrown m
          end
      | Thrown m => Thrown m
      end
  end.

(** The plan of the [catch] block: [error.message || "..."]. *)
Definition failedPlan (message : string) : DistributionPlan :=
  mkPlan 0 0 [] false
         (Some (if String.eqb message "" then "计算分配方案失败" else message)).

(** [calculateDistribution]; [gasReservePercent] is 5 when it is not
    given. *)
Definition calculateDistribution (balance : string) (beneficiaries : list Beneficiary)
    (gasReservePercent : float) : DistributionPlan :=
  match BigInt_of_string balance with
  | Thrown m => failedPlan m
  | Returned balanceBigInt =>
      if balanceBigInt =? 0
      then mkPlan 0 0 [] false (Some "余额不足，请先获取测试代币")
      else
        match NumberToBigInt gasReservePercent with
        | Thrown m => failedPlan m
        | Returned percent =>
            let gasReserve := Z.quot (balanceBigInt * percent) 100 in
            let distributableAmount := balanceBigInt - gasReserve in
            match mapItems distributableAmount beneficiaries with
            | Thrown m => failedPlan m
            | Returned items =>
                let totalAmount :=
                  fold_left (fun sum d => sum + item_amount d) items 0 in
                mkPlan totalAmount gasReserve items true None
            end
        end
  end.

End Plan.

(** The share of a beneficiary as a bigint; zero for a share that is
    not a whole number. *)
Definition wholeShare (b : Beneficiary) : Z :=
  match NumberToBigInt (percentage b) with
  | Returned p => p
  | Thrown _ => 0
  end.

(** The whole shares of a list, added up. *)
Definition wholeShares (bs : list Beneficiary) : Z :=
  fold_right (fun b s => wholeShare b + s) 0 bs.

End Planning.

Module OwnerSignature.
Import JS SignatureVerifier.
Open Scope string_scope.

(** The wallet of the owner: its address and its [signTypedData] at the
    domain and the types of the module, which are those of the
    verifier. *)
Record Signer : Type := mkSigner {
  signer_getAddress : Outcome string;
  signTypedData : Message -> Outcome string
}.

Record WillAuthorizationSignature : Type := mkSigned {
  was_owner : string;
  was_beneficiaries : list JSObject;
  was_totalAmount : string;
  was_validUntil : Q;
  was_signature : string
}.

Section Sign.
Context {RT : Runtime}.

(** [signWillAuthorization]; an exception is thrown again. *)
Definition signWillAuthorization (beneficiaries : list JSObject) (totalAmount : string)
    (validUntil : Q) (signer : Signer) : Outcome WillAuthorizationSignature :=
  match signer_getAddress signer with
  | Thrown m => Thrown m
  | Returned ownerAddress =>
      match BigInt_of_string totalAmount with
      | Thrown m => Thrown m
      | Returned total =>
          match BigInt_of_number validUntil with
          | Thrown m => Thrown m
          | Returned until =>
              let message :=
                mkMessage ownerAddress (beneficiariesStr beneficiaries) total until 0 in
              match signTypedData signer message with
              | Thrown m => Thrown m
              | Returned signature =>
                  Returned (mkSigned ownerAddress beneficiaries totalAmount validUntil
                                     signature)
              end
          end
      end
  end.

(** The verifier recovers the address of the wallet from what the
    wallet signs in its own name. *)
Definition recovers (signer : Signer) : Prop :=
  forall m signature a,
    signer_getAddress signer = Returned a ->
    msg_owner m = a ->
    signTypedData signer m = Returned signature ->
    verifyTypedData m signature = Returned a.

End Sign.

End OwnerSignature.

(** ** What a run adds up to *)

Module Accounting.
Import JS Database WillService.
Open Scope Z_scope.

Definition isConfirmed (x : ExecutionResult) : bool :=
  match res_status x with confirmed => true | failed => false end.

(** The amounts of the confirmed results of a list, added up. *)
Definition confirmedTotal (xs : list ExecutionResult) : Z :=
  fold_right (fun x s => (if isConfirmed x then res_amount x else 0) + s) 0 xs.

Definition reportedTotal (xs : list ExecutionResult) : Z :=
  fold_right (fun x s => res_amount x + s) 0 xs.

(** The amount of a beneficiary and the scaled value of its share;
    zero for a share that does not scale to an integer, which is paid
    nothing. *)
Definition amountOf (walletBalance : Z) (b : Beneficiary) : Z :=
  match computeAmount walletBalance (percentage b) with
  | Returned amount => amount
  | Thrown _ => 0
  end.

Definition scaledOf (b : Beneficiary) : Z :=
  match percentageScaled (percentage b) with
  | Returned scaled => scaled
  | Thrown _ => 0
  end.

(** What the loop over the beneficiaries computes in all for a wallet of
    balance [walletBalance]. *)
Definition allocated (walletBalance : Z) (bs : list Beneficiary) : Z :=
  fold_right (fun b s => amountOf walletBalance b + s) 0 bs.

Definition scaledTotal (bs : list Beneficiary) : Z :=
  fold_right (fun b s => scaledOf b + s) 0 bs.

Section Ledger.
Context {W : Type} {C : Collaborators W}.

(** One call of the approve mode to the node: the outside world before
    and after it. *)
Inductive nodeCall (w w' : W) : Prop :=
| balanceRead a o : provider_getBalance a w = (o, w') -> nodeCall w w'
| symbolRead o : token_symbol w = (o, w') -> nodeCall w w'
| decimalsRead o : token_decimals w = (o, w') -> nodeCall w w'
| tokenBalanceRead a o : token_balanceOf a w = (o, w') -> nodeCall w w'
| allowanceRead a c o : token_allowance a c w = (o, w') -> nodeCall w w'
| tokenSent k f t x o : token_transferFrom k f t x w = (o, w') -> nodeCall w w'
| nativeSent k t x o : custody_sendTransaction k t x w = (o, w') -> nodeCall w w'
| deathRecorded k i o n m out : recordDeath k i o n m w = (out, w') -> nodeCall w w'.

Inductive nodeCalls (w : W) : W -> Prop :=
| noCall : nodeCalls w w
| oneMore w1 w2 : nodeCalls w w1 -> nodeCall w1 w2 -> nodeCalls w w2.

(** The date does not change while the node is called. *)
Definition sameDay : Prop := forall w w', nodeCall w w' -> today w' = today w.

(** The record [distributeTo] saves for a confirmed result. *)
Definition recordOf (will : StoredWillAuthorization) (x : ExecutionResult)
    (t : TransactionRecord) : Prop :=
  txHash t = res_txHash x /\ tx_willId t = willId will
  /\ txType t = DISTRIBUTION /\ tx_status t = tx_confirmed.

(** The hashes under which the store holds a transaction. *)
Definition hashes (d : DB) : list string := map txHash (transactions d).

(** The caps [limits] hold for the results [xs], the confirmed ones
    of which bring what is spent to the string [spentAfter]: the three
    amounts of [limits] are integers, every confirmed amount is within
    the cap of a transfer, and what was spent and the confirmed amounts
    together are within the cap of the day. *)
Definition capsKept (limits : SpendingLimits) (xs : list ExecutionResult)
    (spentAfter : string) : Prop :=
  exists perTx daily spent,
    StringToBigInt (perTxLimit limits) = Returned perTx
    /\ StringToBigInt (dailyLimit limits) = Returned daily
    /\ StringToBigInt (dailySpent limits) = Returned spent
    /\ spentAfter = BigInt_toString (spent + confirmedTotal xs)
    /\ Forall (fun x => isConfirmed x = true -> res_amount x <= perTx) xs
    /\ spent + confirmedTotal xs <= daily.

(** The spending limits between two states of a run in which the
    results [xs] were pushed: the caps and the date are those of
    before; when a result is confirmed the caps were kept and the
    working copy holds what the confirmed results add up to; when none
    is, what is spent is as before. *)
Definition budgetKept (r r' : @Run W) (xs : list ExecutionResult) : Prop :=
  let limits := resetIfNewDay (today (world r)) (spendingLimits (will r)) in
  let limits' := resetIfNewDay (today (world r')) (spendingLimits (will r')) in
  perTxLimit limits' = perTxLimit limits
  /\ dailyLimit limits' = dailyLimit limits
  /\ lastResetDate limits' = lastResetDate limits
  /\ if existsb isConfirmed xs
     then capsKept limits xs (dailySpent limits')
     else dailySpent limits' = dailySpent limits.

(** The table of transactions between two states of a run in which the
    results [xs] were pushed: no hash is lost, every confirmed result
    is stored under its hash, and nothing else is added. *)
Definition logKept (d d' : DB) (xs : list ExecutionResult) : Prop :=
  incl (hashes d) (hashes d')
  /\ (forall x, In x xs -> isConfirmed x = true -> In (res_txHash x) (hashes d'))
  /\ (List.length (transactions d')
      <= List.length (transactions d) + List.length (filter isConfirmed xs))%nat.

(** [x] reports the attempt to withdraw the share of [b] from a vault
    of balance [vaultBalance]: confirmed under a hash, or failed. *)
Definition withdrawn (vaultBalance : Z) (b : Beneficiary) (x : ExecutionResult) : Prop :=
  beneficiary x = name b
  /\ computeAmount vaultBalance (percentage b) = Returned (res_amount x)
  /\ res_tokenSymbol x = "USDT"%string
  /\ ((res_status x = confirmed /\ error x = None /\ res_txHash x <> ""%string)
      \/ (res_status x = failed /\ res_txHash x = ""%string)).

(** The balance the vault provider reports for [vault] in some state of
    the outside world, in units of the token. *)
Definition vaultHolds (vault : string) (vaultBalance : Z) : Prop :=
  exists w1 v w2 balance,
    kitepassGetBalance vault w1 = (v, w2)
    /\ vb_success v = true
    /\ vb_balance v = Some balance
    /\ parseUnits balance 6 = Returned vaultBalance.

Definition advanced (r r' : @Run W) (xs : list ExecutionResult) : Prop :=
  results r' = (results r ++ xs)%list
  /\ nodeCalls (world r) (world r')
  /\ (sameDay -> budgetKept r r' xs)
  /\ logKept (db r) (db r') xs.

End Ledger.
End Accounting.

(** ** Further scenarios *)

Module Cases.
Import JS Database WillService Scenarios.Signing Scenarios.Ledger.
Open Scope string_scope.
Open Scope Z_scope.

(** *** A will with its funds in a vault *)

Definition vault : string := "0xfa01700000000000000000000000000000000000".

Definition heirs : list Beneficiary :=
  [mkBeneficiary addressA 60 "A"; mkBeneficiary addressB 40 "B"].

Definition vaultWill : StoredWillAuthorization :=
  mkWill "will_1" ownerWallet heirs "1000" 1798761600 "0xsigned" 1767225600000
         pending true fresh None (Some vault) true true.

Definition vaultStore : DB := mkDB [vaultWill] [] [].

(** The vault holds 1000 whole tokens, the custody wallet has gas. *)
Definition vaultFunded : World :=
  mkWorld thisDay [(custody, 10 ^ 18); (vault, 1000)] [] [].

(** *** An authorization and the host that stores it *)

(** The clock advances by one millisecond at every reading; the random
    suffix is always the same; an amount is formatted when it is the
    string of an integer. *)
#[export] Instance server : Authorization.Host Z := {|
  Authorization.now := fun h => (1767225600000 + h, h + 1);
  Authorization.randomSuffix := fun h => ("k3x9q", h);
  Authorization.loadDate := thisDay;
  Authorization.formatEther := fun s =>
    match StringToBigInt s with
    | Returned wei => Returned (formatUnits wei 18)
    | Thrown _ => Thrown "invalid BigNumberish string"
    end
|}.

(** The wallet of the owner under the toy signature scheme. *)
Definition ownerSigner : OwnerSignature.Signer :=
  OwnerSignature.mkSigner (Returned Scenarios.Signing.ownerAddress)
                          (fun m => Returned (Scenarios.Signing.toySignature m)).

(** What the owner signs for the two heirs. *)
Definition authorization : string :=
  Scenarios.Signing.toySignature
    (SignatureVerifier.mkMessage Scenarios.Signing.ownerAddress
       (SignatureVerifier.beneficiariesStr (map Authorization.asObject heirs))
       1000 1798761600 0).

Definition emptyStore : DB := mkDB [] [] [].

(** The owner already has a pending will, stored under another list of
    heirs and with caps of its own. *)
Definition earlierWill : StoredWillAuthorization :=
  mkWill "will_0" Scenarios.Signing.ownerAddress [mkBeneficiary addressA 100 "A"]
         "500" 1798761600 "0xearlier" 1767139200000 pending false
         (limits 10 20 0 yesterday) None None false false.

Definition earlierStore : DB :=
  mkDB [earlierWill] []
       [mkLinkedWallet "will_0" (toLowerCase Scenarios.Signing.ownerAddress) "0xearlier"
                       1767139200000 approved None].

Definition tighter : Authorization.CustomLimits :=
  Authorization.mkCustomLimits (Some "1") (Some "2") None None.

(** A cap of a transfer that is no integer. *)
Definition fractional : Authorization.CustomLimits :=
  Authorization.mkCustomLimits (Some "1.5") None None None.

(** *** The registry *)

Definition deployer : Z := 1.
Definition custodyAccount : Z := 2.
Definition stranger : Z := 3.

Definition deployed : Registry.State :=
  Registry.mkState deployer custodyAccount (fun _ => Registry.noCertificate)
                   (fun _ => 0) 0.

(** The custody wallet records the death of owner 9 under id 7, a
    stranger tries another id, and the custody wallet tries id 7 again. *)
Definition calls : list Registry.Call :=
  [Registry.RecordDeath (Registry.mkTx custodyAccount 200) 7 9 2 "gone";
   Registry.RecordDeath (Registry.mkTx stranger 300) 8 9 2 "gone";
   Registry.RecordDeath (Registry.mkTx custodyAccount 400) 7 9 2 "gone again"].

(** *** A batch of withdrawals *)


End Cases.

(* ================================================================== *)
(** * Part II: properties *)
(* ================================================================== *)

(** ** Bigints and their strings *)

Module BigIntStrings.
Import JS.
Open Scope string_scope.
Open Scope Z_scope.

Lemma reverseOnto_twice (s a b : string) :
  reverseOnto (reverseOnto s a) b = reverseOnto a (s ++ b).
Proof.
  revert a b. induction s as [| c s IH]; intros a b; simpl; [reflexivity |].
  rewrite IH. reflexivity.
Qed.

Lemma reverse_reverse (s : string) : reverse (reverse s) = s.
Proof.
  unfold reverse. rewrite reverseOnto_twice. simpl.
  induction s as [| c s IH]; simpl; [reflexivity | rewrite IH; reflexivity].
Qed.

Lemma every_reverseOnto p (s acc : string) :
  every p s = true -> every p acc = true -> every p (reverseOnto s acc) = true.
Proof.
  revert acc. induction s as [| c s IH]; intros acc Hs Hacc; simpl in *; [exact Hacc |].
  apply andb_true_iff in Hs. destruct Hs as [Hc Hs].
  apply IH; [exact Hs |]. simpl. rewrite Hc, Hacc. reflexivity.
Qed.

(** No white space starts with a digit or a sign, nor ends with one. *)
Lemma trimStart_signOrDigit back c (s : string) :
  signOrDigit c = true -> trimStart back (String c s) = String c s.
Proof.
  intro Hc.
  destruct c as [[] [] [] [] [] [] [] []]; try discriminate Hc;
    destruct back; cbn;
    (destruct s as [| b s]; [reflexivity |]);
    unfold white2, white3; cbn;
    rewrite ?andb_false_r; cbn; try reflexivity;
    (destruct s as [| b' s]; [reflexivity |]);
    rewrite ?andb_false_r, ?orb_false_r; cbn; rewrite ?andb_false_r; reflexivity.
Qed.

Lemma trim_signOrDigit (s : string) :
  s <> "" -> every signOrDigit s = true -> trim s = s.
Proof.
  intros Hne Hs. unfold trim.
  destruct s as [| c s]; [contradiction |].
  simpl in Hs. apply andb_true_iff in Hs. destruct Hs as [Hc Hs].
  rewrite (@trimStart_signOrDigit false c s Hc).
  assert (Hr : every signOrDigit (reverse (String c s)) = true).
  { unfold reverse. apply every_reverseOnto; [| reflexivity].
    simpl. rewrite Hc, Hs. reflexivity. }
  destruct (reverse (String c s)) as [| c' t] eqn:Ht.
  - apply (f_equal reverse) in Ht. rewrite reverse_reverse in Ht. discriminate Ht.
  - simpl in Hr. apply andb_true_iff in Hr. destruct Hr as [Hc' _].
    rewrite (@trimStart_signOrDigit true c' t Hc'). rewrite <- Ht. apply reverse_reverse.
Qed.

Lemma digit_signOrDigit (s : string) :
  every digit s = true -> every signOrDigit s = true.
Proof.
  induction s as [| c s IH]; simpl; [reflexivity |].
  intro H. apply andb_true_iff in H. destruct H as [Hc Hs].
  rewrite (IH Hs). unfold signOrDigit. rewrite Hc. reflexivity.
Qed.

Lemma digits_of_uint (d : Decimal.uint) : every digit (NilEmpty.string_of_uint d) = true.
Proof.
  induction d; simpl; try reflexivity; exact IHd.
Qed.

(** The digits of a numeral are read from the most significant one. *)
Lemma digitsValue_of_uint (d d' : Decimal.uint) :
  digitsValue 10 (Z.of_N (DecimalPos.Unsigned.of_lu d')) (NilEmpty.string_of_uint d)
  = Some (Z.of_N (DecimalPos.Unsigned.of_lu (Decimal.revapp d d'))).
Proof.
  revert d'. induction d; intro d'; simpl NilEmpty.string_of_uint; [reflexivity | ..];
    cbn [digitsValue];
    match goal with
    | |- context [digitValue 10 ?c] =>
        let v := eval vm_compute in (digitValue 10 c) in
        change (digitValue 10 c) with v
    end;
    cbn iota; cbn [Decimal.revapp]; rewrite <- IHd; f_equal;
    repeat rewrite DecimalPos.Unsigned.of_lu_eqn with (d := _ d');
    cbn [DecimalPos.Unsigned.hd DecimalPos.Unsigned.tl]; lia.
Qed.

Lemma numeral_of_positive (p : positive) :
  NilEmpty.string_of_uint (Pos.to_uint p) <> ""
  /\ numeral 10 (NilEmpty.string_of_uint (Pos.to_uint p)) = Returned (Zpos p).
Proof.
  assert (Hne : NilEmpty.string_of_uint (Pos.to_uint p) <> "").
  { pose proof (DecimalPos.Unsigned.to_uint_nonnil p) as Hnil.
    destruct (Pos.to_uint p); [contradiction | ..]; discriminate. }
  split; [exact Hne |].
  unfold numeral.
  pose proof (digitsValue_of_uint (Pos.to_uint p) Decimal.Nil) as Hv.
  change (Decimal.revapp (Pos.to_uint p) Decimal.Nil) with (Decimal.rev (Pos.to_uint p)) in Hv.
  rewrite <- DecimalPos.Unsigned.of_uint_alt, DecimalPos.Unsigned.of_to in Hv.
  simpl Z.of_N in Hv.
  destruct (NilEmpty.string_of_uint (Pos.to_uint p)); [contradiction |].
  rewrite Hv. reflexivity.
Qed.

(** A string of digits is read as a decimal numeral. *)
Lemma StringToBigInt_digits (s : string) :
  s <> "" -> every digit s = true -> StringToBigInt s = numeral 10 s.
Proof.
  intros Hne Hs. unfold StringToBigInt.
  rewrite (@trim_signOrDigit _ Hne (@digit_signOrDigit _ Hs)).
  destruct s as [| c s]; [contradiction |].
  simpl in Hs. apply andb_true_iff in Hs. destruct Hs as [Hc Hs].
  destruct c as [[] [] [] [] [] [] [] []]; try discriminate Hc; try reflexivity.
  destruct s as [| c2 s]; [reflexivity |].
  simpl in Hs. apply andb_true_iff in Hs. destruct Hs as [Hc2 _].
  destruct c2 as [[] [] [] [] [] [] [] []]; try discriminate Hc2; reflexivity.
Qed.

(** [BigInt(n.toString()) === n]. *)
Lemma StringToBigInt_toString (n : Z) : StringToBigInt (BigInt_toString n) = Returned n.
Proof.
  destruct n as [| p | p]; [reflexivity | |].
  - unfold BigInt_toString. simpl Z.to_int. unfold NilZero.string_of_int, NilZero.string_of_uint.
    destruct (numeral_of_positive p) as [Hne Hnum].
    pose proof (DecimalPos.Unsigned.to_uint_nonnil p) as Hnil.
    destruct (Pos.to_uint p) eqn:Hd; [contradiction | ..];
      rewrite <- Hd in *;
      (rewrite StringToBigInt_digits; [exact Hnum | exact Hne | apply digits_of_uint]).
  - unfold BigInt_toString. simpl Z.to_int. unfold NilZero.string_of_int, NilZero.string_of_uint.
    destruct (numeral_of_positive p) as [Hne Hnum].
    pose proof (DecimalPos.Unsigned.to_uint_nonnil p) as Hnil.
    assert (Hs : NilZero.string_of_uint (Pos.to_uint p) = NilEmpty.string_of_uint (Pos.to_uint p)).
    { destruct (Pos.to_uint p); [contradiction | ..]; reflexivity. }
    unfold NilZero.string_of_uint in Hs. rewrite Hs.
    unfold StringToBigInt. rewrite trim_signOrDigit.
    + rewrite Hnum. reflexivity.
    + discriminate.
    + simpl. apply digit_signOrDigit, digits_of_uint.
Qed.

End BigIntStrings.

(** ** Amount scaling *)

Module AmountScaling.
Import JS WillService.
Open Scope Z_scope.

Lemma quot_is_floor (n : Z) : 0 <= n -> Z.quot n 1000 = n / 1000.
Proof. intro H. apply Z.quot_div_nonneg; lia. Qed.

(** C9, as the code has it. The share [p] is scaled to
    [round (p * 10)], which [BigInt] reads: when it is an integer the
    amount of a transfer is [B * round (p * 10) / 1000] truncated
    towards zero, which is [floor (B * round (p * 10) / 1000)] when
    neither the balance nor the scaled share is negative; when it is
    not, no amount is computed.  For [B = 1000] the percentage 36.3
    gives 363, 33.33 is scaled to 333 and gives 333, and 33.36 is
    scaled to 334. *)
Theorem amount_is_floor_of_scaled_share (B : Z) (p : float) :
  match NumberToBigInt (Math_round (p * 10)%float) with
  | Returned scaled =>
      computeAmount B p = Returned (Z.quot (B * scaled) 1000)
      /\ (0 <= B -> 0 <= scaled -> computeAmount B p = Returned (B * scaled / 1000))
  | Thrown m => computeAmount B p = Thrown m
  end
  /\ computeAmount 1000 36.3 = Returned 363
  /\ percentageScaled 33.33 = Returned 333
  /\ computeAmount 1000 33.33 = Returned 333
  /\ percentageScaled 33.36 = Returned 334.
Proof.
  split; [| repeat split; reflexivity].
  unfold computeAmount, percentageScaled.
  destruct (NumberToBigInt (Math_round (p * 10)%float)) as [scaled | m]; [| reflexivity].
  split; [reflexivity |].
  intros HB Hs. rewrite quot_is_floor by nia. reflexivity.
Qed.

(** For a share that is negative the two differ: with a balance of
    1001 the share -33.35 is scaled to -333 and the amount is -333,
    where the floor of [1001 * -333 / 1000] is -334. *)
Lemma negative_share_is_truncated :
  NumberToBigInt (Math_round (-33.35 * 10)%float) = Returned (-333)
  /\ computeAmount 1001 (-33.35) = Returned (-333)
  /\ 1001 * -333 / 1000 = -334.
Proof. repeat split; reflexivity. Qed.

End AmountScaling.

(** ** The weighted reallocation *)

Module ReallocationProps.
Import JS Reallocation Scenarios.Shares.
Open Scope string_scope.

(** *** The fields the normalization leaves alone *)

Section Fields.
Variable A : Type.
Variable field : AdjustedBeneficiary -> A.
Hypothesis field_setPercentage : forall b p, field (setPercentage b p) = field b.




End Fields.

(** *** The two loops of step 3 *)

Section Loops.
Context {CO : Coercions}.






End Loops.

(** C2, on the code. The shares that are returned leave the bounds the
    function announces.  With a will for Alice alone, a signal that
    removes her and a signal that adds Carol with everything, the log
    records 40 for Alice and 20 for Carol, and the normalization returns
    66.7 and 33.3: Carol, a newcomer, holds more than 30.  With a will
    for Alice and Bob in halves, a signal that removes Alice and five
    signals that add somebody with everything, the reason recorded for
    Alice says that 40% is kept, and the normalization returns 12.5 for
    her, less than [50 * 0.80 * 0.5 = 20]. *)
Theorem returned_shares_outside_bounds :
  (exists result,
     calculateWeightedDistribution (answers removeAliceAddCarol) aliceOnly posts 40 "en"
     = Returned result
     /\ map adjustedPercentage (adjustmentLog result) = [40; 20]%float
     /\ map ab_name (adjustedBeneficiaries result)
        = [Some (Str "Alice"); Some (Str "Carol")]
     /\ map ab_percentage (adjustedBeneficiaries result) = [66.7; 33.3]%float)
  /\ (30 <? 33.3)%float = true
  /\ (exists result,
        calculateWeightedDistribution (answers removeAliceAddFive) aliceAndBob posts 40 "en"
        = Returned result
        /\ map entry_reason (firstn 1 (adjustmentLog result))
           = ["社交排除信号 (seen in a post)，保护机制保留 40%"]
        /\ map ab_percentage (adjustedBeneficiaries result)
           = [12.5; 25; 12.5; 12.5; 12.5; 12.5; 12.5]%float)
  /\ (12.5 <? 50 * 0.80 * 0.5)%float = true.
Proof.
  split; [eexists; split; [vm_compute; reflexivity | repeat split] |].
  split; [reflexivity |].
  split; [eexists; split; [vm_compute; reflexivity | repeat split] |].
  reflexivity.
Qed.

(** C4, on the code. The normalization changes a list that already sums
    to 100.  The shares 51.7, 17.6, 10.7 and 20 are 517, 176, 107 and
    200 tenths, 1000 in all, but their sum as doubles is
    100.00000000000001: the factor is below 1, three of the scaled
    shares fall under their tenth and are truncated to the tenth below,
    and the residual of 0.3 goes to the largest.  The list that comes
    back is 52, 17.5, 10.6 and 19.9.  When the doubles add up to 100,
    as for 36.3, 33.3 and 30.4, the list comes back as it was. *)
Theorem normalization_moves_settled_shares :
  map (fun b => NumberToBigInt (Math_round (ab_percentage b * 10)%float)) drifting
  = [Returned 517; Returned 176; Returned 107; Returned 200]%Z
  /\ map ab_percentage drifting = [51.7; 17.6; 10.7; 20]%float
  /\ total drifting = 100.00000000000001%float
  /\ map ab_percentage (scaled drifting) = [51.7; 17.5; 10.6; 19.9]%float
  /\ residual drifting = 0.3%float
  /\ map ab_percentage (normalizeToHundred drifting) = [52; 17.5; 10.6; 19.9]%float
  /\ map ab_percentage (normalizeToHundred settled) = map ab_percentage settled.
Proof. repeat split; vm_compute; reflexivity. Qed.

(** An answer that parses but has another shape than the prompt asks
    for is not caught by [quantifySocialIntents]: a value that holds
    no list, or an entry to add that has no name, leaves the
    reallocation with a [TypeError]. *)
Lemma unchecked_answers_can_throw :
  calculateWeightedDistribution (answers noList) aliceOnly posts 40 "en"
  = Thrown "socialBeneficiaries.find is not a function"
  /\ calculateWeightedDistribution (answers nameless) aliceOnly posts 40 "en"
     = Thrown "Cannot read properties of undefined (reading 'toLowerCase')".
Proof. split; vm_compute; reflexivity. Qed.

End ReallocationProps.

(** ** The signature verifier *)

Module SignatureProps.
Import JS SignatureVerifier.
Open Scope string_scope.

Section Canonical.
Context {RT : Runtime}.

Lemma canonical_sameFields (b b' : JSObject) :
  sameFields b b' -> canonical b = canonical b'.
Proof.
  intros (Ha & Hn & Hp). unfold canonical. rewrite Ha, Hn, Hp. reflexivity.
Qed.

Lemma map_canonical_sameFields (bs bs' : list JSObject) :
  Forall2 sameFields bs bs' -> map canonical bs = map canonical bs'.
Proof.
  induction 1 as [| b b' bs bs' Hb Hbs IH]; simpl.
  - reflexivity.
  - rewrite (canonical_sameFields Hb), IH. reflexivity.
Qed.

(** C3, as the code has it. The signed encoding writes the keys of
    every beneficiary in the order address, name, percentage and keeps
    the beneficiaries in the order of the list: two lists whose entries
    agree one by one on the three fields, whatever the order of the keys
    and the other keys present, have the same encoding, and a signature
    verifies for both or for neither. *)
Theorem canonical_encoding_ignores_key_order (bs bs' : list JSObject) :
  Forall2 sameFields bs bs' ->
  (forall b, map fst (canonical b) = ["address"; "name"; "percentage"])
  /\ beneficiariesStr bs = beneficiariesStr bs'
  /\ forall owner totalAmount validUntil signature,
       verifyWillAuthorization owner bs totalAmount validUntil signature
       = verifyWillAuthorization owner bs' totalAmount validUntil signature.
Proof.
  intro H.
  assert (Henc : beneficiariesStr bs = beneficiariesStr bs').
  { unfold beneficiariesStr. rewrite (map_canonical_sameFields H). reflexivity. }
  split; [intro b; reflexivity |].
  split; [exact Henc |].
  intros owner totalAmount validUntil signature.
  unfold verifyWillAuthorization. rewrite Henc. reflexivity.
Qed.

End Canonical.

Import Scenarios.Signing.

Lemma canonical_encoding_ignores_key_order_witness :
  beneficiariesStr [Scenarios.Signing.aliceReordered; Scenarios.Signing.bob]
  = beneficiariesStr [Scenarios.Signing.alice; Scenarios.Signing.bob]
  /\ verifyWillAuthorization Scenarios.Signing.ownerAddress
       [Scenarios.Signing.aliceReordered; Scenarios.Signing.bob]
       "1000" 1767225600 Scenarios.Signing.signedByOwner
     = true.
Proof.
  destruct (@canonical_encoding_ignores_key_order Scenarios.Signing.toyRuntime
              [Scenarios.Signing.aliceReordered; Scenarios.Signing.bob]
              [Scenarios.Signing.alice; Scenarios.Signing.bob])
    as (_ & Henc & Hver).
  - repeat constructor.
  - split; [exact Henc |]. rewrite Hver. reflexivity.
Defined.

(** The order of the beneficiaries is part of the encoding: Alice, Bob
    and Bob, Alice are permutations of each other with different
    encodings, and the signature made for the first does not verify for
    the second. *)
Lemma permuted_beneficiaries_encode_differently :
  Permutation [Scenarios.Signing.alice; Scenarios.Signing.bob]
              [Scenarios.Signing.bob; Scenarios.Signing.alice]
  /\ beneficiariesStr [Scenarios.Signing.alice; Scenarios.Signing.bob]
     <> beneficiariesStr [Scenarios.Signing.bob; Scenarios.Signing.alice]
  /\ verifyWillAuthorization Scenarios.Signing.ownerAddress
       [Scenarios.Signing.alice; Scenarios.Signing.bob]
       "1000" 1767225600 Scenarios.Signing.signedByOwner
     = true
  /\ verifyWillAuthorization Scenarios.Signing.ownerAddress
       [Scenarios.Signing.bob; Scenarios.Signing.alice]
       "1000" 1767225600 Scenarios.Signing.signedByOwner
     = false.
Proof.
  split; [apply perm_swap |].
  split; [intro H; vm_compute in H; discriminate H |].
  split; vm_compute; reflexivity.
Qed.

End SignatureProps.

(** ** The execution engine *)

Module EngineProps.
Import JS Database WillService.
Open Scope string_scope.
Open Scope Z_scope.

Section Specs.
Context {W : Type} {C : Collaborators W}.

(** *** What a step leaves alone *)

Lemma will_eta (w : StoredWillAuthorization) :
  setSpendingLimits w (spendingLimits w) = w.
Proof. destruct w; reflexivity. Qed.

Lemma steps_refl (r : @Run W) : steps r r.
Proof.
  unfold steps. repeat split; auto.
  - symmetry. apply will_eta.
  - exists []. rewrite app_nil_r. reflexivity.
Qed.

Lemma steps_trans (a b c : @Run W) : steps a b -> steps b c -> steps a c.
Proof.
  intros (Hw1 & Hl1 & Hc1 & xs & Hx) (Hw2 & Hl2 & Hc2 & ys & Hy).
  unfold steps. repeat split.
  - congruence.
  - congruence.
  - rewrite Hc2, Hc1. reflexivity.
  - exists (xs ++ ys)%list. rewrite Hy, Hx, app_assoc. reflexivity.
Qed.

Lemma steps_world (r : @Run W) (w : W) :
  steps r (mkRun (db r) w (will r) (results r)).
Proof.
  unfold steps; cbn. repeat split.
  - symmetry. apply will_eta.
  - exists []. rewrite app_nil_r. reflexivity.
Qed.

Lemma steps_beneficiaries (r r' : @Run W) :
  steps r r' -> beneficiaries (will r') = beneficiaries (will r)
                /\ willId (will r') = willId (will r)
                /\ useStablecoin (will r') = useStablecoin (will r).
Proof.
  intros (_ & _ & Hw & _). rewrite Hw. repeat split.
Qed.

(** *** The limiter *)

(** The verdict of the limiter by cases: an allowed amount is within
    both caps, a rejected one comes with a reason, and an exception
    means that one of the three amounts is no integer. *)
Lemma compareWithCaps_cases (limits : SpendingLimits) (amount : Z) :
  match compareWithCaps limits amount with
  | Returned verdict =>
      exists perTx,
        StringToBigInt (perTxLimit limits) = Returned perTx
        /\ if allowed verdict
           then exists daily spent,
                  StringToBigInt (dailyLimit limits) = Returned daily
                  /\ StringToBigInt (dailySpent limits) = Returned spent
                  /\ amount <= perTx /\ spent + amount <= daily
                  /\ reason verdict = None
           else exists why, reason verdict = Some why
  | Thrown _ => ~ wellFormed limits
  end.
Proof.
  unfold compareWithCaps, wellFormed.
  destruct (StringToBigInt (perTxLimit limits)) as [perTx | m1] eqn:H1.
  2:{ intros (a & b & c & Ha & _). discriminate Ha. }
  destruct (amount >? perTx) eqn:Hper.
  { exists perTx. split; [reflexivity |]. cbn. eexists. reflexivity. }
  destruct (StringToBigInt (dailyLimit limits)) as [daily | m2] eqn:H2.
  2:{ intros (a & b & c & _ & Hb & _). discriminate Hb. }
  destruct (StringToBigInt (dailySpent limits)) as [spent | m3] eqn:H3.
  2:{ intros (a & b & c & _ & _ & Hc). discriminate Hc. }
  destruct (spent + amount >? daily) eqn:Hday.
  { exists perTx. split; [reflexivity |]. cbn. eexists. reflexivity. }
  exists perTx. split; [reflexivity |]. cbn. exists daily, spent.
  rewrite Z.gtb_ltb in Hper, Hday. apply Z.ltb_ge in Hper, Hday.
  repeat split; assumption.
Qed.

Lemma compareWithCaps_wellFormed (limits : SpendingLimits) (amount : Z) :
  wellFormed limits -> exists verdict, compareWithCaps limits amount = Returned verdict.
Proof.
  intro Hwf. pose proof (compareWithCaps_cases limits amount) as H.
  destruct (compareWithCaps limits amount) as [v | m]; [exists v; reflexivity | contradiction].
Qed.

Lemma resetIfNewDay_wellFormed (today : string) (limits : SpendingLimits) :
  wellFormed limits -> wellFormed (resetIfNewDay today limits).
Proof.
  intros (perTx & daily & spent & H1 & H2 & H3). unfold resetIfNewDay.
  destruct (negb (String.eqb (lastResetDate limits) today)).
  - exists perTx, daily, 0. cbn. repeat split; assumption || reflexivity.
  - exists perTx, daily, spent. repeat split; assumption.
Qed.

(** *** One transfer *)

(** Unfolds the state transformers down to the calls of the collaborators. *)
Ltac run_step :=
  cbv [bind ret lift call tryCatch getWill getResults getDB getNow modifyDB
       modifyWill push checkLimits transfer distributable]; cbn [db world will results fst snd].

(** A transfer touches the outside world only. *)
Lemma transfer_frame key lw b amount (r : @Run W) :
  exists o w', transfer key lw b amount r = (o, mkRun (db r) w' (will r) (results r)).
Proof.
  assert (Hr : r = mkRun (db r) (world r) (will r) (results r)) by (destruct r; reflexivity).
  run_step. destruct (useStablecoin (will r)).
  - destruct (getAddress (lw_address lw)) as [fromAddr | m1];
      [| eexists _, _; rewrite Hr at 1; reflexivity].
    destruct (getAddress (address b)) as [toAddr | m2];
      [| eexists _, _; rewrite Hr at 1; reflexivity].
    destruct (token_transferFrom key fromAddr toAddr amount (world r)) as [o w'].
    eexists _, _. reflexivity.
  - destruct (getAddress (address b)) as [toAddr | m2];
      [| eexists _, _; rewrite Hr at 1; reflexivity].
    destruct (custody_sendTransaction key toAddr amount (world r)) as [o w'].
    eexists _, _. reflexivity.
Qed.

(** The body of the loop, case by case: the amount, the check, the
    transfer and, after a transfer that returned, the commit, the
    record and the result. *)
Lemma distributeTo_run key sym lw bal b (r : @Run W) :
  let limits := resetIfNewDay (today (world r)) (spendingLimits (will r)) in
  let checked := mkRun (db r) (world r) (setSpendingLimits (will r) limits) (results r) in
  match computeAmount bal (percentage b) with
  | Thrown m => distributeTo key sym lw bal b r = (Thrown m, r)
  | Returned amount =>
      if amount =? 0 then distributeTo key sym lw bal b r = (Returned tt, r)
      else
        match compareWithCaps limits amount with
        | Thrown m => distributeTo key sym lw bal b r = (Thrown m, checked)
        | Returned verdict =>
            if allowed verdict
            then
              exists o w',
                transfer key lw b amount checked
                = (o, mkRun (db r) w' (will checked) (results r))
                /\ match o with
                   | Returned hash =>
                       exists spent,
                         StringToBigInt (dailySpent limits) = Returned spent
                         /\ distributeTo key sym lw bal b r
                            = (Returned tt,
                               mkRun (saveTransaction
                                        (mkTransaction hash (willId (will r)) (lw_address lw)
                                                       (address b) (name b) amount sym
                                                       DISTRIBUTION tx_confirmed (Date_now w'))
                                        (db r))
                                     w'
                                     (setSpendingLimits (will r)
                                        (mkSpendingLimits (perTxLimit limits) (dailyLimit limits)
                                                          (BigInt_toString (spent + amount))
                                                          (lastResetDate limits)))
                                     (results r
                                      ++ [mkExecutionResult (name b) hash amount confirmed
                                                            sym None])%list)
                   | Thrown m =>
                       distributeTo key sym lw bal b r
                       = (Returned tt,
                          mkRun (db r) w' (will checked)
                                (results r
                                 ++ [mkExecutionResult (name b) "" amount failed sym
                                                       (Some m)])%list)
                   end
            else
              distributeTo key sym lw bal b r
              = (Returned tt,
                 mkRun (db r) (world r) (will checked)
                       (results r
                        ++ [mkExecutionResult (name b) "" amount failed sym
                                              (reason verdict)])%list)
        end
  end.
Proof.
  cbv zeta. unfold distributeTo.
  destruct (computeAmount bal (percentage b)) as [amount | m]; [| reflexivity].
  cbv [bind lift tryCatch]. destruct (amount =? 0); [reflexivity |].
  cbv [checkLimits checkSpendingLimits].
  set (limits := resetIfNewDay (today (world r)) (spendingLimits (will r))).
  pose proof (compareWithCaps_cases limits amount) as Hcaps.
  destruct (compareWithCaps limits amount) as [verdict | m]; [| reflexivity].
  destruct (allowed verdict) eqn:Hallowed; cbn [negb]; [| reflexivity].
  destruct Hcaps as (perTx & _ & daily & spent & _ & Hspent & _).
  destruct (transfer_frame key lw b amount
              (mkRun (db r) (world r) (setSpendingLimits (will r) limits) (results r)))
    as (o & w' & Hsent).
  cbn [db world will results] in Hsent.
  exists o, w'. split; [exact Hsent |].
  rewrite Hsent.
  destruct o as [hash | m]; [| reflexivity].
  exists spent. split; [exact Hspent |].
  cbv [commit updateDailySpent]. cbn [will db world results].
  replace (spendingLimits (setSpendingLimits (will r) limits)) with limits
    by (destruct (will r); reflexivity).
  rewrite Hspent.
  cbv [getWill getNow modifyDB push]. cbn [db world will results].
  destruct (will r); reflexivity.
Qed.

Lemma attempted_failed sym bal b amount why :
  computeAmount bal (percentage b) = Returned amount ->
  attempted sym bal b (mkExecutionResult (name b) "" amount failed sym (Some why)).
Proof.
  intro H. unfold attempted; cbn. repeat split; [exact H |].
  right. split; [reflexivity | eexists; reflexivity].
Qed.

Ltac steps_now :=
  unfold steps; cbn [db world will results wills linked_wallets saveTransaction];
  repeat split; try reflexivity; try (eexists; reflexivity);
  try (exists []; rewrite app_nil_r; reflexivity);
  try (destruct (will _); reflexivity).

(** One turn of the loop: what it leaves alone, what it pushes, and
    that it ends without an exception and reports a payable
    beneficiary when the share scales and the limits are integers. *)
Lemma distributeTo_step key sym lw bal b (r : @Run W) :
  exists o r' xs,
    distributeTo key sym lw bal b r = (o, r')
    /\ steps r r'
    /\ results r' = (results r ++ xs)%list
    /\ (wellFormed (spendingLimits (will r)) -> wellFormed (spendingLimits (will r')))
    /\ (scalable b -> wellFormed (spendingLimits (will r)) ->
        o = Returned tt
        /\ Forall2 (attempted sym bal) (filter (payable bal) [b]) xs).
Proof.
  pose proof (distributeTo_run key sym lw bal b r) as Hrun. cbv zeta in Hrun.
  cbn [filter]. unfold payable, scalable.
  set (limits := resetIfNewDay (today (world r)) (spendingLimits (will r))) in *.
  assert (Hreset : wellFormed (spendingLimits (will r)) -> wellFormed limits)
    by apply resetIfNewDay_wellFormed.
  assert (Hlimits : forall l, spendingLimits (setSpendingLimits (will r) l) = l)
    by (intro l; destruct (will r); reflexivity).
  destruct (computeAmount bal (percentage b)) as [amount | m] eqn:Hamount.
  2:{ exists (Thrown m), r, []. split; [exact Hrun |]. split; [apply steps_refl |].
      split; [rewrite app_nil_r; reflexivity |]. split; [auto |].
      intros (scaled & Hs) _. unfold computeAmount in Hamount. rewrite Hs in Hamount.
      discriminate Hamount. }
  destruct (amount =? 0) eqn:Hz.
  { exists (Returned tt), r, []. split; [exact Hrun |]. split; [apply steps_refl |].
    split; [rewrite app_nil_r; reflexivity |]. split; [auto |].
    intros _ _. split; [reflexivity | constructor]. }
  cbn [negb].
  pose proof (compareWithCaps_cases limits amount) as Hcaps.
  destruct (compareWithCaps limits amount) as [verdict | m] eqn:Hverdict.
  2:{ eexists _, _, []. split; [exact Hrun |]. split; [steps_now |].
      split; [cbn; rewrite app_nil_r; reflexivity |]. cbn [will].
      rewrite Hlimits. split; [exact Hreset |].
      intros _ Hwf. exfalso. apply Hcaps. apply Hreset. exact Hwf. }
  destruct Hcaps as (perTx & HperTx & Hcaps).
  destruct (allowed verdict) eqn:Hallowed.
  - destruct Hcaps as (daily & spent & Hdaily & Hspent & _).
    destruct Hrun as (o & w' & _ & Hrun).
    destruct o as [hash | m].
    + destruct Hrun as (spent' & _ & Hrun).
      eexists _, _, [_]. split; [exact Hrun |]. split; [steps_now |].
      split; [reflexivity |]. cbn [will]. rewrite Hlimits. split.
      * intros _. exists perTx, daily, (spent' + amount). cbn.
        repeat split; try assumption. apply BigIntStrings.StringToBigInt_toString.
      * intros _ _. split; [reflexivity |]. constructor; [| constructor].
        unfold attempted; cbn. repeat split; [exact Hamount |].
        left. split; reflexivity.
    + eexists _, _, [_]. split; [exact Hrun |]. split; [steps_now |].
      split; [reflexivity |]. cbn [will]. rewrite Hlimits. split; [exact Hreset |].
      intros _ _. split; [reflexivity |]. constructor; [| constructor].
      apply attempted_failed. exact Hamount.
  - destruct Hcaps as (why & Hwhy).
    eexists _, _, [_]. split; [exact Hrun |]. split; [steps_now |].
    split; [reflexivity |]. cbn [will]. rewrite Hlimits. split; [exact Hreset |].
    intros _ _. split; [reflexivity |]. constructor; [| constructor].
    rewrite Hwhy. apply attempted_failed. exact Hamount.
Qed.

Lemma forEach_distributeTo key sym lw bal (bs : list Beneficiary) (r : @Run W) :
  exists o r' xs,
    forEach (distributeTo key sym lw bal) bs r = (o, r')
    /\ steps r r'
    /\ results r' = (results r ++ xs)%list
    /\ (wellFormed (spendingLimits (will r)) -> wellFormed (spendingLimits (will r')))
    /\ (Forall scalable bs -> wellFormed (spendingLimits (will r)) ->
        o = Returned tt
        /\ Forall2 (attempted sym bal) (filter (payable bal) bs) xs).
Proof.
  revert r. induction bs as [| b bs IH]; intro r.
  - exists (Returned tt), r, []. split; [reflexivity |]. split; [apply steps_refl |].
    split; [rewrite app_nil_r; reflexivity |]. split; [auto |].
    intros _ _. split; [reflexivity | constructor].
  - destruct (distributeTo_step key sym lw bal b r)
      as (o1 & r1 & xs1 & Hrun1 & Hs1 & Hres1 & Hwf1 & Hok1).
    cbn [forEach]. unfold bind. rewrite Hrun1.
    destruct o1 as [[] | m].
    + destruct (IH r1) as (o2 & r2 & xs2 & Hrun2 & Hs2 & Hres2 & Hwf2 & Hok2).
      exists o2, r2, (xs1 ++ xs2)%list. split; [exact Hrun2 |].
      split; [eapply steps_trans; eassumption |].
      split; [rewrite Hres2, Hres1, <- app_assoc; reflexivity |].
      split; [auto |].
      intros Hbs Hwf. inversion Hbs as [| b' bs' Hb Hbs']; subst.
      destruct (Hok1 Hb Hwf) as (_ & Hx1).
      destruct (Hok2 Hbs' (Hwf1 Hwf)) as (Ho2 & Hx2).
      split; [exact Ho2 |].
      cbn [filter] in Hx1 |- *. destruct (payable bal b).
      * inversion Hx1 as [| ? x ? xs Hx Hnil]; subst. inversion Hnil; subst.
        constructor; assumption.
      * inversion Hx1; subst. exact Hx2.
    + exists (Thrown m), r1, xs1. split; [reflexivity |]. split; [exact Hs1 |].
      split; [exact Hres1 |]. split; [exact Hwf1 |].
      intros Hbs Hwf. inversion Hbs as [| b' bs' Hb Hbs']; subst.
      destruct (Hok1 Hb Hwf) as (Ho & _). discriminate Ho.
Qed.

(** *** One wallet and the fan-out *)

Ltac wallet_skipped :=
  cbn; eexists _, []; split; [reflexivity |];
  split; [first [apply steps_refl | apply steps_world] |];
  split; [cbn; rewrite app_nil_r; reflexivity |];
  split; [cbn; auto | intros _; reflexivity].

Lemma processWallet_spec key custodyAddress sym lw (r : @Run W) :
  exists r' xs,
    processWallet key custodyAddress sym lw r = (Returned tt, r')
    /\ steps r r'
    /\ results r' = (results r ++ xs)%list
    /\ (wellFormed (spendingLimits (will r)) -> wellFormed (spendingLimits (will r')))
    /\ (sound (will r) -> contribution custodyAddress sym (lw, r) xs).
Proof.
  unfold processWallet, contribution, eligibleBalance. run_step.
  destruct (useStablecoin (will r)) eqn:Hstable.
  - destruct (token_balanceOf (lw_address lw) (world r)) as [[bal | m] w1];
      [| wallet_skipped].
    cbn. destruct (bal =? 0); [wallet_skipped |].
    cbn. rewrite Hstable. cbn.
    destruct (token_allowance (lw_address lw) custodyAddress w1) as [[allowance | m] w2];
      [| wallet_skipped].
    cbn. destruct (allowance =? 0); [wallet_skipped |].
    cbn.
    destruct (forEach_distributeTo key sym lw bal (beneficiaries (will r))
                (mkRun (db r) w2 (will r) (results r)))
      as (o & r' & xs & Hrun & Hs & Hres & Hwf & Hxs).
    exists r', xs. rewrite Hrun. split; [destruct o as [[] | m]; reflexivity |].
    split; [eapply steps_trans; [apply (steps_world r w2) | exact Hs] |].
    split; [exact Hres |]. split; [exact Hwf |].
    intros (Hscalable & Hlimits). apply (Hxs Hscalable Hlimits).
  - destruct (provider_getBalance (lw_address lw) (world r)) as [[raw | m] w1];
      [| wallet_skipped].
    cbn. destruct ((if raw >? gasReserve then raw - gasReserve else 0) =? 0);
      [wallet_skipped |].
    cbn. rewrite Hstable. cbn.
    destruct (forEach_distributeTo key sym lw
                (if raw >? gasReserve then raw - gasReserve else 0)
                (beneficiaries (will r))
                (mkRun (db r) w1 (will r) (results r)))
      as (o & r' & xs & Hrun & Hs & Hres & Hwf & Hxs).
    exists r', xs. rewrite Hrun. split; [destruct o as [[] | m]; reflexivity |].
    split; [eapply steps_trans; [apply (steps_world r w1) | exact Hs] |].
    split; [exact Hres |]. split; [exact Hwf |].
    intros (Hscalable & Hlimits). apply (Hxs Hscalable Hlimits).
Qed.

Lemma fanOut_spec key custodyAddress sym (wallets : list LinkedWallet) (r : @Run W) :
  exists r' groups,
    fanOut key custodyAddress sym wallets r = (Returned tt, r')
    /\ steps r r'
    /\ results r' = (results r ++ List.concat groups)%list
    /\ (sound (will r) ->
        Forall2 (contribution custodyAddress sym)
                (combine wallets (walletRuns key custodyAddress sym wallets r)) groups)
    /\ Forall (fun ri => beneficiaries (will ri) = beneficiaries (will r))
              (walletRuns key custodyAddress sym wallets r).
Proof.
  unfold fanOut. revert r. induction wallets as [| lw wallets IH]; intro r; simpl.
  - exists r, []. split; [reflexivity |]. split; [apply steps_refl |].
    split; [simpl; rewrite app_nil_r; reflexivity |]. split; constructor.
  - destruct (processWallet_spec key custodyAddress sym lw r)
      as (r1 & xs & Hrun & Hs & Hres & Hwf & Hxs).
    destruct (IH r1) as (r2 & groups & Hrun2 & Hs2 & Hres2 & Hgroups & Hbs).
    exists r2, (xs :: groups). unfold bind. rewrite Hrun, Hrun2. cbn [snd].
    destruct (steps_beneficiaries Hs) as (Hb & _).
    split; [reflexivity |]. split; [eapply steps_trans; eassumption |].
    split; [simpl; rewrite Hres2, Hres, <- app_assoc; reflexivity |].
    split.
    + intros Hsound. constructor; [apply Hxs; exact Hsound |].
      apply Hgroups. destruct Hsound as (Hscalable & Hlimits).
      split; [rewrite Hb; exact Hscalable | apply Hwf; exact Hlimits].
    + constructor; [reflexivity |].
      eapply Forall_impl; [| exact Hbs]. intros ri Hri. cbn beta in Hri. congruence.
Qed.

(** *** The two modes *)

Lemma declareDeath_spec key message (r : @Run W) :
  exists death r',
    declareDeath key message r = (Returned death, r')
    /\ steps r r' /\ results r' = results r /\ will r' = will r
    /\ (db r' = db r
        \/ exists t, txType t = DEATH_DECLARATION /\ db r' = saveTransaction t (db r)).
Proof.
  unfold declareDeath. run_step.
  destruct (String.eqb DEATH_CERTIFICATE_ADDRESS "").
  - exists None, r. split; [reflexivity |]. split; [apply steps_refl |].
    repeat split. left. reflexivity.
  - destruct (recordDeath key (willId (will r)) (owner (will r))
               (List.length (beneficiaries (will r)))
               (message ++ willId (will r)) (world r)) as [[hash | m] w1]; cbn.
    + eexists _, _. split; [reflexivity |]. split; [steps_now; symmetry; apply will_eta |].
      repeat split. right. eexists. split; [| reflexivity]. reflexivity.
    + eexists _, _. split; [reflexivity |]. split; [apply steps_world |].
      repeat split. left. reflexivity.
Qed.

(** The start of a call leaves the working copy and the results alone
    and adds at most the record of the death declaration. *)
Lemma started_frame message key (r r1 : @Run W) custodyAddress :
  started message key r = Some (custodyAddress, r1) ->
  steps r r1 /\ results r1 = results r /\ will r1 = will r
  /\ (db r1 = db r
      \/ exists t, txType t = DEATH_DECLARATION /\ db r1 = saveTransaction t (db r)).
Proof.
  unfold started.
  destruct (Wallet_address key) as [a | m]; [| discriminate].
  destruct (provider_getBalance a (world r)) as [[bal | m] w1]; [| discriminate].
  destruct (bal <? minGasRequired); [discriminate |].
  destruct (declareDeath_spec key message (mkRun (db r) w1 (will r) (results r)))
    as (death & r' & Hrun & Hs & Hres & Hwill & Hdb).
  rewrite Hrun. cbn [snd]. intro H. injection H as _ <-.
  split; [eapply steps_trans; [apply (steps_world r w1) | exact Hs] |].
  repeat split; assumption.
Qed.

Lemma linkedWalletsOf_steps id (r r' : @Run W) :
  steps r r' -> linkedWalletsOf (db r') (will r') id = linkedWalletsOf (db r) (will r) id.
Proof.
  intros (_ & Hl & Hw & _). unfold linkedWalletsOf, getLinkedWalletsByWillId.
  rewrite Hl, Hw. reflexivity.
Qed.

Lemma wills_updateWillStatus id s (d d' : DB) :
  wills d' = wills d -> wills (updateWillStatus id s d') = wills (updateWillStatus id s d).
Proof.
  intro H. unfold updateWillStatus; simpl. rewrite H. reflexivity.
Qed.

Lemma executeApprove_spec id key (r : @Run W) :
  exists o r',
    executeApprove id key r = (o, r')
    /\ linked_wallets (db r') = linked_wallets (db r)
    /\ match o with
       | Returned resp =>
           if success resp
           then wills (db r') = wills (updateWillStatus id executed (db r))
                /\ exists rs, resp_transactions resp = Some rs /\ approveReport id key r rs
           else db r' = db r /\ custodyCause key (world r) (world r')
       | Thrown _ =>
           (db r' = db r /\ custodyCause key (world r) (world r'))
           \/ exists custodyAddress r1,
                started "Silene Protocol: Death confirmed for will " key r
                = Some (custodyAddress, r1)
                /\ db r' = db r1
                /\ tokenCause (will r) (world r1) (world r')
       end.
Proof.
  unfold executeApprove.
  unfold bind at 1. unfold lift at 1.
  destruct (Wallet_address key) as [custodyAddress | m] eqn:Hkey.
  2:{ exists (Thrown m), r. repeat split. left. split; [reflexivity |].
      left. split; [exists m; exact Hkey | reflexivity]. }
  unfold bind at 1. unfold call at 1.
  destruct (provider_getBalance custodyAddress (world r)) as [[bal | m] w1] eqn:Hbal.
  2:{ eexists _, _. split; [reflexivity |]. cbn. repeat split.
      left. split; [reflexivity |].
      right. left. exists custodyAddress, m. split; [exact Hkey | exact Hbal]. }
  destruct (bal <? minGasRequired) eqn:Hgas.
  { eexists _, _. split; [reflexivity |]. cbn. repeat split.
    right. right. exists custodyAddress, bal. apply Z.ltb_lt in Hgas.
    repeat split; assumption. }
  unfold bind at 1.
  destruct (declareDeath_spec key "Silene Protocol: Death confirmed for will "
              (mkRun (db r) w1 (will r) (results r)))
    as (death & r1 & Hdeath & Hs1 & Hres1 & Hwill1 & _).
  assert (Hstarted : started "Silene Protocol: Death confirmed for will " key r
                     = Some (custodyAddress, r1)).
  { unfold started. rewrite Hkey, Hbal, Hgas, Hdeath. reflexivity. }
  rewrite Hdeath.
  assert (Hs01 : steps r r1).
  { eapply steps_trans; [apply (steps_world r w1) | exact Hs1]. }
  cbn in Hres1, Hwill1.
  unfold bind at 1, getWill at 1. unfold bind at 1, getDB at 1.
  rewrite (linkedWalletsOf_steps id Hs01).
  set (wallets := linkedWalletsOf (db r) (will r) id).
  rewrite Hwill1.
  unfold bind at 1.
  destruct (useStablecoin (will r)) eqn:Hst.
  - unfold call at 1.
    destruct (token_symbol (world r1)) as [[tokenSymbol | m] w2] eqn:Hsym.
    2:{ eexists _, _. split; [reflexivity |]. cbn [db world].
        destruct Hs01 as (_ & Hl & _). split; [exact Hl |].
        right. exists custodyAddress, r1. split; [exact Hstarted |].
        split; [reflexivity |]. split; [exact Hst |]. left. exists m. exact Hsym. }
    unfold bind at 1, call at 1. cbn [db world will results].
    destruct (token_decimals w2) as [[tokenDecimals | m] w3] eqn:Hdec.
    2:{ eexists _, _. split; [reflexivity |]. cbn [db world].
        destruct Hs01 as (_ & Hl & _). split; [exact Hl |].
        right. exists custodyAddress, r1. split; [exact Hstarted |].
        split; [reflexivity |]. split; [exact Hst |]. right.
        exists tokenSymbol, w2, m. split; assumption. }
    set (r3 := mkRun (db r1) w3 (will r1) (results r1)).
    assert (Hs03 : steps r r3).
    { eapply steps_trans; [exact Hs01 | apply (steps_world r1 w3)]. }
    destruct (fanOut_spec key custodyAddress tokenSymbol wallets r3)
      as (r4 & groups & Hfan & Hs4 & Hres4 & _).
    unfold bind at 1. rewrite Hfan.
    cbv [bind modifyDB getResults ret]. cbn [db world will results].
    eexists _, _. split; [reflexivity |]. cbn [db success succeeded resp_transactions].
    destruct (steps_trans Hs03 Hs4) as (Hw & Hl & _).
    split; [exact Hl |].
    split; [apply wills_updateWillStatus; exact Hw |].
    eexists. split; [reflexivity |].
    exists r3, custodyAddress, tokenSymbol.
    split; [exact Hs03 |]. split; [exact Hres1 |]. split; [exact Hwill1 |].
    subst wallets. rewrite Hfan. reflexivity.
  - unfold ret at 1. unfold bind at 1, ret at 1.
    destruct (fanOut_spec key custodyAddress "KITE" wallets r1)
      as (r4 & groups & Hfan & Hs4 & Hres4 & _).
    unfold bind at 1. rewrite Hfan.
    cbv [bind modifyDB getResults ret]. cbn [db world will results].
    eexists _, _. split; [reflexivity |]. cbn [db success succeeded resp_transactions].
    destruct (steps_trans Hs01 Hs4) as (Hw & Hl & _).
    split; [exact Hl |].
    split; [apply wills_updateWillStatus; exact Hw |].
    eexists. split; [reflexivity |].
    exists r1, custodyAddress, "KITE".
    split; [exact Hs01 |]. split; [exact Hres1 |]. split; [exact Hwill1 |].
    subst wallets. rewrite Hfan. reflexivity.
Qed.

Lemma withdrawTo_spec key vault vaultBalance b (r : @Run W) :
  exists o r',
    withdrawTo key vault vaultBalance b r = (o, r') /\ steps r r'
    /\ (scalable b -> o = Returned tt).
Proof.
  unfold withdrawTo, scalable. unfold bind at 1, lift at 1. unfold computeAmount.
  destruct (percentageScaled (percentage b)) as [scaled | m].
  2:{ exists (Thrown m), r. split; [reflexivity |]. split; [apply steps_refl |].
      intros (s & Hs). discriminate Hs. }
  set (amount := Z.quot (vaultBalance * scaled) 1000).
  destruct (amount =? 0).
  { exists (Returned tt), r. split; [reflexivity |]. split; [apply steps_refl | auto]. }
  run_step.
  destruct (kitepassWithdraw (owner (will r)) vault (formatUnits amount 6) key (world r))
    as [[result | m] w1]; cbn.
  - destruct (wr_success result && truthy (wr_txHash result)); cbn;
      (eexists _, _; split; [reflexivity |]; split; [steps_now | auto]).
  - eexists _, _; split; [reflexivity |]. split; [steps_now | auto].
Qed.

Lemma forEach_withdrawTo key vault vaultBalance (bs : list Beneficiary) (r : @Run W) :
  exists o r',
    forEach (withdrawTo key vault vaultBalance) bs r = (o, r')
    /\ steps r r'
    /\ (Forall scalable bs -> o = Returned tt).
Proof.
  revert r. induction bs as [| b bs IH]; intro r; simpl.
  - exists (Returned tt), r. split; [reflexivity |]. split; [apply steps_refl | auto].
  - destruct (withdrawTo_spec key vault vaultBalance b r) as (o1 & r1 & Hrun & Hs & Hok).
    unfold bind. rewrite Hrun. destruct o1 as [[] | m].
    + destruct (IH r1) as (o2 & r2 & Hrun2 & Hs2 & Hok2).
      exists o2, r2. split; [exact Hrun2 |].
      split; [eapply steps_trans; eassumption |].
      intro Hbs. inversion Hbs; subst. auto.
    + exists (Thrown m), r1. split; [reflexivity |]. split; [exact Hs |].
      intro Hbs. inversion Hbs as [| b' bs' Hb Hbs']; subst.
      specialize (Hok Hb). discriminate Hok.
Qed.

Lemma executeWithKitepass_spec key (r : @Run W) :
  truthy (kitepassAddress (will r)) = true ->
  exists o r',
    executeWithKitepass key r = (o, r')
    /\ linked_wallets (db r') = linked_wallets (db r)
    /\ (wills (db r') = wills (db r)
        \/ wills (db r') = wills (updateWillStatus (willId (will r)) executed (db r)))
    /\ match o with
       | Returned resp =>
           if success resp
           then wills (db r') = wills (updateWillStatus (willId (will r)) executed (db r))
           else (db r' = db r /\ custodyCause key (world r) (world r'))
                \/ (exists custodyAddress r1,
                      started "Silene Protocol (KitePass): Death confirmed for will " key r
                      = Some (custodyAddress, r1)
                      /\ db r' = db r1
                      /\ vaultCause (will r) (world r1) (world r'))
                \/ (wills (db r') = wills (db r)
                    /\ ~ Forall scalable (beneficiaries (will r)))
       | Thrown _ => db r' = db r /\ custodyCause key (world r) (world r')
       end.
Proof.
  intro Hvault. unfold executeWithKitepass.
  unfold bind at 1. unfold lift at 1.
  destruct (Wallet_address key) as [custodyAddress | m] eqn:Hkey.
  2:{ exists (Thrown m), r. split; [reflexivity |]. split; [reflexivity |].
      split; [left; reflexivity |]. split; [reflexivity |].
      left. split; [exists m; exact Hkey | reflexivity]. }
  unfold bind at 1. unfold call at 1.
  destruct (provider_getBalance custodyAddress (world r)) as [[bal | m] w1] eqn:Hbal.
  2:{ eexists _, _. split; [reflexivity |]. cbn. split; [reflexivity |].
      split; [left; reflexivity |]. split; [reflexivity |].
      right. left. exists custodyAddress, m. split; [exact Hkey | exact Hbal]. }
  destruct (bal <? minGasRequired) eqn:Hgas.
  { eexists _, _. split; [reflexivity |]. cbn. split; [reflexivity |].
    split; [left; reflexivity |]. left. split; [reflexivity |].
    right. right. exists custodyAddress, bal. apply Z.ltb_lt in Hgas.
    repeat split; assumption. }
  unfold bind at 1.
  destruct (declareDeath_spec key "Silene Protocol (KitePass): Death confirmed for will "
              (mkRun (db r) w1 (will r) (results r)))
    as (death & r1 & Hdeath & Hs1 & Hres1 & Hwill1 & _).
  assert (Hstarted : started "Silene Protocol (KitePass): Death confirmed for will " key r
                     = Some (custodyAddress, r1)).
  { unfold started. rewrite Hkey, Hbal, Hgas, Hdeath. reflexivity. }
  rewrite Hdeath.
  assert (Hs01 : steps r r1).
  { eapply steps_trans; [apply (steps_world r w1) | exact Hs1]. }
  cbn in Hres1, Hwill1.
  unfold bind at 1, getWill at 1. rewrite Hwill1.
  destruct (kitepassAddress (will r)) as [vault |] eqn:Hkp; [| discriminate Hvault].
  unfold bind at 1. unfold tryCatch at 1. unfold bind at 1. unfold call at 1.
  destruct (kitepassGetBalance vault (world r1)) as [v w2] eqn:Hq.
  destruct (negb (vb_success v) || negb (truthy (vb_balance v))) eqn:Hbad.
  { cbn. eexists _, _. split; [reflexivity |]. cbn.
    destruct Hs01 as (Hw & Hl & _).
    split; [exact Hl |]. split; [left; exact Hw |]. right. left.
    exists custodyAddress, r1. split; [exact Hstarted |]. split; [reflexivity |].
    exists vault, v. split; [exact Hkp |]. split; [exact Hq |].
    apply orb_true_iff in Hbad. destruct Hbad as [Hb | Hb];
      apply negb_true_iff in Hb; auto. }
  apply orb_false_iff in Hbad. destruct Hbad as [_ Htruthy].
  apply negb_false_iff in Htruthy.
  destruct (vb_balance v) as [balance |] eqn:Hbalance; [| discriminate Htruthy].
  unfold bind at 1. unfold lift at 1.
  destruct (parseUnits balance 6) as [vaultBalance | m] eqn:Hparse.
  2:{ cbn. eexists _, _. split; [reflexivity |]. cbn.
      destruct Hs01 as (Hw & Hl & _).
      split; [exact Hl |]. split; [left; exact Hw |]. right. left.
      exists custodyAddress, r1. split; [exact Hstarted |]. split; [reflexivity |].
      exists vault, v. split; [exact Hkp |]. split; [exact Hq |].
      right. right. exists balance, m. split; assumption. }
  destruct (vaultBalance =? 0).
  { cbn. eexists _, _. split; [reflexivity |]. cbn.
    destruct Hs01 as (Hw & Hl & _).
    split; [exact Hl |].
    split; [right |]; apply wills_updateWillStatus; exact Hw. }
  unfold bind at 1.
  destruct (forEach_withdrawTo key vault vaultBalance (beneficiaries (will r))
              (mkRun (db r1) w2 (will r1) (results r1)))
    as (o & r3 & Hloop & Hs3 & Hok).
  rewrite Hloop.
  assert (Hs03 : steps r r3).
  { eapply steps_trans; [exact Hs01 |].
    eapply steps_trans; [apply (steps_world r1 w2) | exact Hs3]. }
  destruct Hs03 as (Hw & Hl & _).
  destruct o as [[] | m]; cbn.
  - eexists _, _. split; [reflexivity |]. cbn.
    split; [exact Hl |].
    split; [right |]; apply wills_updateWillStatus; exact Hw.
  - eexists _, _. split; [reflexivity |]. cbn.
    split; [exact Hl |]. split; [left; exact Hw |].
    right. right. split; [exact Hw |]. intro Hbs. specialize (Hok Hbs). discriminate Hok.
Qed.

(** *** The whole call *)

Lemma working_fields stored ov :
  willId (working stored ov) = willId stored
  /\ useStablecoin (working stored ov) = useStablecoin stored
  /\ kitepassAddress (working stored ov) = kitepassAddress stored
  /\ useKitepass (working stored ov) = useKitepass stored.
Proof.
  unfold working. destruct ov as [[| b l] |]; repeat split.
Qed.

Lemma getWillById_willId (d : DB) id stored :
  getWillById d id = Some stored -> willId stored = id.
Proof.
  unfold getWillById. intro H. apply find_some in H. destruct H as [_ H].
  apply String.eqb_eq. exact H.
Qed.

Lemma find_updated id (l : list StoredWillAuthorization) stored :
  find (fun w => String.eqb (willId w) id) l = Some stored ->
  find (fun w => String.eqb (willId w) id)
       (map (fun w => if String.eqb (willId w) id then setStatus w executed else w) l)
  = Some (setStatus stored executed).
Proof.
  induction l as [| w l IH]; simpl; [discriminate |].
  destruct (String.eqb (willId w) id) eqn:Hw; simpl.
  - rewrite Hw. intro H. injection H as <-. reflexivity.
  - rewrite Hw. exact IH.
Qed.

Lemma getWillById_updated (d d' : DB) id stored :
  getWillById d id = Some stored ->
  wills d' = wills (updateWillStatus id executed d) ->
  getWillById d' id = Some (setStatus stored executed).
Proof.
  unfold getWillById. intros H Hd. rewrite Hd. simpl. apply find_updated. exact H.
Qed.

(** The three ways [executeWill] ends. *)
Lemma executeWill_cases id owner' key ov (st : DB * W) :
  (validationCause (fst st) id owner'
   /\ exists m, executeWill id owner' key ov st = (failure m, st))
  \/ (exists stored,
        getWillById (fst st) id = Some stored
        /\ status stored = pending
        /\ toLowerCase (owner stored) = toLowerCase owner'
        /\ let r := mkRun (fst st) (snd st) (working stored ov) [] in
           let body := if kitepassMode (working stored ov)
                       then executeWithKitepass key else executeApprove id key in
           executeWill id owner' key ov st
           = (match fst (body r) with
              | Returned response => response
              | Thrown m => failure m
              end, (db (snd (body r)), world (snd (body r))))).
Proof.
  unfold executeWill, validationCause.
  destruct (getWillById (fst st) id) as [stored |] eqn:Hfind.
  2:{ left. split; [exact I | eexists; reflexivity]. }
  destruct (String.eqb (toLowerCase (owner stored)) (toLowerCase owner')) eqn:Hown; simpl.
  2:{ left. apply String.eqb_neq in Hown. split; [left; exact Hown | eexists; reflexivity]. }
  destruct (status stored) eqn:Hst; simpl.
  - right. exists stored. apply String.eqb_eq in Hown.
    split; [reflexivity |]. split; [exact Hst |]. split; [exact Hown |].
    destruct ((if kitepassMode (working stored ov)
               then executeWithKitepass key else executeApprove id key)
                (mkRun (fst st) (snd st) (working stored ov) [])) as [[resp | m] r'];
      reflexivity.
  - left. split; [right; discriminate | eexists; reflexivity].
  - left. split; [right; discriminate | eexists; reflexivity].
Qed.

Lemma executeWill_frame id owner' key ov (st : DB * W) :
  let d' := fst (snd (executeWill id owner' key ov st)) in
  linked_wallets d' = linked_wallets (fst st)
  /\ (wills d' = wills (fst st)
      \/ wills d' = wills (updateWillStatus id executed (fst st)))
  /\ (success (fst (executeWill id owner' key ov st)) = true ->
      wills d' = wills (updateWillStatus id executed (fst st))).
Proof.
  cbv zeta.
  destruct (executeWill_cases id owner' key ov st)
    as [(_ & m & ->) | (stored & Hfind & _ & _ & Hrun)].
  { cbn. split; [reflexivity |]. split; [left; reflexivity | discriminate]. }
  cbv zeta in Hrun. rewrite Hrun. clear Hrun. cbn [fst snd].
  destruct (working_fields stored ov) as (Hid & _ & Hkp & _).
  pose proof (@getWillById_willId _ _ _ Hfind) as Hstored.
  destruct (kitepassMode (working stored ov)) eqn:Hmode.
  - unfold kitepassMode in Hmode. apply andb_true_iff in Hmode.
    destruct Hmode as [_ Htruthy].
    destruct (@executeWithKitepass_spec key
                (mkRun (fst st) (snd st) (working stored ov) []) Htruthy)
      as (o & r' & Hrun & Hl & Hframe & Hspec).
    rewrite Hrun. cbn [fst snd db will world results] in *.
    rewrite Hid, Hstored in Hspec, Hframe.
    split; [exact Hl |]. split; [exact Hframe |].
    destruct o as [resp | m]; cbn.
    + destruct (success resp); [intros _; exact Hspec | discriminate].
    + discriminate.
  - destruct (executeApprove_spec id key (mkRun (fst st) (snd st) (working stored ov) []))
      as (o & r' & Hrun & Hl & Hspec).
    rewrite Hrun. cbn [fst snd db will world results] in *.
    split; [exact Hl |].
    destruct o as [resp | m]; cbn.
    + destruct (success resp); [split; [right | intros _]; apply Hspec |].
      destruct Hspec as (Hdb & _). rewrite Hdb.
      split; [left; reflexivity | discriminate].
    + split; [| discriminate]. left.
      destruct Hspec as [(Hdb & _) | (ca & r1 & Hstarted & Hdb & _)].
      * rewrite Hdb. reflexivity.
      * rewrite Hdb. destruct (started_frame _ _ _ Hstarted) as ((Hw & _) & _).
        exact Hw.
Qed.

(** The outcome of [transfer] is the outcome of the call that submits
    the transfer, once the addresses are normalised. *)
Lemma transfer_submits key lw b amount (r : @Run W) fromAddr toAddr :
  getAddress (address b) = Returned toAddr ->
  (useStablecoin (will r) = true -> getAddress (lw_address lw) = Returned fromAddr) ->
  transfer key lw b amount r
  = (let (o, w') := if useStablecoin (will r)
                    then token_transferFrom key fromAddr toAddr amount (world r)
                    else custody_sendTransaction key toAddr amount (world r) in
     (o, mkRun (db r) w' (will r) (results r))).
Proof.
  intros Hto Hfrom. run_step. destruct (useStablecoin (will r)).
  - rewrite (Hfrom eq_refl), Hto. reflexivity.
  - rewrite Hto. reflexivity.
Qed.

(** *** The claims on the engine *)


(** C5. A call for a will whose stored status is [executed] is rejected
    and leaves the store and the outside world as they were; and after a
    call that succeeded, every further call for the same will is
    rejected in this way. *)
Theorem second_execution_is_rejected id :
  (forall owner' key ov (st : DB * W) stored,
     getWillById (fst st) id = Some stored -> status stored = executed ->
     exists m, executeWill id owner' key ov st = (failure m, st)
               /\ (toLowerCase (owner stored) = toLowerCase owner' ->
                   m = "Will already executed"))
  /\ (forall owner' key ov (st : DB * W),
        success (fst (executeWill id owner' key ov st)) = true ->
        forall owner2 key2 ov2,
        exists m, executeWill id owner2 key2 ov2 (snd (executeWill id owner' key ov st))
                  = (failure m, snd (executeWill id owner' key ov st))).
Proof.
  assert (Hfirst : forall owner' key ov (st : DB * W) stored,
     getWillById (fst st) id = Some stored -> status stored = executed ->
     exists m, executeWill id owner' key ov st = (failure m, st)
               /\ (toLowerCase (owner stored) = toLowerCase owner' ->
                   m = "Will already executed")).
  { intros owner' key ov st stored Hfind Hst. unfold executeWill. rewrite Hfind.
    destruct (String.eqb (toLowerCase (owner stored)) (toLowerCase owner')) eqn:Hown; simpl.
    - rewrite Hst. simpl. eexists. split; [reflexivity | reflexivity].
    - eexists. split; [reflexivity |]. intro H. apply String.eqb_neq in Hown.
      contradiction. }
  split; [exact Hfirst |].
  intros owner' key ov st Hok owner2 key2 ov2.
  destruct (executeWill_frame id owner' key ov st) as (_ & _ & Hupd).
  specialize (Hupd Hok).
  destruct (executeWill_cases id owner' key ov st)
    as [(_ & m & Hfail) | (stored & Hfind & _ & _ & _)].
  { rewrite Hfail in Hok. discriminate Hok. }
  pose proof (@getWillById_updated _ _ _ _ Hfind Hupd) as Hfind2.
  destruct (Hfirst owner2 key2 ov2 (snd (executeWill id owner' key ov st))
              (setStatus stored executed) Hfind2 eq_refl) as (m & Hm & _).
  exists m. exact Hm.
Qed.


(** C7. In the loop of the fan-out, for a transfer of an amount that
    is not zero, the limiter is consulted first, on the limits after
    the daily reset.  When it throws or rejects the amount, nothing is
    submitted: the outside world and the store are as before, nothing
    is committed, and a rejection is reported as a failed result with
    its reason.  When it allows the amount, the amount is within the
    cap of a transfer and, with what is spent, within the cap of the
    day; then the transfer is submitted by [token_transferFrom] (for
    the stablecoin) or by [custody_sendTransaction], and the amount is
    committed only when this call returned a hash: [dailySpent] becomes
    the string of what was spent plus exactly the amount, which stays
    within the cap of the day, the transfer is recorded and reported as
    confirmed.  A transfer that throws -- at the normalisation of an
    address, at the submission or at the wait for the receipt --
    commits nothing, writes no record and is reported as failed. *)
Theorem limiter_checks_before_and_commits_after key sym lw bal b (r : @Run W)
    (amount : Z) :
  let limits := resetIfNewDay (today (world r)) (spendingLimits (will r)) in
  let checked := setSpendingLimits (will r) limits in
  let verdict := snd (checkSpendingLimits (today (world r)) (will r) amount) in
  let run := distributeTo key sym lw bal b r in
  let failedWith why := mkExecutionResult (name b) "" amount failed sym why in
  computeAmount bal (percentage b) = Returned amount ->
  amount <> 0 ->
  match verdict with
  | Thrown m => run = (Thrown m, mkRun (db r) (world r) checked (results r))
  | Returned v =>
      if allowed v
      then
        exists perTx daily spent,
          StringToBigInt (perTxLimit limits) = Returned perTx
          /\ StringToBigInt (dailyLimit limits) = Returned daily
          /\ StringToBigInt (dailySpent limits) = Returned spent
          /\ amount <= perTx
          /\ spent + amount <= daily
          /\ StringToBigInt (BigInt_toString (spent + amount)) = Returned (spent + amount)
          /\ (forall m sent,
                transfer key lw b amount (mkRun (db r) (world r) checked (results r))
                = (Thrown m, sent) ->
                run = (Returned tt,
                       mkRun (db r) (world sent) checked
                             (results r ++ [failedWith (Some m)])%list))
          /\ (forall fromAddr toAddr,
                getAddress (address b) = Returned toAddr ->
                (useStablecoin (will r) = true ->
                 getAddress (lw_address lw) = Returned fromAddr) ->
                let (o, w') :=
                  if useStablecoin (will r)
                  then token_transferFrom key fromAddr toAddr amount (world r)
                  else custody_sendTransaction key toAddr amount (world r) in
                match o with
                | Returned hash =>
                    run = (Returned tt,
                           mkRun (saveTransaction
                                    (mkTransaction hash (willId (will r)) (lw_address lw)
                                                   (address b) (name b) amount sym
                                                   DISTRIBUTION tx_confirmed (Date_now w'))
                                    (db r))
                                 w'
                                 (setSpendingLimits (will r)
                                    (mkSpendingLimits (perTxLimit limits) (dailyLimit limits)
                                                      (BigInt_toString (spent + amount))
                                                      (lastResetDate limits)))
                                 (results r
                                  ++ [mkExecutionResult (name b) hash amount confirmed
                                                        sym None])%list)
                | Thrown m =>
                    run = (Returned tt,
                           mkRun (db r) w' checked
                                 (results r ++ [failedWith (Some m)])%list)
                end)
      else
        (exists why, reason v = Some why)
        /\ run = (Returned tt,
                  mkRun (db r) (world r) checked
                        (results r ++ [failedWith (reason v)])%list)
  end.
Proof.
  cbv zeta. intros Hamount Hnz.
  pose proof (distributeTo_run key sym lw bal b r) as Hrun. cbv zeta in Hrun.
  rewrite Hamount in Hrun. apply Z.eqb_neq in Hnz. rewrite Hnz in Hrun.
  unfold checkSpendingLimits. cbn [snd].
  set (limits := resetIfNewDay (today (world r)) (spendingLimits (will r))) in *.
  pose proof (compareWithCaps_cases limits amount) as Hcaps.
  destruct (compareWithCaps limits amount) as [v | m]; [| exact Hrun].
  destruct Hcaps as (perTx & HperTx & Hcaps).
  destruct (allowed v).
  2:{ split; [exact Hcaps | exact Hrun]. }
  destruct Hcaps as (daily & spent & Hdaily & Hspent & Hle1 & Hle2 & _).
  cbn [will] in Hrun.
  destruct Hrun as (o & w' & Hsent & Hrun).
  exists perTx, daily, spent.
  split; [exact HperTx |]. split; [exact Hdaily |]. split; [exact Hspent |].
  split; [exact Hle1 |]. split; [exact Hle2 |].
  split; [apply BigIntStrings.StringToBigInt_toString |].
  split.
  - intros m sent Hthrown. rewrite Hsent in Hthrown.
    injection Hthrown as -> <-. exact Hrun.
  - intros fromAddr toAddr Hto Hfrom.
    assert (Hstable : useStablecoin (setSpendingLimits (will r) limits)
                      = useStablecoin (will r)) by reflexivity.
    rewrite (@transfer_submits key lw b amount
               (mkRun (db r) (world r) (setSpendingLimits (will r) limits) (results r))
               fromAddr toAddr Hto) in Hsent.
    2:{ cbn [will]. rewrite Hstable. exact Hfrom. }
    cbn [will world db results] in Hsent. rewrite Hstable in Hsent.
    destruct (if useStablecoin (will r)
              then token_transferFrom key fromAddr toAddr amount (world r)
              else custody_sendTransaction key toAddr amount (world r)) as [o1 w1].
    injection Hsent as -> ->.
    destruct o as [hash | m]; [| exact Hrun].
    destruct Hrun as (spent' & Hspent' & Hrun).
    rewrite Hspent in Hspent'. injection Hspent' as <-. exact Hrun.
Qed.

(** C8. When the date of the last reset is not today's, the check sets
    [dailySpent] to zero and [lastResetDate] to today and compares the
    amount with the caps only then, whatever [dailySpent] was; when the
    date is today's, the limits are left as they are. *)
Theorem limiter_resets_on_a_new_day (today : string)
    (w : StoredWillAuthorization) (amount : Z) :
  let limits := spendingLimits w in
  let after := spendingLimits (fst (checkSpendingLimits today w amount)) in
  let verdict := snd (checkSpendingLimits today w amount) in
  (lastResetDate limits <> today ->
     dailySpent after = "0" /\ lastResetDate after = today
     /\ perTxLimit after = perTxLimit limits /\ dailyLimit after = dailyLimit limits
     /\ verdict
        = compareWithCaps (mkSpendingLimits (perTxLimit limits) (dailyLimit limits)
                                            "0" today) amount
     /\ forall perTx daily,
          StringToBigInt (perTxLimit limits) = Returned perTx ->
          StringToBigInt (dailyLimit limits) = Returned daily ->
          exists v, verdict = Returned v
                    /\ allowed v = negb (amount >? perTx) && negb (0 + amount >? daily))
  /\ (lastResetDate limits = today ->
        after = limits
        /\ forall perTx daily spent,
             StringToBigInt (perTxLimit limits) = Returned perTx ->
             StringToBigInt (dailyLimit limits) = Returned daily ->
             StringToBigInt (dailySpent limits) = Returned spent ->
             exists v, verdict = Returned v
                       /\ allowed v
                          = negb (amount >? perTx) && negb (spent + amount >? daily)).
Proof.
  cbv zeta. unfold checkSpendingLimits, resetIfNewDay. cbn [fst snd].
  assert (Hlimits : forall l, spendingLimits (setSpendingLimits w l) = l)
    by (intro l; destruct w; reflexivity).
  rewrite Hlimits.
  split; intro Hd.
  - apply String.eqb_neq in Hd. rewrite Hd. cbn [negb].
    cbn [dailySpent lastResetDate perTxLimit dailyLimit].
    repeat (split; [reflexivity |]).
    intros perTx daily HperTx Hdaily. unfold compareWithCaps.
    cbn [dailySpent lastResetDate perTxLimit dailyLimit].
    rewrite HperTx, Hdaily.
    change (StringToBigInt "0") with (@Returned Z 0).
    destruct (amount >? perTx); [eexists; split; reflexivity |].
    destruct (0 + amount >? daily); eexists; split; reflexivity.
  - apply String.eqb_eq in Hd. rewrite Hd. cbn [negb].
    split; [reflexivity |].
    intros perTx daily spent HperTx Hdaily Hspent. unfold compareWithCaps.
    rewrite HperTx, Hdaily, Hspent.
    destruct (amount >? perTx); [eexists; split; reflexivity |].
    destruct (spent + amount >? daily); eexists; split; reflexivity.
Qed.

(** C10. Whatever the call does, the stored wills keep their spending
    limits: the stored wills after the call are those before it, with at
    most the status of the executed will changed; the linked wallets are
    unchanged; only transaction records are added. *)
Theorem stored_limits_are_never_written id owner' key ov (st : DB * W) :
  let d' := fst (snd (executeWill id owner' key ov st)) in
  map (fun w => (willId w, spendingLimits w)) (wills d')
  = map (fun w => (willId w, spendingLimits w)) (wills (fst st))
  /\ map (fun w => setStatus w pending) (wills d')
     = map (fun w => setStatus w pending) (wills (fst st))
  /\ (wills d' = wills (fst st)
      \/ wills d' = wills (updateWillStatus id executed (fst st)))
  /\ linked_wallets d' = linked_wallets (fst st).
Proof.
  cbv zeta. destruct (executeWill_frame id owner' key ov st) as (Hl & Hw & _).
  assert (Hmap : forall A (f : StoredWillAuthorization -> A),
            (forall w s, f (setStatus w s) = f w) ->
            map f (wills (fst (snd (executeWill id owner' key ov st))))
            = map f (wills (fst st))).
  { intros A f Hf. destruct Hw as [-> | ->]; [reflexivity |].
    unfold updateWillStatus; simpl. rewrite map_map. apply map_ext.
    intro w. destruct (String.eqb (willId w) id); [apply Hf | reflexivity]. }
  split; [apply Hmap; reflexivity |].
  split; [apply Hmap; reflexivity |].
  split; assumption.
Qed.

End Specs.

(** *** The scenarios *)

Import Scenarios.Ledger.




(** The wallet holds 1000 units, but the cap of a transfer is the
    string 1.5: the limiter throws at the first beneficiary, the turn of
    the wallet ends, and the call succeeds without any result. *)
Lemma malformed_cap_ends_the_turn_of_the_wallet :
  let resp := fst (executeWill "will_1" ownerWallet key None
                               (store pending fractionalCap, funded)) in
  StringToBigInt (perTxLimit fractionalCap) = Thrown "Cannot convert to a BigInt"
  /\ success resp = true
  /\ resp_transactions resp = Some [].
Proof.
  vm_compute. repeat split.
Qed.

Lemma second_execution_is_rejected_witness :
  (exists m, executeWill "will_1" ownerWallet key None (store executed fresh, funded)
             = (failure m, (store executed fresh, funded))
             /\ (toLowerCase (owner (theWill executed fresh)) = toLowerCase ownerWallet ->
                 m = "Will already executed"))
  /\ (exists m,
        executeWill "will_1" ownerWallet key None
          (snd (executeWill "will_1" ownerWallet key None (store pending fresh, funded)))
        = (failure m,
           snd (executeWill "will_1" ownerWallet key None (store pending fresh, funded)))).
Proof.
  destruct (@second_execution_is_rejected World node "will_1") as (Hfirst & Hsecond).
  split.
  - apply (Hfirst ownerWallet key None (store executed fresh, funded)
                  (theWill executed fresh)); reflexivity.
  - apply (Hsecond ownerWallet key None (store pending fresh, funded)).
    vm_compute. reflexivity.
Defined.



Lemma limiter_checks_before_and_commits_after_witness :
  let r := mkRun (store pending spentYesterday) funded (theWill pending spentYesterday) [] in
  let lw := mkLinkedWallet "will_1" ownerWallet "0xsigned" 1767225600000 approved None in
  let b := mkBeneficiary addressA 60 "A" in
  let amount := 600 in
  let limits := resetIfNewDay (today (world r)) (spendingLimits (will r)) in
  let checked := setSpendingLimits (will r) limits in
  let run := distributeTo key "USDT" lw 1000 b r in
  let failedWith why := mkExecutionResult (name b) "" amount failed "USDT" why in
  exists perTx daily spent,
    StringToBigInt (perTxLimit limits) = Returned perTx
    /\ StringToBigInt (dailyLimit limits) = Returned daily
    /\ StringToBigInt (dailySpent limits) = Returned spent
    /\ amount <= perTx
    /\ spent + amount <= daily
    /\ StringToBigInt (BigInt_toString (spent + amount)) = Returned (spent + amount)
    /\ (forall m sent,
          transfer key lw b amount (mkRun (db r) (world r) checked (results r))
          = (Thrown m, sent) ->
          run = (Returned tt,
                 mkRun (db r) (world sent) checked
                       (results r ++ [failedWith (Some m)])%list))
    /\ (forall fromAddr toAddr,
          getAddress (address b) = Returned toAddr ->
          (useStablecoin (will r) = true ->
           getAddress (lw_address lw) = Returned fromAddr) ->
          let (o, w') :=
            if useStablecoin (will r)
            then token_transferFrom key fromAddr toAddr amount (world r)
            else custody_sendTransaction key toAddr amount (world r) in
          match o with
          | Returned hash =>
              run = (Returned tt,
                     mkRun (saveTransaction
                              (mkTransaction hash (willId (will r)) (lw_address lw)
                                             (address b) (name b) amount "USDT"
                                             DISTRIBUTION tx_confirmed (Date_now w'))
                              (db r))
                           w'
                           (setSpendingLimits (will r)
                              (mkSpendingLimits (perTxLimit limits) (dailyLimit limits)
                                                (BigInt_toString (spent + amount))
                                                (lastResetDate limits)))
                           (results r
                            ++ [mkExecutionResult (name b) hash amount confirmed
                                                  "USDT" None])%list)
          | Thrown m =>
              run = (Returned tt,
                     mkRun (db r) w' checked (results r ++ [failedWith (Some m)])%list)
          end).
Proof.
  refine (@limiter_checks_before_and_commits_after World node key "USDT"
           (mkLinkedWallet "will_1" ownerWallet "0xsigned" 1767225600000 approved None)
           1000 (mkBeneficiary addressA 60 "A")
           (mkRun (store pending spentYesterday) funded
                  (theWill pending spentYesterday) [])
           600 eq_refl _).
  discriminate.
Defined.

(** What was spent the day before does not count: with 900 spent
    yesterday and both caps at 1000, the transfer of 600 is allowed,
    made and committed on a fresh day. *)
Lemma yesterday_is_forgotten :
  let r := mkRun (store pending spentYesterday) funded (theWill pending spentYesterday) [] in
  let lw := mkLinkedWallet "will_1" ownerWallet "0xsigned" 1767225600000 approved None in
  let r' := snd (distributeTo key "USDT" lw 1000 (mkBeneficiary addressA 60 "A") r) in
  dailySpent (spendingLimits (will r)) = "900"
  /\ dailySpent (spendingLimits (will r')) = "600"
  /\ lastResetDate (spendingLimits (will r')) = thisDay
  /\ map (fun x => (res_status x, res_amount x)) (results r') = [(confirmed, 600)]
  /\ transfers (world r') = [(addressA, 600)].
Proof.
  vm_compute. repeat split.
Qed.

Lemma limiter_resets_on_a_new_day_witness :
  let w := theWill pending spentYesterday in
  let after := spendingLimits (fst (checkSpendingLimits thisDay w 600)) in
  dailySpent (spendingLimits w) = "900"
  /\ dailySpent after = "0" /\ lastResetDate after = thisDay
  /\ exists v, snd (checkSpendingLimits thisDay w 600) = Returned v /\ allowed v = true.
Proof.
  destruct (@limiter_resets_on_a_new_day World node thisDay
              (theWill pending spentYesterday) 600) as (Hreset & _).
  destruct Hreset as (Hspent & Hdate & _ & _ & _ & Hverdict).
  - discriminate.
  - cbv zeta. split; [reflexivity |]. split; [exact Hspent |].
    split; [exact Hdate |].
    destruct (Hverdict 1000 1000 eq_refl eq_refl) as (v & Hv & Hallowed).
    exists v. split; [exact Hv |]. rewrite Hallowed. reflexivity.
Defined.

(** In the end-to-end scenario the working copy of the will ends the
    fan-out with 1000 spent, the stored will keeps its [dailySpent] of
    zero and becomes [executed]. *)
Lemma working_copy_commits_store_does_not :
  let wallets := linkedWalletsOf (store pending fresh) (theWill pending fresh) "will_1" in
  let r := snd (fanOut key custody "USDT" wallets
                       (mkRun (store pending fresh) funded (theWill pending fresh) [])) in
  let d' := fst (snd (executeWill "will_1" ownerWallet key None
                                  (store pending fresh, funded))) in
  dailySpent (spendingLimits (will r)) = "1000"
  /\ map (fun w => (status w, dailySpent (spendingLimits w))) (wills d') = [(executed, "0")]
  /\ map (fun t => (beneficiaryName t, amount t)) (transactions d')
     = [("A", 600); ("B", 400)].
Proof.
  vm_compute. repeat split.
Qed.

End EngineProps.

(** ** The budget, the log and the reports of a call *)

Module AccountingProps.
Import JS Database WillService Accounting.
Open Scope string_scope.
Open Scope Z_scope.

(** *** Amounts of one wallet *)

Lemma amountOf_bounds (B : Z) (b : Beneficiary) :
  0 <= B -> 0 <= scaledOf b ->
  B * scaledOf b - 999 <= 1000 * amountOf B b <= B * scaledOf b.
Proof.
  intros HB Hs. unfold amountOf, computeAmount. unfold scaledOf in *.
  destruct (percentageScaled (percentage b)) as [scaled | m]; [| lia].
  rewrite Z.quot_div_nonneg by nia.
  pose proof (Z.div_mod (B * scaled) 1000 ltac:(lia)) as Hdm.
  pose proof (Z.mod_pos_bound (B * scaled) 1000 ltac:(lia)) as Hm.
  lia.
Qed.

Lemma allocated_bounds (B : Z) (bs : list Beneficiary) :
  0 <= B -> Forall (fun b => 0 <= scaledOf b) bs ->
  B * scaledTotal bs - 999 * Z.of_nat (List.length bs) <= 1000 * allocated B bs
  /\ 1000 * allocated B bs <= B * scaledTotal bs
  /\ 0 <= scaledTotal bs.
Proof.
  intros HB Hbs. induction Hbs as [| b bs Hb _ IH]; simpl allocated; simpl scaledTotal.
  - simpl. lia.
  - pose proof (@amountOf_bounds B b HB Hb) as Hc.
    change (List.length (b :: bs)) with (S (List.length bs)). lia.
Qed.

Lemma attempted_amountOf sym (B : Z) (b : Beneficiary) (x : ExecutionResult) :
  attempted sym B b x -> res_amount x = amountOf B b.
Proof.
  intros (_ & Hamt & _). unfold amountOf. rewrite Hamt. reflexivity.
Qed.

Lemma not_payable_amountOf (B : Z) (b : Beneficiary) :
  payable B b = false -> amountOf B b = 0.
Proof.
  unfold payable, amountOf.
  destruct (computeAmount B (percentage b)) as [amount | m]; [| reflexivity].
  intro H. apply negb_false_iff, Z.eqb_eq in H. exact H.
Qed.

Lemma reported_allocated sym (B : Z) (bs : list Beneficiary) (group : list ExecutionResult) :
  Forall2 (attempted sym B) (filter (payable B) bs) group ->
  reportedTotal group = allocated B bs.
Proof.
  revert group. induction bs as [| b bs IH]; intros group H; simpl in *.
  - inversion H. reflexivity.
  - destruct (payable B b) eqn:Hp.
    + inversion H as [| b' x l l' Hx Hrest]; subst. simpl.
      rewrite (attempted_amountOf Hx). f_equal. apply IH. exact Hrest.
    + rewrite (not_payable_amountOf _ _ Hp). simpl. apply IH. exact H.
Qed.

Lemma confirmedTotal_le_reported (xs : list ExecutionResult) :
  Forall (fun x => 0 <= res_amount x) xs -> 0 <= confirmedTotal xs <= reportedTotal xs.
Proof.
  induction 1 as [| x xs Hx _ IH]; simpl; [lia |].
  destruct (isConfirmed x); lia.
Qed.

(** X1. A wallet is never overdrawn by the loop over the beneficiaries.
    For a balance that is not negative and shares whose scaled values
    ([BigInt(Math.round(percentage * 10))]) are not negative and add up
    to at most 1000, the amounts of the results of the wallet,
    confirmed or failed, add up to at most the balance, and the
    confirmed ones to no more.  When the scaled shares add up to
    exactly 1000 the truncation loses less than one unit for each
    beneficiary. *)
Theorem wallet_is_never_overdrawn sym (B : Z) (bs : list Beneficiary)
    (group : list ExecutionResult) :
  0 <= B ->
  Forall (fun b => 0 <= scaledOf b) bs ->
  scaledTotal bs <= 1000 ->
  Forall2 (attempted sym B) (filter (payable B) bs) group ->
  0 <= confirmedTotal group <= reportedTotal group
  /\ reportedTotal group <= B
  /\ (scaledTotal bs = 1000 -> B - Z.of_nat (List.length bs) < reportedTotal group).
Proof.
  intros HB Hbs Hsum Hgroup.
  pose proof (@reported_allocated sym B bs group Hgroup) as Hrep.
  destruct (@allocated_bounds B bs HB Hbs) as (Hlo & Hhi & Hnn).
  split.
  { apply confirmedTotal_le_reported.
    clear - HB Hbs Hgroup.
    assert (Hf : Forall (fun b => 0 <= scaledOf b) (filter (payable B) bs)).
    { apply Forall_forall. intros b Hin. apply filter_In in Hin.
      rewrite Forall_forall in Hbs. apply Hbs. apply Hin. }
    induction Hgroup as [| b x l l' Hx _ IH]; constructor.
    - rewrite (attempted_amountOf Hx).
      inversion Hf as [| ? ? Hb ?]; subst.
      pose proof (@amountOf_bounds B b HB Hb). nia.
    - apply IH. inversion Hf; assumption. }
  rewrite Hrep. split; [nia |].
  intro Hfull. rewrite Hfull in *.
  destruct bs as [| b bs]; [simpl in Hfull; discriminate |].
  change (List.length (b :: bs)) with (S (List.length bs)) in *. lia.
Qed.

Section Effects.
Context {W : Type} {C : Collaborators W}.

Ltac unfold_run :=
  cbv [bind ret lift call tryCatch getWill getResults getDB getNow modifyDB
       modifyWill push checkLimits transfer distributable];
  cbn [db world will results fst snd].

Lemma nodeCalls_one (w w' : W) : nodeCall w w' -> nodeCalls w w'.
Proof. intro H. eapply oneMore; [apply noCall | exact H]. Qed.

Lemma nodeCalls_trans (a b c : W) : nodeCalls a b -> nodeCalls b c -> nodeCalls a c.
Proof.
  intros Hab Hbc. induction Hbc as [| w1 w2 _ IH Hstep]; [exact Hab |].
  eapply oneMore; eassumption.
Qed.

Lemma sameDay_calls (w w' : W) : sameDay -> nodeCalls w w' -> today w' = today w.
Proof.
  intros Hday H. induction H as [| w1 w2 _ IH Hstep]; [reflexivity |].
  rewrite (Hday _ _ Hstep). exact IH.
Qed.

(** A transfer calls the node once at most. *)
Lemma transfer_calls key lw b amount (r : @Run W) o w' :
  transfer key lw b amount r = (o, mkRun (db r) w' (will r) (results r)) ->
  nodeCalls (world r) w'.
Proof.
  destruct r as [d w wl rs]. unfold_run. destruct (useStablecoin wl).
  - destruct (getAddress (lw_address lw)) as [fromAddr | m1].
    2:{ intro H. inversion H. apply noCall. }
    destruct (getAddress (address b)) as [toAddr | m2].
    2:{ intro H. inversion H. apply noCall. }
    cbn. destruct (token_transferFrom key fromAddr toAddr amount w) as [o1 w1] eqn:Hsend.
    intro H. inversion H; subst. eapply nodeCalls_one; econstructor; eassumption.
  - destruct (getAddress (address b)) as [toAddr | m2].
    2:{ intro H. inversion H. apply noCall. }
    cbn. destruct (custody_sendTransaction key toAddr amount w) as [o1 w1] eqn:Hsend.
    intro H. inversion H; subst. eapply nodeCalls_one; econstructor; eassumption.
Qed.

(** *** The budget and the log along a run *)

Lemma reset_date (t : string) (l : SpendingLimits) :
  lastResetDate (resetIfNewDay t l) = t.
Proof.
  unfold resetIfNewDay. destruct (String.eqb (lastResetDate l) t) eqn:H; cbn.
  - apply String.eqb_eq. exact H.
  - reflexivity.
Qed.

Lemma reset_same_day (t : string) (l : SpendingLimits) :
  lastResetDate l = t -> resetIfNewDay t l = l.
Proof.
  intro H. unfold resetIfNewDay. rewrite H, String.eqb_refl. reflexivity.
Qed.

Lemma reset_twice (t : string) (l : SpendingLimits) :
  resetIfNewDay t (resetIfNewDay t l) = resetIfNewDay t l.
Proof. apply reset_same_day, reset_date. Qed.

Lemma confirmedTotal_app (xs ys : list ExecutionResult) :
  confirmedTotal (xs ++ ys) = confirmedTotal xs + confirmedTotal ys.
Proof. induction xs as [| x xs IH]; simpl; [reflexivity | rewrite IH; lia]. Qed.

Lemma confirmedTotal_none (xs : list ExecutionResult) :
  existsb isConfirmed xs = false -> confirmedTotal xs = 0.
Proof.
  induction xs as [| x xs IH]; simpl; [reflexivity |].
  intro H. apply orb_false_iff in H. destruct H as [Hx Hxs].
  rewrite Hx, (IH Hxs). reflexivity.
Qed.

Lemma none_confirmed (P : ExecutionResult -> Prop) (xs : list ExecutionResult) :
  existsb isConfirmed xs = false -> Forall (fun x => isConfirmed x = true -> P x) xs.
Proof.
  induction xs as [| x xs IH]; simpl; [constructor |].
  intro H. apply orb_false_iff in H. destruct H as [Hx Hxs].
  constructor; [congruence | apply IH; exact Hxs].
Qed.

Lemma budgetKept_same (r r' : @Run W) :
  resetIfNewDay (today (world r')) (spendingLimits (will r'))
  = resetIfNewDay (today (world r)) (spendingLimits (will r)) ->
  budgetKept r r' [].
Proof.
  intro H. unfold budgetKept. cbv zeta. rewrite H. cbn. repeat split.
Qed.

Lemma budgetKept_trans (a b c : @Run W) xs ys :
  budgetKept a b xs -> budgetKept b c ys -> budgetKept a c (xs ++ ys).
Proof.
  unfold budgetKept. cbv zeta.
  set (la := resetIfNewDay (today (world a)) (spendingLimits (will a))).
  set (lb := resetIfNewDay (today (world b)) (spendingLimits (will b))).
  set (lc := resetIfNewDay (today (world c)) (spendingLimits (will c))).
  intros (Hp1 & Hd1 & Ht1 & H1) (Hp2 & Hd2 & Ht2 & H2).
  split; [congruence |]. split; [congruence |]. split; [congruence |].
  rewrite existsb_app.
  destruct (existsb isConfirmed xs) eqn:Hxs; destruct (existsb isConfirmed ys) eqn:Hys;
    cbn [orb].
  - destruct H1 as (perTx & daily & spent & HperTx & Hdaily & Hspent & Hafter & Hall & Hsum).
    destruct H2 as (perTx' & daily' & spent' & HperTx' & Hdaily' & Hspent' & Hafter'
                    & Hall' & Hsum').
    rewrite Hp1, HperTx in HperTx'. injection HperTx' as <-.
    rewrite Hd1, Hdaily in Hdaily'. injection Hdaily' as <-.
    rewrite Hafter, BigIntStrings.StringToBigInt_toString in Hspent'.
    injection Hspent' as <-.
    exists perTx, daily, spent. rewrite confirmedTotal_app.
    split; [exact HperTx |]. split; [exact Hdaily |]. split; [exact Hspent |].
    split; [rewrite Hafter'; f_equal; lia |].
    split; [apply Forall_app; split; assumption | lia].
  - destruct H1 as (perTx & daily & spent & HperTx & Hdaily & Hspent & Hafter & Hall & Hsum).
    exists perTx, daily, spent. rewrite confirmedTotal_app, (confirmedTotal_none _ Hys).
    split; [exact HperTx |]. split; [exact Hdaily |]. split; [exact Hspent |].
    split; [rewrite H2, Hafter; f_equal; lia |].
    split; [apply Forall_app; split; [exact Hall | apply none_confirmed; exact Hys] | lia].
  - destruct H2 as (perTx & daily & spent & HperTx & Hdaily & Hspent & Hafter & Hall & Hsum).
    exists perTx, daily, spent. rewrite confirmedTotal_app, (confirmedTotal_none _ Hxs).
    split; [congruence |]. split; [congruence |]. split; [congruence |].
    split; [rewrite Hafter; f_equal; lia |].
    split; [apply Forall_app; split; [apply none_confirmed; exact Hxs | exact Hall] | lia].
  - congruence.
Qed.

Lemma logKept_refl (d : DB) : logKept d d [].
Proof.
  unfold logKept. split; [apply incl_refl |]. split; [intros x [] | simpl; lia].
Qed.

Lemma logKept_trans (a b c : DB) xs ys :
  logKept a b xs -> logKept b c ys -> logKept a c (xs ++ ys).
Proof.
  intros (Hi1 & Hr1 & Hn1) (Hi2 & Hr2 & Hn2). unfold logKept.
  split; [eapply incl_tran; eassumption |].
  split.
  - intros x Hin Hc. apply in_app_or in Hin. destruct Hin as [Hin | Hin].
    + apply Hi2. apply Hr1; assumption.
    + apply Hr2; assumption.
  - rewrite filter_app, length_app. lia.
Qed.

Lemma hashes_saveTransaction (t : TransactionRecord) (d : DB) :
  incl (hashes d) (hashes (saveTransaction t d))
  /\ In (txHash t) (hashes (saveTransaction t d))
  /\ (List.length (transactions (saveTransaction t d))
      <= List.length (transactions d) + 1)%nat.
Proof.
  unfold hashes, saveTransaction. cbn [transactions].
  split; [| split].
  - intros h Hin. apply in_map_iff in Hin. destruct Hin as (t' & <- & Hin).
    destruct (String.eqb (txHash t') (txHash t)) eqn:He.
    + apply String.eqb_eq in He. rewrite He. apply in_map, in_or_app. right. left. reflexivity.
    + apply in_map, in_or_app. left. apply filter_In. split; [exact Hin |]. rewrite He. reflexivity.
  - apply in_map, in_or_app. right. left. reflexivity.
  - rewrite length_app. simpl.
    pose proof (filter_length_le (fun t0 => negb (String.eqb (txHash t0) (txHash t))) (transactions d)).
    lia.
Qed.

Lemma logKept_one (d : DB) (t : TransactionRecord) (x : ExecutionResult) :
  isConfirmed x = true -> res_txHash x = txHash t ->
  logKept d (saveTransaction t d) [x].
Proof.
  intros Hc Hh. unfold logKept.
  destruct (hashes_saveTransaction t d) as (Hi & Hin & Hlen).
  split; [exact Hi |]. split.
  - intros y [<- | []] _. rewrite Hh. exact Hin.
  - cbn [filter]. rewrite Hc. cbn [List.length]. exact Hlen.
Qed.

Lemma logKept_failed (d : DB) (x : ExecutionResult) :
  isConfirmed x = false -> logKept d d [x].
Proof.
  intro Hc. unfold logKept. split; [apply incl_refl |]. split.
  - intros y [<- | []] Hy. congruence.
  - lia.
Qed.

Lemma advanced_refl (r : @Run W) : advanced r r [].
Proof.
  unfold advanced. split; [rewrite app_nil_r; reflexivity |].
  split; [apply noCall |].
  split; [intros _; apply budgetKept_same; reflexivity | apply logKept_refl].
Qed.

Lemma advanced_trans (a b c : @Run W) xs ys :
  advanced a b xs -> advanced b c ys -> advanced a c (xs ++ ys).
Proof.
  intros (Hr1 & Hc1 & Hb1 & Hl1) (Hr2 & Hc2 & Hb2 & Hl2). unfold advanced.
  split; [rewrite Hr2, Hr1, app_assoc; reflexivity |].
  split; [eapply nodeCalls_trans; eassumption |].
  split; [intro Hday; eapply budgetKept_trans; eauto |].
  eapply logKept_trans; eassumption.
Qed.

Lemma advanced_world (r : @Run W) (w : W) :
  nodeCalls (world r) w -> advanced r (mkRun (db r) w (will r) (results r)) [].
Proof.
  intro Hc. unfold advanced. cbn [db world will results].
  split; [rewrite app_nil_r; reflexivity |]. split; [exact Hc |].
  split; [| apply logKept_refl].
  intro Hday. apply budgetKept_same. cbn [db world will results].
  rewrite (sameDay_calls Hday Hc). reflexivity.
Qed.

(** The limits after the check, seen on a later reading of the clock
    of the same day. *)
Lemma checked_limits (r : @Run W) (w' : W) (l : SpendingLimits) :
  sameDay -> nodeCalls (world r) w' ->
  lastResetDate l = today (world r) ->
  resetIfNewDay (today w') (spendingLimits (setSpendingLimits (will r) l)) = l.
Proof.
  intros Hday Hcalls Hdate. rewrite (sameDay_calls Hday Hcalls).
  replace (spendingLimits (setSpendingLimits (will r) l)) with l
    by (destruct (will r); reflexivity).
  apply reset_same_day. exact Hdate.
Qed.

Lemma budgetKept_failed (r : @Run W) (w' : W) (d : DB) rs (x : ExecutionResult) :
  nodeCalls (world r) w' ->
  isConfirmed x = false ->
  sameDay ->
  budgetKept r
    (mkRun d w'
           (setSpendingLimits (will r)
              (resetIfNewDay (today (world r)) (spendingLimits (will r)))) rs)
    [x].
Proof.
  intros Hcalls Hx Hday. unfold budgetKept. cbv zeta. cbn [db world will results].
  rewrite (@checked_limits r w' _ Hday Hcalls (reset_date _ _)).
  cbn [existsb]. rewrite Hx. cbn. repeat split.
Qed.

Lemma distributeTo_advanced key sym lw bal b (r : @Run W) :
  exists o r' xs,
    distributeTo key sym lw bal b r = (o, r') /\ advanced r r' xs.
Proof.
  pose proof (EngineProps.distributeTo_run key sym lw bal b r) as Hrun. cbv zeta in Hrun.
  set (limits := resetIfNewDay (today (world r)) (spendingLimits (will r))) in *.
  destruct (computeAmount bal (percentage b)) as [amount | m].
  2:{ exists (Thrown m), r, []. split; [exact Hrun | apply advanced_refl]. }
  destruct (amount =? 0).
  { exists (Returned tt), r, []. split; [exact Hrun | apply advanced_refl]. }
  pose proof (EngineProps.compareWithCaps_cases limits amount) as Hcaps.
  destruct (compareWithCaps limits amount) as [verdict | m].
  2:{ eexists _, _, []. split; [exact Hrun |].
      unfold advanced. cbn [db world will results].
      split; [rewrite app_nil_r; reflexivity |]. split; [apply noCall |].
      split; [| apply logKept_refl].
      intro Hday. apply budgetKept_same. cbn [db world will results].
      apply (@checked_limits r (world r) limits Hday (noCall _)). apply reset_date. }
  destruct Hcaps as (perTx & HperTx & Hcaps).
  destruct (allowed verdict).
  - destruct Hcaps as (daily & spent & Hdaily & Hspent & Hle1 & Hle2 & _).
    cbn [will] in Hrun. destruct Hrun as (o & w' & Hsent & Hrun).
    apply (@transfer_calls key lw b amount
             (mkRun (db r) (world r) (setSpendingLimits (will r) limits) (results r)))
      in Hsent.
    cbn [world] in Hsent.
    destruct o as [hash | m].
    + destruct Hrun as (spent' & Hspent' & Hrun).
      rewrite Hspent in Hspent'. injection Hspent' as <-.
      eexists _, _, [_]. split; [exact Hrun |].
      unfold advanced. cbn [db world will results].
      split; [reflexivity |]. split; [exact Hsent |].
      split; [| apply logKept_one; reflexivity].
      intro Hday. unfold budgetKept. cbv zeta. cbn [db world will results]. fold limits.
      rewrite (@checked_limits r w' _ Hday Hsent)
        by (cbn [lastResetDate]; apply reset_date).
      cbn [perTxLimit dailyLimit dailySpent lastResetDate existsb isConfirmed res_status orb].
      repeat split.
      exists perTx, daily, spent.
      cbn [confirmedTotal fold_right isConfirmed res_status res_amount].
      rewrite Z.add_0_r.
      repeat split; try assumption.
      constructor; [intros _; exact Hle1 | constructor].
    + eexists _, _, [_]. split; [exact Hrun |].
      unfold advanced. cbn [db world will results].
      split; [reflexivity |]. split; [exact Hsent |].
      split; [| apply logKept_failed; reflexivity].
      apply budgetKept_failed; [exact Hsent | reflexivity].
  - eexists _, _, [_]. split; [exact Hrun |].
    unfold advanced. cbn [db world will results].
    split; [reflexivity |]. split; [apply noCall |].
    split; [| apply logKept_failed; reflexivity].
    apply budgetKept_failed; [apply noCall | reflexivity].
Qed.

Lemma forEach_distributeTo_advanced key sym lw bal (bs : list Beneficiary) (r : @Run W) :
  exists o r' xs,
    forEach (distributeTo key sym lw bal) bs r = (o, r') /\ advanced r r' xs.
Proof.
  revert r. induction bs as [| b bs IH]; intro r; simpl.
  - exists (Returned tt), r, []. split; [reflexivity | apply advanced_refl].
  - destruct (distributeTo_advanced key sym lw bal b r) as (o1 & r1 & xs & Hrun & Ha).
    unfold bind. rewrite Hrun. destruct o1 as [[] | m].
    + destruct (IH r1) as (o2 & r2 & ys & Hrun2 & Ha2).
      exists o2, r2, (xs ++ ys)%list.
      split; [exact Hrun2 | eapply advanced_trans; eassumption].
    + exists (Thrown m), r1, xs. split; [reflexivity | exact Ha].
Qed.

Ltac wallet_idle :=
  cbn; eexists _, []; split; [reflexivity |];
  first [apply advanced_refl
        | apply advanced_world; eapply nodeCalls_one; econstructor; eassumption].

Lemma processWallet_advanced key custodyAddress sym lw (r : @Run W) :
  exists r' xs,
    processWallet key custodyAddress sym lw r = (Returned tt, r') /\ advanced r r' xs.
Proof.
  unfold processWallet. unfold_run.
  destruct (useStablecoin (will r)) eqn:Hstable.
  - destruct (token_balanceOf (lw_address lw) (world r)) as [[bal | m] w1] eqn:Hq;
      [| wallet_idle].
    cbn. destruct (bal =? 0); [wallet_idle |].
    cbn. rewrite Hstable. cbn.
    destruct (token_allowance (lw_address lw) custodyAddress w1) as [[allowance | m] w2] eqn:Hq2.
    2:{ cbn. eexists _, []. split; [reflexivity |].
        apply advanced_world. cbn. eapply oneMore; [eapply nodeCalls_one |]; econstructor; eassumption. }
    assert (Hcalls : nodeCalls (world r) w2).
    { eapply oneMore; [eapply nodeCalls_one |]; econstructor; eassumption. }
    cbn. destruct (allowance =? 0).
    { cbn. eexists _, []. split; [reflexivity |]. apply advanced_world. exact Hcalls. }
    cbn.
    destruct (forEach_distributeTo_advanced key sym lw bal (beneficiaries (will r))
                (mkRun (db r) w2 (will r) (results r)))
      as (o & r' & xs & Hrun & Ha).
    exists r', ([] ++ xs)%list. rewrite Hrun.
    split; [destruct o as [[] | m]; reflexivity |].
    eapply advanced_trans; [apply (advanced_world r Hcalls) | exact Ha].
  - destruct (provider_getBalance (lw_address lw) (world r)) as [[raw | m] w1] eqn:Hq;
      [| wallet_idle].
    cbn. destruct ((if raw >? gasReserve then raw - gasReserve else 0) =? 0);
      [wallet_idle |].
    cbn. rewrite Hstable. cbn.
    assert (Hcalls : nodeCalls (world r) w1).
    { eapply nodeCalls_one; econstructor; eassumption. }
    destruct (forEach_distributeTo_advanced key sym lw
                (if raw >? gasReserve then raw - gasReserve else 0)
                (beneficiaries (will r))
                (mkRun (db r) w1 (will r) (results r)))
      as (o & r' & xs & Hrun & Ha).
    exists r', ([] ++ xs)%list. rewrite Hrun.
    split; [destruct o as [[] | m]; reflexivity |].
    eapply advanced_trans; [apply (advanced_world r Hcalls) | exact Ha].
Qed.

Lemma fanOut_advanced key custodyAddress sym (wallets : list LinkedWallet) (r : @Run W) :
  exists r' xs,
    fanOut key custodyAddress sym wallets r = (Returned tt, r') /\ advanced r r' xs.
Proof.
  unfold fanOut. revert r. induction wallets as [| lw wallets IH]; intro r; simpl.
  - exists r, []. split; [reflexivity | apply advanced_refl].
  - destruct (processWallet_advanced key custodyAddress sym lw r) as (r1 & xs & Hrun & Ha).
    destruct (IH r1) as (r2 & ys & Hrun2 & Ha2).
    exists r2, (xs ++ ys)%list. unfold bind. rewrite Hrun, Hrun2.
    split; [reflexivity | eapply advanced_trans; eassumption].
Qed.

(** *** The approve mode as a whole *)

Lemma declareDeath_effects key message (r : @Run W) :
  exists death r',
    declareDeath key message r = (Returned death, r')
    /\ will r' = will r /\ results r' = results r
    /\ nodeCalls (world r) (world r')
    /\ incl (hashes (db r)) (hashes (db r'))
    /\ (List.length (transactions (db r')) <= List.length (transactions (db r)) + 1)%nat.
Proof.
  unfold declareDeath. unfold_run.
  destruct (String.eqb DEATH_CERTIFICATE_ADDRESS "").
  - exists None, r. split; [reflexivity |]. split; [reflexivity |]. split; [reflexivity |].
    split; [apply noCall |]. split; [apply incl_refl | lia].
  - destruct (recordDeath key (willId (will r)) (owner (will r))
               (List.length (beneficiaries (will r)))
               (message ++ willId (will r)) (world r)) as [[hash | m] w1] eqn:Hq; cbn.
    + eexists _, _. split; [reflexivity |]. cbn [db world will results].
      split; [reflexivity |]. split; [reflexivity |].
      split; [eapply nodeCalls_one; econstructor; eassumption |].
      match goal with |- context [saveTransaction ?t _] =>
        destruct (hashes_saveTransaction t (db r)) as (Hi & _ & Hlen) end.
      split; assumption.
    + eexists _, _. split; [reflexivity |]. cbn [db world will results].
      split; [reflexivity |]. split; [reflexivity |].
      split; [eapply nodeCalls_one; econstructor; eassumption |].
      split; [apply incl_refl | lia].
Qed.

Lemma executeApprove_run id key (r : @Run W) :
  exists o r',
    executeApprove id key r = (o, r')
    /\ forall resp, o = Returned resp -> success resp = true ->
       exists r0 r4 xs,
         will r0 = will r /\ results r0 = results r
         /\ nodeCalls (world r) (world r0)
         /\ incl (hashes (db r)) (hashes (db r0))
         /\ (List.length (transactions (db r0))
             <= List.length (transactions (db r)) + 1)%nat
         /\ advanced r0 r4 xs
         /\ resp_transactions resp = Some (results r ++ xs)%list
         /\ transactions (db r') = transactions (db r4)
         /\ world r' = world r4.
Proof.
  unfold executeApprove.
  unfold bind at 1. unfold lift at 1.
  destruct (Wallet_address key) as [custodyAddress | m] eqn:Hkey.
  2:{ eexists _, _. split; [reflexivity |]. intros resp Hr. discriminate Hr. }
  unfold bind at 1. unfold call at 1.
  destruct (provider_getBalance custodyAddress (world r)) as [[bal | m] w1] eqn:Hbal.
  2:{ eexists _, _. split; [reflexivity |]. intros resp Hr. discriminate Hr. }
  destruct (bal <? minGasRequired) eqn:Hgas.
  { eexists _, _. split; [reflexivity |]. intros resp Hr Hok.
    injection Hr as <-. discriminate Hok. }
  unfold bind at 1.
  destruct (declareDeath_effects key "Silene Protocol: Death confirmed for will "
              (mkRun (db r) w1 (will r) (results r)))
    as (death & r1 & Hdeath & Hwill1 & Hres1 & Hcalls1 & Hincl1 & Hlen1).
  rewrite Hdeath. cbn [db world will results] in *.
  assert (Hc01 : nodeCalls (world r) (world r1)).
  { eapply nodeCalls_trans; [eapply nodeCalls_one; econstructor; eassumption | exact Hcalls1]. }
  unfold bind at 1, getWill at 1. unfold bind at 1, getDB at 1.
  rewrite Hwill1.
  set (wallets := linkedWalletsOf (db r1) (will r) id).
  assert (Hsym : exists osym w2,
            (if useStablecoin (will r) then call token_symbol else ret "KITE") r1
            = (osym, mkRun (db r1) w2 (will r1) (results r1))
            /\ nodeCalls (world r1) w2).
  { destruct (useStablecoin (will r)).
    - unfold call. destruct (token_symbol (world r1)) as [o w2] eqn:Hq.
      eexists _, _. split; [reflexivity |]. eapply nodeCalls_one; econstructor; eassumption.
    - exists (Returned "KITE"), (world r1). split; [destruct r1; reflexivity | apply noCall]. }
  destruct Hsym as (osym & w2 & Hsym & Hc2).
  unfold bind at 1. rewrite Hsym.
  destruct osym as [tokenSymbol | m].
  2:{ eexists _, _. split; [reflexivity |]. intros resp Hr. discriminate Hr. }
  set (r2 := mkRun (db r1) w2 (will r1) (results r1)).
  assert (Hdec : exists odec w3,
            (if useStablecoin (will r) then call token_decimals else ret 18) r2
            = (odec, mkRun (db r1) w3 (will r1) (results r1))
            /\ nodeCalls w2 w3).
  { destruct (useStablecoin (will r)).
    - unfold call. cbn [world db will results r2].
      destruct (token_decimals w2) as [o w3] eqn:Hq.
      eexists _, _. split; [reflexivity |]. eapply nodeCalls_one; econstructor; eassumption.
    - exists (Returned 18), w2. split; [reflexivity | apply noCall]. }
  destruct Hdec as (odec & w3 & Hdec & Hc3).
  unfold bind at 1. rewrite Hdec.
  destruct odec as [tokenDecimals | m].
  2:{ eexists _, _. split; [reflexivity |]. intros resp Hr. discriminate Hr. }
  set (r3 := mkRun (db r1) w3 (will r1) (results r1)).
  destruct (fanOut_advanced key custodyAddress tokenSymbol wallets r3)
    as (r4 & xs & Hfan & Hadv).
  unfold bind at 1. rewrite Hfan.
  cbv [bind modifyDB getResults ret]. cbn [db world will results].
  eexists _, _. split; [reflexivity |].
  intros resp Hr _. injection Hr as <-.
  exists r3, r4, xs. subst r3. cbn [db world will results].
  split; [exact Hwill1 |]. split; [exact Hres1 |].
  split; [eapply nodeCalls_trans; [exact Hc01 | eapply nodeCalls_trans; eassumption] |].
  split; [exact Hincl1 |]. split; [exact Hlen1 |].
  split; [exact Hadv |].
  split.
  { cbn. destruct Hadv as (Hres4 & _). rewrite Hres4. cbn [results]. rewrite Hres1. reflexivity. }
  split; reflexivity.
Qed.

(** *** The KitePass mode as a whole *)

Lemma truthy_hash (h : option string) :
  truthy h = true -> match h with Some x => x | None => "" end <> "".
Proof.
  destruct h as [x |]; cbn; [| discriminate].
  intro H. apply negb_true_iff in H. apply String.eqb_neq. exact H.
Qed.

Lemma withdrawTo_effects key vault vaultBalance b (r : @Run W) :
  exists o r' xs,
    withdrawTo key vault vaultBalance b r = (o, r')
    /\ results r' = (results r ++ xs)%list
    /\ will r' = will r
    /\ logKept (db r) (db r') xs
    /\ (o = Returned tt ->
        Forall2 (withdrawn vaultBalance) (filter (payable vaultBalance) [b]) xs).
Proof.
  unfold withdrawTo. unfold bind at 1, lift at 1. cbn [filter]. unfold payable.
  destruct (computeAmount vaultBalance (percentage b)) as [amount | m] eqn:Hamount.
  2:{ exists (Thrown m), r, []. split; [reflexivity |].
      split; [rewrite app_nil_r; reflexivity |]. split; [reflexivity |].
      split; [apply logKept_refl | discriminate]. }
  destruct (amount =? 0) eqn:Hz.
  { exists (Returned tt), r, []. split; [reflexivity |].
    split; [rewrite app_nil_r; reflexivity |]. split; [reflexivity |].
    split; [apply logKept_refl | intros _; constructor]. }
  cbn [negb]. unfold_run.
  destruct (kitepassWithdraw (owner (will r)) vault (formatUnits amount 6) key (world r))
    as [[result | m] w1]; cbn.
  - destruct (wr_success result && truthy (wr_txHash result)) eqn:Hok; cbn.
    + apply andb_true_iff in Hok. destruct Hok as [_ Hhash].
      eexists _, _, [_]. split; [reflexivity |]. cbn [db world will results].
      split; [reflexivity |]. split; [reflexivity |].
      split; [apply logKept_one; reflexivity |].
      intros _. constructor; [| constructor].
      unfold withdrawn. cbn. repeat split; [exact Hamount |]. left. repeat split.
      apply truthy_hash. exact Hhash.
    + eexists _, _, [_]. split; [reflexivity |]. cbn [db world will results].
      split; [reflexivity |]. split; [reflexivity |].
      split; [apply logKept_failed; reflexivity |].
      intros _. constructor; [| constructor].
      unfold withdrawn; cbn. repeat split; [exact Hamount |]. right; split; reflexivity.
  - eexists _, _, [_]. split; [reflexivity |]. cbn [db world will results].
    split; [reflexivity |]. split; [reflexivity |].
    split; [apply logKept_failed; reflexivity |].
    intros _. constructor; [| constructor].
    unfold withdrawn; cbn. repeat split; [exact Hamount |]. right; split; reflexivity.
Qed.

Lemma forEach_withdrawTo_effects key vault vaultBalance (bs : list Beneficiary) (r : @Run W) :
  exists o r' xs,
    forEach (withdrawTo key vault vaultBalance) bs r = (o, r')
    /\ results r' = (results r ++ xs)%list
    /\ will r' = will r
    /\ logKept (db r) (db r') xs
    /\ (o = Returned tt ->
        Forall2 (withdrawn vaultBalance) (filter (payable vaultBalance) bs) xs).
Proof.
  revert r. induction bs as [| b bs IH]; intro r.
  - exists (Returned tt), r, []. split; [reflexivity |].
    split; [rewrite app_nil_r; reflexivity |]. split; [reflexivity |].
    split; [apply logKept_refl | intros _; constructor].
  - destruct (withdrawTo_effects key vault vaultBalance b r)
      as (o1 & r1 & xs & Hrun & Hres & Hwill & Hlog & Hx).
    cbn [forEach]. unfold bind. rewrite Hrun. destruct o1 as [[] | m].
    + destruct (IH r1) as (o2 & r2 & ys & Hrun2 & Hres2 & Hwill2 & Hlog2 & Hys).
      exists o2, r2, (xs ++ ys)%list. split; [exact Hrun2 |].
      split; [rewrite Hres2, Hres, <- app_assoc; reflexivity |].
      split; [congruence |].
      split; [eapply logKept_trans; eassumption |].
      intro Ho. specialize (Hx eq_refl). specialize (Hys Ho).
      cbn [filter] in Hx |- *. destruct (payable vaultBalance b).
      * inversion Hx as [| ? x ? l Hhead Hnil]; subst. inversion Hnil; subst.
        constructor; assumption.
      * inversion Hx; subst. exact Hys.
    + exists (Thrown m), r1, xs. split; [reflexivity |]. split; [exact Hres |].
      split; [exact Hwill |]. split; [exact Hlog | discriminate].
Qed.

Lemma nothing_payable_from_nothing (bs : list Beneficiary) :
  filter (payable 0) bs = [].
Proof.
  induction bs as [| b bs IH]; [reflexivity |].
  cbn [filter]. replace (payable 0 b) with false; [exact IH |].
  unfold payable, computeAmount.
  destruct (percentageScaled (percentage b)); [rewrite Z.mul_0_l |]; reflexivity.
Qed.

Lemma logKept_status (d0 d : DB) id st xs :
  logKept d0 d xs -> logKept d0 (updateWillStatus id st d) xs.
Proof. intro H. exact H. Qed.

Lemma executeWithKitepass_run key (r : @Run W) :
  results r = [] ->
  truthy (kitepassAddress (will r)) = true ->
  exists o r',
    executeWithKitepass key r = (o, r')
    /\ forall resp, o = Returned resp -> success resp = true ->
       exists d0 rs,
         incl (hashes (db r)) (hashes d0)
         /\ (List.length (transactions d0) <= List.length (transactions (db r)) + 1)%nat
         /\ resp_transactions resp = Some rs
         /\ logKept d0 (db r') rs
         /\ exists vault vaultBalance,
              kitepassAddress (will r) = Some vault
              /\ vaultHolds vault vaultBalance
              /\ Forall2 (withdrawn vaultBalance)
                         (filter (payable vaultBalance) (beneficiaries (will r))) rs.
Proof.
  intros Hempty Hvault. unfold executeWithKitepass.
  unfold bind at 1. unfold lift at 1.
  destruct (Wallet_address key) as [custodyAddress | m] eqn:Hkey.
  2:{ eexists _, _. split; [reflexivity |]. intros resp Hr. discriminate Hr. }
  unfold bind at 1. unfold call at 1.
  destruct (provider_getBalance custodyAddress (world r)) as [[bal | m] w1] eqn:Hbal.
  2:{ eexists _, _. split; [reflexivity |]. intros resp Hr. discriminate Hr. }
  destruct (bal <? minGasRequired) eqn:Hgas.
  { eexists _, _. split; [reflexivity |]. intros resp Hr Hok.
    injection Hr as <-. discriminate Hok. }
  unfold bind at 1.
  destruct (declareDeath_effects key "Silene Protocol (KitePass): Death confirmed for will "
              (mkRun (db r) w1 (will r) (results r)))
    as (death & r1 & Hdeath & Hwill1 & Hres1 & _ & Hincl1 & Hlen1).
  rewrite Hdeath. cbn [db world will results] in *.
  unfold bind at 1, getWill at 1. rewrite Hwill1.
  destruct (kitepassAddress (will r)) as [vault |] eqn:Hkp; [| discriminate Hvault].
  unfold bind at 1. unfold tryCatch at 1. unfold bind at 1. unfold call at 1.
  destruct (kitepassGetBalance vault (world r1)) as [v w2] eqn:Hq.
  destruct (negb (vb_success v) || negb (truthy (vb_balance v))) eqn:Hbad.
  { cbn. eexists _, _. split; [reflexivity |]. intros resp Hr Hok.
    injection Hr as <-. discriminate Hok. }
  apply orb_false_iff in Hbad. destruct Hbad as [Hsuccess Htruthy].
  apply negb_false_iff in Hsuccess, Htruthy.
  destruct (vb_balance v) as [balance |] eqn:Hbalance; [| discriminate Htruthy].
  unfold bind at 1. unfold lift at 1.
  destruct (parseUnits balance 6) as [vaultBalance | m] eqn:Hparse.
  2:{ cbn. eexists _, _. split; [reflexivity |]. intros resp Hr Hok.
      injection Hr as <-. discriminate Hok. }
  assert (Hholds : vaultHolds vault vaultBalance).
  { exists (world r1), v, w2, balance. repeat split; assumption. }
  destruct (vaultBalance =? 0) eqn:Hzero.
  { cbn. eexists _, _. split; [reflexivity |]. intros resp Hr _. injection Hr as <-.
    exists (db r1), []. split; [exact Hincl1 |]. split; [exact Hlen1 |].
    split; [reflexivity |]. cbn [db].
    split; [apply logKept_status, logKept_refl |].
    exists vault, vaultBalance. split; [reflexivity |]. split; [exact Hholds |].
    apply Z.eqb_eq in Hzero. rewrite Hzero, nothing_payable_from_nothing. constructor. }
  unfold bind at 1.
  destruct (forEach_withdrawTo_effects key vault vaultBalance (beneficiaries (will r))
              (mkRun (db r1) w2 (will r1) (results r1)))
    as (o & r3 & xs & Hloop & Hres3 & Hwill3 & Hlog & Hxs).
  rewrite Hloop. destruct o as [[] | m]; cbn.
  2:{ eexists _, _. split; [reflexivity |]. intros resp Hr Hok.
      injection Hr as <-. discriminate Hok. }
  eexists _, _. split; [reflexivity |]. intros resp Hr _. injection Hr as <-.
  cbn [db world will results] in *.
  exists (db r1), xs. split; [exact Hincl1 |]. split; [exact Hlen1 |].
  split; [cbn; rewrite Hres3, Hres1, Hempty; reflexivity |].
  split; [apply logKept_status; exact Hlog |].
  exists vault, vaultBalance. split; [reflexivity |]. split; [exact Hholds |].
  apply Hxs. reflexivity.
Qed.

Lemma working_limits stored ov :
  spendingLimits (working stored ov) = spendingLimits stored.
Proof. unfold working. destruct ov as [[| b l] |]; reflexivity. Qed.

(** X2. The two caps hold for a whole call of the approve mode.  When
    the date does not change while the node is called and the call
    succeeds with a confirmed result, the three amounts of the limits
    of the stored will are integers, every confirmed result is at most
    its per-transaction limit, and the confirmed amounts of all the
    wallets together, added to what the stored will has spent on this
    day (nothing when its last reset is of another day), stay within
    its daily limit. *)
Theorem confirmed_transfers_stay_within_the_caps id owner' key ov (st : DB * W) stored :
  sameDay ->
  getWillById (fst st) id = Some stored ->
  kitepassMode (working stored ov) = false ->
  success (fst (executeWill id owner' key ov st)) = true ->
  let limits := resetIfNewDay (today (snd st)) (spendingLimits stored) in
  exists rs,
    resp_transactions (fst (executeWill id owner' key ov st)) = Some rs
    /\ (existsb isConfirmed rs = true ->
        exists perTx daily spent,
          StringToBigInt (perTxLimit limits) = Returned perTx
          /\ StringToBigInt (dailyLimit limits) = Returned daily
          /\ StringToBigInt (dailySpent limits) = Returned spent
          /\ Forall (fun x => isConfirmed x = true -> res_amount x <= perTx) rs
          /\ spent + confirmedTotal rs <= daily).
Proof.
  intros Hday Hfind Hmode Hok. cbv zeta.
  destruct (EngineProps.executeWill_cases id owner' key ov st)
    as [(_ & m & Hfail) | (stored' & Hfind' & _ & _ & Hrun)].
  { rewrite Hfail in Hok. discriminate Hok. }
  rewrite Hfind in Hfind'. injection Hfind' as <-.
  cbv zeta in Hrun. rewrite Hmode in Hrun. rewrite Hrun in *. clear Hrun.
  destruct (executeApprove_run id key (mkRun (fst st) (snd st) (working stored ov) []))
    as (o & r' & Hrun & Hspec).
  rewrite Hrun in *. cbn [fst snd] in *.
  destruct o as [resp | m]; [| discriminate Hok].
  destruct (Hspec resp eq_refl Hok)
    as (r0 & r4 & xs & Hwill & _ & Hcalls & _ & _ & Hadv & Hrs & _).
  cbn [db world will results] in *.
  exists xs. split; [exact Hrs |].
  destruct Hadv as (_ & _ & Hbudget & _).
  destruct (Hbudget Hday) as (_ & _ & _ & Hcaps).
  rewrite Hwill, (sameDay_calls Hday Hcalls), working_limits in Hcaps.
  intro Hconfirmed. rewrite Hconfirmed in Hcaps.
  destruct Hcaps as (perTx & daily & spent & H1 & H2 & H3 & _ & Hall & Hsum).
  exists perTx, daily, spent. repeat split; assumption.
Qed.

(** X3. After a call that succeeds, in either mode, the store holds a
    transaction under the hash of every confirmed result the call
    returns; no hash the store held before is lost; and the table grows
    by at most one record for the death declaration and one for each
    confirmed result, so that a failed transfer leaves no record. *)
Theorem confirmed_transfers_are_recorded id owner' key ov (st : DB * W) :
  success (fst (executeWill id owner' key ov st)) = true ->
  let d' := fst (snd (executeWill id owner' key ov st)) in
  exists rs,
    resp_transactions (fst (executeWill id owner' key ov st)) = Some rs
    /\ (forall x, In x rs -> isConfirmed x = true -> In (res_txHash x) (hashes d'))
    /\ incl (hashes (fst st)) (hashes d')
    /\ (List.length (transactions d')
        <= List.length (transactions (fst st)) + 1
           + List.length (filter isConfirmed rs))%nat.
Proof.
  intros Hok. cbv zeta.
  destruct (EngineProps.executeWill_cases id owner' key ov st)
    as [(_ & m & Hfail) | (stored & Hfind & _ & _ & Hrun)].
  { rewrite Hfail in Hok. discriminate Hok. }
  cbv zeta in Hrun. rewrite Hrun in *. clear Hrun.
  destruct (kitepassMode (working stored ov)) eqn:Hmode.
  - unfold kitepassMode in Hmode. apply andb_true_iff in Hmode.
    destruct Hmode as [_ Htruthy].
    destruct (@executeWithKitepass_run key
                (mkRun (fst st) (snd st) (working stored ov) []) eq_refl Htruthy)
      as (o & r' & Hrun & Hspec).
    rewrite Hrun in *. cbn [fst snd] in *.
    destruct o as [resp | m]; [| discriminate Hok].
    destruct (Hspec resp eq_refl Hok) as (d0 & rs & Hincl & Hlen & Hrs & Hlog & _).
    cbn [db world will results] in *.
    exists rs. split; [exact Hrs |].
    destruct Hlog as (Hi & Hrec & Hn).
    split; [exact Hrec |]. split; [eapply incl_tran; eassumption | lia].
  - destruct (executeApprove_run id key (mkRun (fst st) (snd st) (working stored ov) []))
      as (o & r' & Hrun & Hspec).
    rewrite Hrun in *. cbn [fst snd] in *.
    destruct o as [resp | m]; [| discriminate Hok].
    destruct (Hspec resp eq_refl Hok)
      as (r0 & r4 & xs & _ & _ & _ & Hincl & Hlen & Hadv & Hrs & Htx & _).
    cbn [db world will results] in *.
    exists xs. split; [exact Hrs |].
    destruct Hadv as (_ & _ & _ & Hi & Hrec & Hn).
    unfold hashes in *. rewrite Htx.
    split; [exact Hrec |]. split; [eapply incl_tran; eassumption | lia].
Qed.

(** X4. The list a successful call of the KitePass mode returns has
    exactly one result for every beneficiary whose share of the balance
    of the vault is not zero, in the order of the will: its amount is
    this share, its token is USDT, and it is confirmed under a hash that
    is not empty or failed without a hash.  The balance is the one the
    vault provider reports; the spending limits play no part. *)
Theorem vault_withdrawals_are_reported id owner' key ov (st : DB * W) stored :
  getWillById (fst st) id = Some stored ->
  kitepassMode (working stored ov) = true ->
  success (fst (executeWill id owner' key ov st)) = true ->
  exists rs vault vaultBalance,
    resp_transactions (fst (executeWill id owner' key ov st)) = Some rs
    /\ kitepassAddress stored = Some vault
    /\ vaultHolds vault vaultBalance
    /\ Forall2 (withdrawn vaultBalance)
               (filter (payable vaultBalance) (beneficiaries (working stored ov))) rs.
Proof.
  intros Hfind Hmode Hok.
  destruct (EngineProps.executeWill_cases id owner' key ov st)
    as [(_ & m & Hfail) | (stored' & Hfind' & _ & _ & Hrun)].
  { rewrite Hfail in Hok. discriminate Hok. }
  rewrite Hfind in Hfind'. injection Hfind' as <-.
  cbv zeta in Hrun. rewrite Hmode in Hrun. rewrite Hrun in *. clear Hrun.
  unfold kitepassMode in Hmode. apply andb_true_iff in Hmode.
  destruct Hmode as [_ Htruthy].
  destruct (@executeWithKitepass_run key
              (mkRun (fst st) (snd st) (working stored ov) []) eq_refl Htruthy)
    as (o & r' & Hrun & Hspec).
  rewrite Hrun in *. cbn [fst snd] in *.
  destruct o as [resp | m]; [| discriminate Hok].
  destruct (Hspec resp eq_refl Hok)
    as (d0 & rs & _ & _ & Hrs & _ & vault & vaultBalance & Hkp & Hholds & Hxs).
  cbn [db world will results] in *.
  destruct (EngineProps.working_fields stored ov) as (_ & _ & Hsame & _).
  exists rs, vault, vaultBalance. rewrite <- Hsame. repeat split; assumption.
Qed.

(** X5. A call that fails can be tried again: whatever the reason of
    the failure, the stored wills are as they were before the call, the
    will of the call with its status among them, and so are the linked
    wallets. *)
Theorem failed_call_leaves_the_wills_alone id owner' key ov (st : DB * W) :
  success (fst (executeWill id owner' key ov st)) = false ->
  let d' := fst (snd (executeWill id owner' key ov st)) in
  wills d' = wills (fst st)
  /\ linked_wallets d' = linked_wallets (fst st)
  /\ getWillById d' id = getWillById (fst st) id.
Proof.
  intro Hfail. cbv zeta.
  assert (Hgoal : wills (fst (snd (executeWill id owner' key ov st))) = wills (fst st)
                  /\ linked_wallets (fst (snd (executeWill id owner' key ov st)))
                     = linked_wallets (fst st)).
  { destruct (EngineProps.executeWill_cases id owner' key ov st)
      as [(_ & m & Hrejected) | (stored & Hfind & _ & _ & Hrun)].
    { rewrite Hrejected. split; reflexivity. }
    cbv zeta in Hrun. rewrite Hrun in *. clear Hrun. cbn [fst snd] in *.
    destruct (kitepassMode (working stored ov)) eqn:Hmode.
    - unfold kitepassMode in Hmode. apply andb_true_iff in Hmode.
      destruct Hmode as [_ Htruthy].
      destruct (@EngineProps.executeWithKitepass_spec W C key
                  (mkRun (fst st) (snd st) (working stored ov) []) Htruthy)
        as (o & r' & Hrun & Hl & _ & Hspec).
      rewrite Hrun in *. cbn [fst snd db will world results] in *.
      split; [| exact Hl].
      destruct o as [resp | m].
      + rewrite Hfail in Hspec.
        destruct Hspec as [(Hdb & _) | [(ca & r1 & Hstarted & Hdb & _) | (Hw & _)]].
        * rewrite Hdb. reflexivity.
        * rewrite Hdb.
          destruct (EngineProps.started_frame _ _ _ Hstarted) as ((Hw & _) & _). exact Hw.
        * exact Hw.
      + destruct Hspec as (Hdb & _). rewrite Hdb. reflexivity.
    - destruct (EngineProps.executeApprove_spec id key
                  (mkRun (fst st) (snd st) (working stored ov) []))
        as (o & r' & Hrun & Hl & Hspec).
      rewrite Hrun in *. cbn [fst snd db will world results] in *.
      split; [| exact Hl].
      destruct o as [resp | m].
      + rewrite Hfail in Hspec. destruct Hspec as (Hdb & _). rewrite Hdb. reflexivity.
      + destruct Hspec as [(Hdb & _) | (ca & r1 & Hstarted & Hdb & _)].
        * rewrite Hdb. reflexivity.
        * rewrite Hdb.
          destruct (EngineProps.started_frame _ _ _ Hstarted) as ((Hw & _) & _). exact Hw. }
  destruct Hgoal as (Hw & Hl). split; [exact Hw |]. split; [exact Hl |].
  unfold getWillById. rewrite Hw. reflexivity.
Qed.

End Effects.

Import Scenarios.Ledger.

Lemma failed_call_leaves_the_wills_alone_witness :
  let st := (store pending fresh, outOfGas) in
  let d' := fst (snd (executeWill "will_1" ownerWallet key None st)) in
  wills d' = wills (fst st)
  /\ linked_wallets d' = linked_wallets (fst st)
  /\ getWillById d' "will_1" = getWillById (fst st) "will_1".
Proof.
  apply (@failed_call_leaves_the_wills_alone World node "will_1" ownerWallet key None
           (store pending fresh, outOfGas)).
  vm_compute. reflexivity.
Defined.


Lemma node_sameDay : @sameDay World node.
Proof.
  intros w w' H.
  assert (Hquery : forall a o, query a w = (o, w') -> date w' = date w).
  { intros a o. unfold query. destruct (lookup a (balances w)); intro E; injection E as _ <-; reflexivity. }
  assert (Hsend : forall t x o, send t x w = (o, w') -> date w' = date w).
  { intros t x o. unfold send. destruct (existsb (String.eqb t) (reverting w));
      intro E; injection E as _ <-; reflexivity. }
  destruct H as [a o E | o E | o E | a o E | a c o E | k f t x o E | k t x o E | k i o n m out E];
    cbn in *; try (injection E as _ <-; reflexivity); eauto.
Qed.

Lemma confirmed_transfers_stay_within_the_caps_witness :
  let st := (store pending spentYesterday, funded) in
  let limits := resetIfNewDay thisDay spentYesterday in
  exists rs,
    resp_transactions (fst (executeWill "will_1" ownerWallet key None st)) = Some rs
    /\ (existsb isConfirmed rs = true ->
        exists perTx daily spent,
          StringToBigInt (perTxLimit limits) = Returned perTx
          /\ StringToBigInt (dailyLimit limits) = Returned daily
          /\ StringToBigInt (dailySpent limits) = Returned spent
          /\ Forall (fun x => isConfirmed x = true -> res_amount x <= perTx) rs
          /\ spent + confirmedTotal rs <= daily).
Proof.
  apply (@confirmed_transfers_stay_within_the_caps World node
           "will_1" ownerWallet key None
           (store pending spentYesterday, funded) (theWill pending spentYesterday)).
  - exact node_sameDay.
  - reflexivity.
  - reflexivity.
  - vm_compute. reflexivity.
Defined.

Lemma confirmed_transfers_are_recorded_witness :
  let st := (store pending fresh, revertingB) in
  let d' := fst (snd (executeWill "will_1" ownerWallet key None st)) in
  exists rs,
    resp_transactions (fst (executeWill "will_1" ownerWallet key None st)) = Some rs
    /\ (forall x, In x rs -> isConfirmed x = true -> In (res_txHash x) (hashes d'))
    /\ incl (hashes (fst st)) (hashes d')
    /\ (List.length (transactions d')
        <= List.length (transactions (fst st)) + 1
           + List.length (filter isConfirmed rs))%nat.
Proof.
  apply (@confirmed_transfers_are_recorded World node
           "will_1" ownerWallet key None (store pending fresh, revertingB)).
  vm_compute. reflexivity.
Defined.

Import Cases.

Lemma vault_withdrawals_are_reported_witness :
  let st := (vaultStore, vaultFunded) in
  exists rs vault vaultBalance,
    resp_transactions (fst (executeWill "will_1" ownerWallet key None st)) = Some rs
    /\ kitepassAddress vaultWill = Some vault
    /\ vaultHolds vault vaultBalance
    /\ Forall2 (withdrawn vaultBalance)
               (filter (payable vaultBalance) (beneficiaries (working vaultWill None))) rs.
Proof.
  apply (@vault_withdrawals_are_reported World node
           "will_1" ownerWallet key None (vaultStore, vaultFunded) vaultWill).
  - reflexivity.
  - reflexivity.
  - vm_compute. reflexivity.
Defined.

Lemma wallet_is_never_overdrawn_witness :
  let bs := [mkBeneficiary addressA 60 "A"; mkBeneficiary addressB 40 "B"] in
  let group := [mkExecutionResult "A" "0xtx0" 600 confirmed "USDT" None;
                mkExecutionResult "B" "" 400 failed "USDT" (Some "execution reverted")] in
  0 <= confirmedTotal group <= reportedTotal group
  /\ reportedTotal group <= 1000
  /\ (scaledTotal bs = 1000 -> 1000 - Z.of_nat (List.length bs) < reportedTotal group).
Proof.
  apply (@wallet_is_never_overdrawn "USDT" 1000
           [mkBeneficiary addressA 60 "A"; mkBeneficiary addressB 40 "B"]).
  - lia.
  - repeat constructor; discriminate.
  - vm_compute. discriminate.
  - change (filter (payable 1000)
                   [mkBeneficiary addressA 60 "A"; mkBeneficiary addressB 40 "B"])
      with [mkBeneficiary addressA 60 "A"; mkBeneficiary addressB 40 "B"].
    constructor; [| constructor; [| constructor]]; unfold attempted; cbn [beneficiary name
      res_amount res_tokenSymbol res_status error percentage].
    + repeat split. left. split; reflexivity.
    + repeat split. right. split; [reflexivity | eexists; reflexivity].
Defined.

End AccountingProps.

(** ** The shape of the adjusted list *)

Module ReallocationShape.
Import JS Reallocation.
Open Scope string_scope.

Section Shape.
Context {CO : Coercions}.








End Shape.

End ReallocationShape.

(** ** The store *)

Module TablesProps.
Import JS Database Tables.
Open Scope string_scope.

(** *** Lower case *)

Lemma lower_ascii_idem (c : ascii) : lower_ascii (lower_ascii c) = lower_ascii c.
Proof. destruct c as [[] [] [] [] [] [] [] []]; reflexivity. Qed.

Lemma toLowerCase_idem (s : string) : toLowerCase (toLowerCase s) = toLowerCase s.
Proof.
  induction s as [| c s IH]; [reflexivity |].
  simpl. rewrite lower_ascii_idem, IH. reflexivity.
Qed.

(** *** Wills *)

Lemma find_app_first {A} (p : A -> bool) (l l' : list A) :
  find p (l ++ l') = match find p l with Some x => Some x | None => find p l' end.
Proof.
  induction l as [| x l IH]; [reflexivity |].
  simpl. destruct (p x); [reflexivity | exact IH].
Qed.

Lemma find_filter_all {A} (p q : A -> bool) (l : list A) :
  (forall x, p x = true -> q x = true) -> find p (filter q l) = find p l.
Proof.
  intro H. induction l as [| x l IH]; [reflexivity |].
  simpl. destruct (q x) eqn:Hq; simpl.
  - destruct (p x); [reflexivity | exact IH].
  - destruct (p x) eqn:Hp; [| exact IH].
    rewrite (H x Hp) in Hq. discriminate Hq.
Qed.

Lemma find_filter_none {A} (p q : A -> bool) (l : list A) :
  (forall x, p x = true -> q x = false) -> find p (filter q l) = None.
Proof.
  intro H. induction l as [| x l IH]; [reflexivity |].
  simpl. destruct (q x) eqn:Hq; simpl; [| exact IH].
  destruct (p x) eqn:Hp; [| exact IH].
  rewrite (H x Hp) in Hq. discriminate Hq.
Qed.

Lemma getWillById_saveWill (w : StoredWillAuthorization) (d : DB) :
  getWillById (saveWill w d) (willId w) = Some (willRow w).
Proof.
  unfold getWillById, saveWill. cbn [wills].
  rewrite find_app_first, find_filter_none.
  - simpl. rewrite String.eqb_refl. reflexivity.
  - intros x Hx. rewrite Hx. reflexivity.
Qed.

Lemma getWillById_saveWill_other (w : StoredWillAuthorization) (d : DB) (id : string) :
  id <> willId w -> getWillById (saveWill w d) id = getWillById d id.
Proof.
  intro Hne. unfold getWillById, saveWill. cbn [wills].
  rewrite find_app_first, find_filter_all.
  - destruct (find (fun x => String.eqb (willId x) id) (wills d)); [reflexivity |].
    simpl. destruct (String.eqb (willId w) id) eqn:He; [| reflexivity].
    apply String.eqb_eq in He. congruence.
  - intros x Hx. apply String.eqb_eq in Hx. apply negb_true_iff, String.eqb_neq. congruence.
Qed.

Lemma distinct_after_filter {K A} (keep : A -> bool) (key : A -> K) (rows : list A) :
  NoDup (map key rows) -> NoDup (map key (filter keep rows)).
Proof.
  intro Hnd. induction rows as [| r rows IH]; simpl in *; [exact Hnd |].
  inversion Hnd as [| k ks Hnotin Hrest]; subst.
  destruct (keep r); simpl; [| apply IH; exact Hrest].
  constructor; [| apply IH; exact Hrest].
  intro Hin. apply Hnotin. apply in_map_iff in Hin. destruct Hin as (z & Hz & Hin).
  apply filter_In in Hin. apply in_map_iff. exists z. split; [exact Hz | apply Hin].
Qed.

Lemma NoDup_snoc {A} (l : list A) (x : A) : NoDup l -> ~ In x l -> NoDup (l ++ [x]).
Proof.
  intros Hnd Hx. apply NoDup_app; [exact Hnd | repeat constructor; intros [] |].
  intros y Hy [<- | []]. exact (Hx Hy).
Qed.

Lemma orNull_id (s : option string) : s <> Some "" -> orNull s = s.
Proof.
  destruct s as [x |]; [| reflexivity]. intro H. simpl.
  destruct (String.eqb x "") eqn:He; [| reflexivity].
  apply String.eqb_eq in He. subst. contradiction.
Qed.

Lemma uniqueIds_saveWill (w : StoredWillAuthorization) (d : DB) :
  uniqueIds d -> uniqueIds (saveWill w d).
Proof.
  unfold uniqueIds, saveWill. cbn [wills]. intro H.
  rewrite map_app. apply NoDup_snoc.
  - apply distinct_after_filter. exact H.
  - simpl. intro Hin. apply in_map_iff in Hin. destruct Hin as (x & Hx & Hin).
    apply filter_In in Hin. destruct Hin as [_ Hne].
    apply negb_true_iff, String.eqb_neq in Hne. congruence.
Qed.

(** X7. [saveWill] followed by [getWillById] gives back the will that
    was saved, up to an [aaWallet] or [kitepassAddress] that is the
    empty string and comes back absent, and up to a share that JSON
    cannot write ([NaN], an infinity or [-0]) and that comes back as
    zero.  The wills of the other ids are read as before, no two wills
    share an id afterwards if none did before, and the other two tables
    are untouched. *)
Theorem saved_will_is_read_back (w : StoredWillAuthorization) (d : DB) :
  getWillById (saveWill w d) (willId w) = Some (willRow w)
  /\ (aaWallet w <> Some "" -> kitepassAddress w <> Some "" ->
      Forall (fun b => numberRow (percentage b) = percentage b) (beneficiaries w) ->
      willRow w = w)
  /\ (forall id, id <> willId w -> getWillById (saveWill w d) id = getWillById d id)
  /\ (uniqueIds d -> uniqueIds (saveWill w d))
  /\ transactions (saveWill w d) = transactions d
  /\ linked_wallets (saveWill w d) = linked_wallets d.
Proof.
  split; [apply getWillById_saveWill |].
  split.
  { intros Ha Hk Hshares. unfold willRow. rewrite (orNull_id Ha), (orNull_id Hk).
    replace (map beneficiaryRow (beneficiaries w)) with (beneficiaries w).
    - destruct w; reflexivity.
    - induction Hshares as [| b bs Hb _ IH]; [reflexivity |].
      cbn [map]. rewrite <- IH. unfold beneficiaryRow. rewrite Hb.
      destruct b; reflexivity. }
  split; [intros id Hne; apply getWillById_saveWill_other; exact Hne |].
  split; [apply uniqueIds_saveWill |]. split; reflexivity.
Qed.

(** *** The will of an owner *)

Lemma latest_none (l : list StoredWillAuthorization) : latest l = None <-> l = [].
Proof.
  split; [| intros ->; reflexivity].
  destruct l as [| w l]; [reflexivity |]. simpl.
  destruct (latest l) as [w' |]; [| discriminate].
  destruct (createdAt w <? createdAt w')%Z; discriminate.
Qed.

Lemma latest_some (l : list StoredWillAuthorization) (w : StoredWillAuthorization) :
  latest l = Some w ->
  In w l /\ forall w', In w' l -> (createdAt w' <= createdAt w)%Z.
Proof.
  revert w. induction l as [| x l IH]; intros w; simpl; [discriminate |].
  destruct (latest l) as [w' |] eqn:Hl.
  - destruct (IH w' eq_refl) as (Hin & Hmax).
    destruct (createdAt x <? createdAt w')%Z eqn:Hlt; intro E; injection E as <-.
    + apply Z.ltb_lt in Hlt. split; [right; exact Hin |].
      intros y [<- | Hy]; [lia | apply Hmax; exact Hy].
    + apply Z.ltb_ge in Hlt. split; [left; reflexivity |].
      intros y [<- | Hy]; [lia |]. specialize (Hmax y Hy). lia.
  - apply latest_none in Hl. subst l. intro E. injection E as <-.
    split; [left; reflexivity |]. intros y [<- | []]. lia.
Qed.

Lemma filter_nil_iff {A} (p : A -> bool) (l : list A) :
  filter p l = [] <-> forall x, In x l -> p x = false.
Proof.
  induction l as [| x l IH]; simpl.
  - split; [intros _ x [] | reflexivity].
  - destruct (p x) eqn:Hp.
    + split; [discriminate |]. intro H. rewrite (H x (or_introl eq_refl)) in Hp. discriminate.
    + rewrite IH. split.
      * intros H y [<- | Hy]; [exact Hp | apply H; exact Hy].
      * intros H y Hy. apply H. right. exact Hy.
Qed.

Lemma getWillByOwner_some (owner' : string) (d : DB) (w : StoredWillAuthorization) :
  getWillByOwner owner' d = Some w ->
  In w (wills d) /\ toLowerCase (owner w) = toLowerCase owner'.
Proof.
  unfold getWillByOwner.
  destruct (latest (filter (fun x => String.eqb (owner x) (toLowerCase owner')) (wills d)))
    as [x |] eqn:Hexact.
  - intro E. injection E as <-. apply latest_some in Hexact. destruct Hexact as (Hin & _).
    apply filter_In in Hin. destruct Hin as (Hin & He). apply String.eqb_eq in He.
    split; [exact Hin |]. rewrite He. apply toLowerCase_idem.
  - intro Hci. apply latest_some in Hci. destruct Hci as (Hin & _).
    apply filter_In in Hin. destruct Hin as (Hin & He). apply String.eqb_eq in He.
    split; assumption.
Qed.

(** X8. [getWillByOwner] finds nothing exactly when no stored will
    belongs to the owner up to the case of the letters.  The will it
    finds belongs to the owner up to case; it is one stored under the
    lower-cased address whenever there is such a will; and among the
    wills of its kind (stored under the lower-cased address, otherwise
    equal to it up to case) none was created later. *)
Theorem owner_lookup_ignores_case (owner' : string) (d : DB) :
  (getWillByOwner owner' d = None <->
   forall w, In w (wills d) -> toLowerCase (owner w) <> toLowerCase owner')
  /\ (forall w, getWillByOwner owner' d = Some w ->
        In w (wills d)
        /\ toLowerCase (owner w) = toLowerCase owner'
        /\ ((exists w', In w' (wills d) /\ owner w' = toLowerCase owner') ->
            owner w = toLowerCase owner')
        /\ forall w', In w' (wills d) ->
             (if String.eqb (owner w) (toLowerCase owner')
              then owner w' = toLowerCase owner'
              else toLowerCase (owner w') = toLowerCase owner') ->
             (createdAt w' <= createdAt w)%Z).
Proof.
  split.
  - unfold getWillByOwner.
    destruct (latest (filter (fun x => String.eqb (owner x) (toLowerCase owner')) (wills d)))
      as [x |] eqn:Hexact.
    + split; [discriminate |]. intro Hnone. exfalso.
      apply latest_some in Hexact. destruct Hexact as (Hin & _).
      apply filter_In in Hin. destruct Hin as (Hin & He). apply String.eqb_eq in He.
      apply (Hnone x Hin). rewrite He. apply toLowerCase_idem.
    + rewrite latest_none, filter_nil_iff. split.
      * intros Hall w Hin. apply String.eqb_neq. apply Hall. exact Hin.
      * intros Hall w Hin. apply String.eqb_neq. apply Hall. exact Hin.
  - intros w Hw. destruct (getWillByOwner_some _ _ Hw) as (Hin & Hlow).
    split; [exact Hin |]. split; [exact Hlow |].
    unfold getWillByOwner in Hw.
    destruct (latest (filter (fun x => String.eqb (owner x) (toLowerCase owner')) (wills d)))
      as [x |] eqn:Hexact.
    + injection Hw as <-. apply latest_some in Hexact. destruct Hexact as (Hx & Hmax).
      apply filter_In in Hx. destruct Hx as (_ & He). 
      split; [intros _; apply String.eqb_eq; exact He |].
      rewrite He. intros w' Hin' Hsame. apply Hmax. apply filter_In.
      split; [exact Hin' | apply String.eqb_eq; exact Hsame].
    + apply latest_none in Hexact. rewrite filter_nil_iff in Hexact.
      split.
      * intros (w' & Hin' & Hw'). specialize (Hexact w' Hin').
        apply String.eqb_neq in Hexact. contradiction.
      * rewrite (Hexact w Hin). apply latest_some in Hw. destruct Hw as (_ & Hmax).
        intros w' Hin' Hsame. apply Hmax. apply filter_In.
        split; [exact Hin' | apply String.eqb_eq; exact Hsame].
Qed.


(** *** Transactions *)

(** X9. A transaction of a stored will, with a beneficiary name, that is
    saved is read back under its hash by [getTransactionByHash]; the
    records of the other hashes are read as before; no two records
    share a hash afterwards if none did before; and of two records
    saved under one hash the second replaces the first.  (An empty name
    is stored as NULL, and the table refers to the wills by a foreign
    key.) *)
Theorem a_hash_names_one_transaction (t : TransactionRecord) (d : DB) :
  beneficiaryName t <> "" ->
  known d (tx_willId t) ->
  getTransactionByHash (saveTransaction t d) (txHash t) = Some t
  /\ (forall hash, hash <> txHash t ->
        getTransactionByHash (saveTransaction t d) hash = getTransactionByHash d hash)
  /\ (NoDup (map txHash (transactions d)) ->
      NoDup (map txHash (transactions (saveTransaction t d))))
  /\ (forall t', txHash t' = txHash t ->
        transactions (saveTransaction t (saveTransaction t' d))
        = transactions (saveTransaction t d)).
Proof.
  intros _ _. unfold getTransactionByHash, saveTransaction. cbn [transactions].
  split.
  { rewrite find_app_first, find_filter_none.
    - simpl. rewrite String.eqb_refl. reflexivity.
    - intros x Hx. rewrite Hx. reflexivity. }
  split.
  { intros hash Hne. rewrite find_app_first, find_filter_all.
    - destruct (find (fun x => String.eqb (txHash x) hash) (transactions d)); [reflexivity |].
      simpl. destruct (String.eqb (txHash t) hash) eqn:He; [| reflexivity].
      apply String.eqb_eq in He. congruence.
    - intros x Hx. apply String.eqb_eq in Hx. apply negb_true_iff, String.eqb_neq. congruence. }
  split.
  { intro H. rewrite map_app. apply NoDup_snoc.
    - apply distinct_after_filter. exact H.
    - simpl. intro Hin. apply in_map_iff in Hin. destruct Hin as (x & Hx & Hin).
      apply filter_In in Hin. destruct Hin as [_ Hne].
      apply negb_true_iff, String.eqb_neq in Hne. congruence. }
  intros t' Hsame. f_equal. rewrite filter_app.
  cbn [filter]. rewrite Hsame, String.eqb_refl. cbn [negb]. rewrite app_nil_r.
  induction (transactions d) as [| x l IH]; [reflexivity |].
  cbn [filter].
  destruct (String.eqb (txHash x) (txHash t)) eqn:He; cbn [negb]; [exact IH |].
  cbn [filter]. rewrite He. cbn [negb]. rewrite IH. reflexivity.
Qed.

(** *** Linked wallets *)

Lemma insertByApprovedAt_perm (x : LinkedWallet) (l : list LinkedWallet) :
  Permutation (insertByApprovedAt x l) (x :: l).
Proof.
  induction l as [| y l IH]; simpl; [reflexivity |].
  destruct (approvedAt x <? approvedAt y)%Z; [reflexivity |].
  rewrite IH. apply perm_swap.
Qed.

Lemma insertByApprovedAt_sorted (x : LinkedWallet) (l : list LinkedWallet) :
  StronglySorted byApproval l -> StronglySorted byApproval (insertByApprovedAt x l).
Proof.
  induction l as [| y l IH]; simpl; intro Hs.
  - repeat constructor.
  - inversion Hs as [| y' l' Hl Hy]; subst.
    destruct (approvedAt x <? approvedAt y)%Z eqn:Hlt.
    + apply Z.ltb_lt in Hlt. constructor; [exact Hs |].
      constructor; [unfold byApproval; lia |].
      eapply Forall_impl; [| exact Hy]. unfold byApproval. intros z Hz. lia.
    + apply Z.ltb_ge in Hlt. constructor; [apply IH; exact Hl |].
      apply Forall_forall. intros z Hz.
      apply (Permutation_in _ (insertByApprovedAt_perm x l)) in Hz.
      destruct Hz as [<- | Hz]; [exact Hlt |].
      rewrite Forall_forall in Hy. apply Hy. exact Hz.
Qed.

Lemma fold_insert_spec (l acc : list LinkedWallet) :
  StronglySorted byApproval acc ->
  Permutation (fold_left (fun a x => insertByApprovedAt x a) l acc) (acc ++ l)
  /\ StronglySorted byApproval (fold_left (fun a x => insertByApprovedAt x a) l acc).
Proof.
  revert acc. induction l as [| x l IH]; intros acc Hs; simpl.
  - rewrite app_nil_r. split; [reflexivity | exact Hs].
  - destruct (IH (insertByApprovedAt x acc) (insertByApprovedAt_sorted x Hs)) as (Hp & Hsorted).
    split; [| exact Hsorted].
    eapply perm_trans; [exact Hp |].
    eapply perm_trans; [apply Permutation_app_tail, insertByApprovedAt_perm |].
    simpl. apply Permutation_middle.
Qed.

Lemma orderByApprovedAt_spec (l : list LinkedWallet) :
  Permutation (orderByApprovedAt l) l /\ StronglySorted byApproval (orderByApprovedAt l).
Proof.
  unfold orderByApprovedAt. apply (fold_insert_spec l). constructor.
Qed.

Lemma In_orderByApprovedAt (x : LinkedWallet) (l : list LinkedWallet) :
  In x (orderByApprovedAt l) <-> In x l.
Proof.
  destruct (orderByApprovedAt_spec l) as (Hp & _).
  split; apply Permutation_in; [exact Hp | symmetry; exact Hp].
Qed.

(** X10. The wallets the fan-out goes through, [getLinkedWalletsByWillId],
    are exactly the stored wallets of the will whose status is
    [approved], each as often as it is stored, in the order of their
    approval times. *)
Theorem linked_wallets_come_in_approval_order (d : DB) (id : string) :
  StronglySorted byApproval (getLinkedWalletsByWillId d id)
  /\ Permutation (getLinkedWalletsByWillId d id)
                 (filter (fun lw => String.eqb (lw_willId lw) id && isApproved (lw_status lw))
                         (linked_wallets d))
  /\ (forall lw, In lw (getLinkedWalletsByWillId d id) <->
                 In lw (linked_wallets d) /\ lw_willId lw = id /\ lw_status lw = approved).
Proof.
  unfold getLinkedWalletsByWillId.
  destruct (orderByApprovedAt_spec
              (filter (fun lw => String.eqb (lw_willId lw) id && isApproved (lw_status lw))
                      (linked_wallets d))) as (Hp & Hs).
  split; [exact Hs |]. split; [exact Hp |].
  intro lw. rewrite In_orderByApprovedAt, filter_In, andb_true_iff, String.eqb_eq.
  unfold isApproved. destruct (lw_status lw); intuition discriminate.
Qed.

Lemma find_filter_none_in {A} (p q : A -> bool) (l : list A) :
  (forall x, In x l -> p x = true -> q x = false) -> find p (filter q l) = None.
Proof.
  intro H. induction l as [| x l IH]; [reflexivity |].
  simpl. destruct (q x) eqn:Hq; simpl.
  - destruct (p x) eqn:Hp.
    + rewrite (H x (or_introl eq_refl) Hp) in Hq. discriminate Hq.
    + apply IH. intros y Hy. apply H. right. exact Hy.
  - apply IH. intros y Hy. apply H. right. exact Hy.
Qed.

Lemma lowerCased_saveLinkedWallet (lw : LinkedWallet) (d : DB) :
  lowerCased d -> lowerCased (saveLinkedWallet lw d).
Proof.
  unfold lowerCased, saveLinkedWallet. cbn [linked_wallets]. intro H.
  apply Forall_app. split.
  - apply Forall_forall. intros x Hx. apply filter_In in Hx.
    rewrite Forall_forall in H. apply H. apply Hx.
  - constructor; [| constructor]. cbn. apply toLowerCase_idem.
Qed.

(** X11. In a store whose linked wallets are all kept under lower-case
    addresses, a wallet of a stored will that is saved is found again by
    [getLinkedWallet] under its will and any spelling of its address
    that differs only in the case of the letters; it is read back with
    its address in lower case.  Saving keeps the addresses in lower
    case, keeps the pairs of will and address distinct, and leaves the
    wills alone. *)
Theorem linked_wallet_is_found_whatever_the_case (lw : LinkedWallet) (d : DB)
    (address' : string) :
  known d (lw_willId lw) ->
  lowerCased d ->
  toLowerCase address' = toLowerCase (lw_address lw) ->
  getLinkedWallet (saveLinkedWallet lw d) (lw_willId lw) address'
  = Some (linkedWalletRow lw)
  /\ lowerCased (saveLinkedWallet lw d)
  /\ (uniqueWallets d -> uniqueWallets (saveLinkedWallet lw d))
  /\ wills (saveLinkedWallet lw d) = wills d.
Proof.
  intros _ Hlow Hsame. split; [| split; [| split]].
  - unfold getLinkedWallet, saveLinkedWallet. cbn [linked_wallets].
    rewrite find_app_first, find_filter_none_in.
    + cbn. unfold isWallet. cbn. rewrite String.eqb_refl, toLowerCase_idem, Hsame,
        String.eqb_refl. reflexivity.
    + intros x Hin Hx. unfold isWallet in Hx. apply andb_true_iff in Hx.
      destruct Hx as [Hid Haddr]. apply String.eqb_eq in Hid, Haddr.
      unfold lowerCased in Hlow. rewrite Forall_forall in Hlow.
      specialize (Hlow x Hin). cbn.
      rewrite Hid, String.eqb_refl. cbn. rewrite <- Hlow, Haddr, Hsame, String.eqb_refl.
      reflexivity.
  - apply lowerCased_saveLinkedWallet. exact Hlow.
  - unfold uniqueWallets, saveLinkedWallet. cbn [linked_wallets]. intro H.
    rewrite map_app. apply NoDup_snoc.
    + apply distinct_after_filter. exact H.
    + simpl. intro Hin. apply in_map_iff in Hin. destruct Hin as (x & Hx & Hin).
      apply filter_In in Hin. destruct Hin as [_ Hne].
      injection Hx as Hid Haddr. rewrite Hid, Haddr, !String.eqb_refl in Hne.
      discriminate Hne.
  - reflexivity.
Qed.

Lemma filter_map_same {A} (p : A -> bool) (f : A -> A) (l : list A) :
  (forall x, p (f x) = p x) -> (forall x, p x = true -> f x = x) ->
  filter p (map f l) = filter p l.
Proof.
  intros Hp Hf. induction l as [| x l IH]; [reflexivity |].
  simpl. rewrite Hp. destruct (p x) eqn:Hx; [rewrite (Hf x Hx), IH | rewrite IH]; reflexivity.
Qed.

Lemma insertByApprovedAt_map (f : LinkedWallet -> LinkedWallet) (x : LinkedWallet)
    (l : list LinkedWallet) :
  (forall y, approvedAt (f y) = approvedAt y) ->
  insertByApprovedAt (f x) (map f l) = map f (insertByApprovedAt x l).
Proof.
  intro Hf. induction l as [| y l IH]; [reflexivity |].
  simpl. rewrite !Hf. destruct (approvedAt x <? approvedAt y)%Z; [reflexivity |].
  simpl. rewrite IH. reflexivity.
Qed.

Lemma orderByApprovedAt_map (f : LinkedWallet -> LinkedWallet) (l : list LinkedWallet) :
  (forall y, approvedAt (f y) = approvedAt y) ->
  orderByApprovedAt (map f l) = map f (orderByApprovedAt l).
Proof.
  intro Hf. unfold orderByApprovedAt.
  change (@nil LinkedWallet) with (map f []) at 1.
  generalize (@nil LinkedWallet) as acc.
  induction l as [| x l IH]; intro acc; [reflexivity |].
  simpl. rewrite (insertByApprovedAt_map f x acc Hf). apply IH.
Qed.

Lemma filter_map_commute {A} (p : A -> bool) (f : A -> A) (l : list A) :
  (forall x, p (f x) = p x) -> filter p (map f l) = map f (filter p l).
Proof.
  intro Hp. induction l as [| x l IH]; [reflexivity |].
  simpl. rewrite Hp. destruct (p x); simpl; rewrite IH; reflexivity.
Qed.

Lemma In_getLinkedWalletsByWillId (d : DB) (id : string) (lw : LinkedWallet) :
  In lw (getLinkedWalletsByWillId d id) <->
  In lw (linked_wallets d) /\ lw_willId lw = id /\ lw_status lw = approved.
Proof.
  unfold getLinkedWalletsByWillId.
  rewrite In_orderByApprovedAt, filter_In, andb_true_iff, String.eqb_eq.
  unfold isApproved. destruct (lw_status lw); intuition discriminate.
Qed.

Lemma In_after_removal (id address' : string) (d : DB) (lw : LinkedWallet) :
  In lw (getLinkedWalletsByWillId (removeLinkedWallet id address' d) id) <->
  In lw (getLinkedWalletsByWillId d id)
  /\ toLowerCase (lw_address lw) <> toLowerCase address'.
Proof.
  rewrite !In_getLinkedWalletsByWillId. cbn [removeLinkedWallet linked_wallets].
  rewrite in_map_iff. split.
  - intros ((y & Hy & Hin) & Hid & Hst).
    destruct (isWallet id address' y) eqn:Hw.
    + subst lw. cbn in Hst. discriminate Hst.
    + subst y. split; [repeat split; assumption |].
      unfold isWallet in Hw. rewrite Hid, String.eqb_refl in Hw. cbn in Hw.
      apply String.eqb_neq. exact Hw.
  - intros ((Hin & Hid & Hst) & Hne). split; [| split; assumption].
    exists lw. split; [| exact Hin].
    unfold isWallet. apply String.eqb_neq in Hne. rewrite Hne, andb_false_r. reflexivity.
Qed.

(** X12. After [removeLinkedWallet] the wallets of the fan-out of the
    will are those of before whose address differs from the removed one
    beyond the case of the letters; the wallets of every other will are
    the same list as before; and the row is kept: the list of all the
    wallets of the will is the one of before with the status [removed]
    on this wallet, and the table has the same wills and addresses. *)
Theorem removed_wallet_leaves_the_fan_out (id address' : string) (d : DB) :
  (forall lw, In lw (getLinkedWalletsByWillId (removeLinkedWallet id address' d) id) <->
              In lw (getLinkedWalletsByWillId d id)
              /\ toLowerCase (lw_address lw) <> toLowerCase address')
  /\ (forall id', id' <> id ->
        getLinkedWalletsByWillId (removeLinkedWallet id address' d) id'
        = getLinkedWalletsByWillId d id')
  /\ getAllLinkedWalletsByWillId (removeLinkedWallet id address' d) id
     = map (fun lw => if isWallet id address' lw then setWalletStatus lw removed else lw)
           (getAllLinkedWalletsByWillId d id)
  /\ map (fun lw => (lw_willId lw, lw_address lw))
         (linked_wallets (removeLinkedWallet id address' d))
     = map (fun lw => (lw_willId lw, lw_address lw)) (linked_wallets d)
  /\ wills (removeLinkedWallet id address' d) = wills d.
Proof.
  split; [intro lw; apply In_after_removal | split; [| split; [| split]]].
  - intros id' Hne. unfold getLinkedWalletsByWillId. f_equal.
    cbn [removeLinkedWallet linked_wallets]. apply filter_map_same.
    + intro x. destruct (isWallet id address' x) eqn:Hw; [| reflexivity].
      cbn. unfold isWallet in Hw. apply andb_true_iff in Hw. destruct Hw as [Hid _].
      apply String.eqb_eq in Hid. rewrite Hid.
      assert (He : String.eqb id id' = false) by (apply String.eqb_neq; congruence).
      rewrite He. reflexivity.
    + intros x Hx. destruct (isWallet id address' x) eqn:Hw; [| reflexivity].
      exfalso. unfold isWallet in Hw. apply andb_true_iff in Hw. destruct Hw as [Hid _].
      apply andb_true_iff in Hx. destruct Hx as [Hid' _].
      apply String.eqb_eq in Hid, Hid'. congruence.
  - unfold getAllLinkedWalletsByWillId. cbn [removeLinkedWallet linked_wallets].
    rewrite filter_map_commute, orderByApprovedAt_map; [reflexivity | |];
      intro x; destruct (isWallet id address' x); reflexivity.
  - cbn [removeLinkedWallet linked_wallets]. rewrite map_map. apply map_ext.
    intro x. destruct (isWallet id address' x); reflexivity.
  - reflexivity.
Qed.

(** X13. Unlinking does not stop the distribution from the address of
    the owner.  When every approved wallet of a will has the removed
    address, up to case, the fan-out after the removal runs over the
    single wallet made of the owner, the signature and the creation time
    of the will. *)
Theorem unlinking_every_wallet_falls_back_to_the_owner (id address' : string) (d : DB)
    (w : StoredWillAuthorization) :
  (forall lw, In lw (getLinkedWalletsByWillId d id) ->
              toLowerCase (lw_address lw) = toLowerCase address') ->
  WillService.linkedWalletsOf (removeLinkedWallet id address' d) w id
  = [mkLinkedWallet id (owner w) (signature w) (createdAt w) approved None].
Proof.
  intro Hall. unfold WillService.linkedWalletsOf.
  destruct (getLinkedWalletsByWillId (removeLinkedWallet id address' d) id)
    as [| lw rest] eqn:Hleft; [reflexivity |].
  exfalso.
  destruct (proj1 (In_after_removal id address' d lw)) as (Hin & Hne).
  { rewrite Hleft. left. reflexivity. }
  apply Hne. apply Hall. exact Hin.
Qed.

(** X14. After [deleteLinkedWalletsByWillId] the will has no linked
    wallet left, approved or not, and its fan-out runs over the single
    wallet made of the owner; the wallets of every other will, and the
    wills, are as before. *)
Theorem deleted_wallets_fall_back_to_the_owner (id : string) (d : DB)
    (w : StoredWillAuthorization) :
  getAllLinkedWalletsByWillId (deleteLinkedWalletsByWillId id d) id = []
  /\ getLinkedWalletsByWillId (deleteLinkedWalletsByWillId id d) id = []
  /\ WillService.linkedWalletsOf (deleteLinkedWalletsByWillId id d) w id
     = [mkLinkedWallet id (owner w) (signature w) (createdAt w) approved None]
  /\ (forall id', id' <> id ->
        getAllLinkedWalletsByWillId (deleteLinkedWalletsByWillId id d) id'
        = getAllLinkedWalletsByWillId d id'
        /\ getLinkedWalletsByWillId (deleteLinkedWalletsByWillId id d) id'
           = getLinkedWalletsByWillId d id')
  /\ wills (deleteLinkedWalletsByWillId id d) = wills d.
Proof.
  assert (Hnone : forall p : LinkedWallet -> bool,
            (forall x, p x = true -> String.eqb (lw_willId x) id = true) ->
            filter p (linked_wallets (deleteLinkedWalletsByWillId id d)) = []).
  { intros p Hp. apply filter_nil_iff. intros x Hx.
    cbn [deleteLinkedWalletsByWillId linked_wallets] in Hx. apply filter_In in Hx.
    destruct Hx as (_ & Hne). destruct (p x) eqn:Hpx; [| reflexivity].
    rewrite (Hp x Hpx) in Hne. discriminate Hne. }
  assert (Hsame : forall (p : LinkedWallet -> bool) id',
            id' <> id ->
            (forall x, p x = true -> String.eqb (lw_willId x) id' = true) ->
            filter p (linked_wallets (deleteLinkedWalletsByWillId id d))
            = filter p (linked_wallets d)).
  { intros p id' Hne Hp. cbn [deleteLinkedWalletsByWillId linked_wallets].
    induction (linked_wallets d) as [| x l IH]; [reflexivity |].
    cbn [filter]. destruct (String.eqb (lw_willId x) id) eqn:Hx; cbn [negb].
    - destruct (p x) eqn:Hpx; [| exact IH].
      apply Hp in Hpx. apply String.eqb_eq in Hx, Hpx. congruence.
    - cbn [filter]. destruct (p x); rewrite IH; reflexivity. }
  assert (Hall : getAllLinkedWalletsByWillId (deleteLinkedWalletsByWillId id d) id = []).
  { unfold getAllLinkedWalletsByWillId. rewrite Hnone; [reflexivity |]. intros x Hx. exact Hx. }
  assert (Happroved : getLinkedWalletsByWillId (deleteLinkedWalletsByWillId id d) id = []).
  { unfold getLinkedWalletsByWillId. rewrite Hnone; [reflexivity |].
    intros x Hx. apply andb_true_iff in Hx. apply Hx. }
  split; [exact Hall |]. split; [exact Happroved |].
  split; [unfold WillService.linkedWalletsOf; rewrite Happroved; reflexivity |].
  split; [| reflexivity].
  intros id' Hne. unfold getAllLinkedWalletsByWillId, getLinkedWalletsByWillId.
  rewrite !(Hsame _ id' Hne); [split; reflexivity | |].
  - intros x Hx. apply andb_true_iff in Hx. apply Hx.
  - intros x Hx. exact Hx.
Qed.

(** X15. [updateLinkedWalletBalance] writes the balance and nothing
    else: the wallets of the fan-out of every will are those of before,
    in the same order, with the new balance on the wallet that was
    named; the addresses the fan-out pays from are unchanged; the
    wallet that was named is read back with the new balance; and the
    wills are untouched. *)
Theorem balance_snapshot_keeps_the_fan_out (id address' balance : string) (d : DB) :
  (forall id',
     getLinkedWalletsByWillId (updateLinkedWalletBalance id address' balance d) id'
     = map (fun lw => if isWallet id address' lw then setLastBalance lw balance else lw)
           (getLinkedWalletsByWillId d id'))
  /\ (forall id' w,
        map lw_address
            (WillService.linkedWalletsOf
               (updateLinkedWalletBalance id address' balance d) w id')
        = map lw_address (WillService.linkedWalletsOf d w id'))
  /\ (forall lw, getLinkedWallet d id address' = Some lw ->
        getLinkedWallet (updateLinkedWalletBalance id address' balance d) id address'
        = Some (setLastBalance lw balance))
  /\ wills (updateLinkedWalletBalance id address' balance d) = wills d.
Proof.
  assert (Hlist : forall id',
     getLinkedWalletsByWillId (updateLinkedWalletBalance id address' balance d) id'
     = map (fun lw => if isWallet id address' lw then setLastBalance lw balance else lw)
           (getLinkedWalletsByWillId d id')).
  { intro id'. unfold getLinkedWalletsByWillId.
    cbn [updateLinkedWalletBalance linked_wallets].
    rewrite filter_map_commute, orderByApprovedAt_map; [reflexivity | |];
      intro x; destruct (isWallet id address' x); reflexivity. }
  split; [exact Hlist |]. split; [| split; [| reflexivity]].
  - intros id' w. unfold WillService.linkedWalletsOf. rewrite Hlist.
    destruct (getLinkedWalletsByWillId d id') as [| x l]; [reflexivity |].
    cbn [map]. f_equal.
    + destruct (isWallet id address' x); reflexivity.
    + rewrite map_map. apply map_ext. intro y.
      destruct (isWallet id address' y); reflexivity.
  - intros lw. unfold getLinkedWallet. cbn [updateLinkedWalletBalance linked_wallets].
    induction (linked_wallets d) as [| x l IH]; [discriminate |].
    cbn [find map]. destruct (isWallet id address' x) eqn:Hx.
    + intro E. injection E as <-.
      assert (Hkeep : isWallet id address' (setLastBalance x balance) = true) by exact Hx.
      rewrite Hkeep. reflexivity.
    + rewrite Hx. exact IH.
Qed.

(** *** The scenarios *)

Import Scenarios.Ledger Cases.

Lemma a_hash_names_one_transaction_witness :
  let t := mkTransaction "0xtx0" "will_1" ownerWallet addressA "A" 600 "USDT"
                         DISTRIBUTION tx_confirmed 1767225600000 in
  let d := store pending fresh in
  getTransactionByHash (saveTransaction t d) (txHash t) = Some t
  /\ (forall hash, hash <> txHash t ->
        getTransactionByHash (saveTransaction t d) hash = getTransactionByHash d hash)
  /\ (NoDup (map txHash (transactions d)) ->
      NoDup (map txHash (transactions (saveTransaction t d))))
  /\ (forall t', txHash t' = txHash t ->
        transactions (saveTransaction t (saveTransaction t' d))
        = transactions (saveTransaction t d)).
Proof.
  apply (@a_hash_names_one_transaction
           (mkTransaction "0xtx0" "will_1" ownerWallet addressA "A" 600 "USDT"
                          DISTRIBUTION tx_confirmed 1767225600000)
           (store pending fresh)).
  - discriminate.
  - left. reflexivity.
Defined.

Lemma linked_wallet_is_found_whatever_the_case_witness :
  let lw := mkLinkedWallet "will_1" "0xABC0000000000000000000000000000000000002"
                           "0xsecond" 1767225700000 approved None in
  let d := store pending fresh in
  getLinkedWallet (saveLinkedWallet lw d) "will_1" secondWallet
  = Some (linkedWalletRow lw)
  /\ lowerCased (saveLinkedWallet lw d)
  /\ (uniqueWallets d -> uniqueWallets (saveLinkedWallet lw d))
  /\ wills (saveLinkedWallet lw d) = wills d.
Proof.
  apply (@linked_wallet_is_found_whatever_the_case
           (mkLinkedWallet "will_1" "0xABC0000000000000000000000000000000000002"
                           "0xsecond" 1767225700000 approved None)
           (store pending fresh) secondWallet).
  - left. reflexivity.
  - repeat constructor.
  - reflexivity.
Defined.

Lemma unlinking_every_wallet_falls_back_to_the_owner_witness :
  WillService.linkedWalletsOf
    (removeLinkedWallet "will_1" ownerWallet (store pending fresh))
    (theWill pending fresh) "will_1"
  = [mkLinkedWallet "will_1" ownerWallet "0xsigned" 1767225600000 approved None].
Proof.
  apply (@unlinking_every_wallet_falls_back_to_the_owner "will_1" ownerWallet
           (store pending fresh) (theWill pending fresh)).
  intros lw [<- | []]. reflexivity.
Defined.

End TablesProps.


(** ** The distribution plan and the signature of the owner *)

Module PlanningProps.
Import JS SignatureVerifier Reallocation Planning.
Open Scope string_scope.
Open Scope Z_scope.

Section Plan.
Context {RT : Runtime}.

Lemma mapItems_fractional (D : Z) (bs : list Beneficiary) :
  Exists (fun b => exists m, NumberToBigInt (percentage b) = Thrown m) bs ->
  exists m, mapItems D bs = Thrown m.
Proof.
  induction 1 as [b bs (m & Hb) | b bs _ IH]; simpl; unfold itemFor.
  - rewrite Hb. eexists. reflexivity.
  - destruct (NumberToBigInt (percentage b)); [| eexists; reflexivity].
    destruct IH as (m & ->). eexists. reflexivity.
Qed.

Lemma mapItems_returned (D : Z) (bs : list Beneficiary) (items : list DistributionItem) :
  mapItems D bs = Returned items ->
  map item_beneficiary items = bs
  /\ map item_amount items = map (fun b => Z.quot (D * wholeShare b) 100) bs.
Proof.
  revert items. induction bs as [| b bs IH]; intros items; simpl.
  - intro E. injection E as <-. repeat split.
  - unfold itemFor, wholeShare.
    destruct (NumberToBigInt (percentage b)) as [p | m] eqn:Hb; [| discriminate].
    destruct (mapItems D bs) as [rest | m]; [| discriminate].
    intro E. injection E as <-. destruct (IH rest eq_refl) as (Hbs & Hamt).
    simpl. rewrite Hbs, Hamt. repeat split.
Qed.

Lemma fold_left_sum (items : list DistributionItem) (acc : Z) :
  fold_left (fun sum d => sum + item_amount d) items acc
  = acc + fold_right Z.add 0 (map item_amount items).
Proof.
  revert acc. induction items as [| d items IH]; intro acc; simpl; [lia |].
  rewrite IH. lia.
Qed.

Lemma shares_bounds (D : Z) (bs : list Beneficiary) :
  0 <= D -> Forall (fun b => 0 <= wholeShare b) bs ->
  let paid := fold_right Z.add 0
                (map (fun b => Z.quot (D * wholeShare b) 100) bs) in
  D * wholeShares bs - 99 * Z.of_nat (List.length bs) <= 100 * paid
  /\ 100 * paid <= D * wholeShares bs
  /\ 0 <= wholeShares bs
  /\ 0 <= paid.
Proof.
  intros HD Hbs. cbv zeta. induction Hbs as [| b bs Hp _ IH].
  - simpl. lia.
  - cbn [map fold_right wholeShares List.length]. fold (wholeShares bs).
    set (paid := fold_right Z.add 0
                   (map (fun b0 => Z.quot (D * wholeShare b0) 100) bs)) in *.
    rewrite Z.quot_div_nonneg by nia.
    pose proof (Z.div_mod (D * wholeShare b) 100 ltac:(lia)) as Hdm.
    pose proof (Z.mod_pos_bound (D * wholeShare b) 100 ltac:(lia)) as Hm.
    assert (0 <= D * wholeShare b / 100) by (apply Z.div_pos; nia).
    rewrite Nat2Z.inj_succ, Z.mul_add_distr_l. lia.
Qed.

(** X16. [calculateDistribution] gives no plan for a share that is not a
    whole number, for which [BigInt] throws: the plan is invalid, empty,
    and carries a message. *)
Theorem fractional_share_invalidates_the_plan (balance : string)
    (beneficiaries : list Beneficiary) (gasReservePercent : float) :
  Exists (fun b => exists m, NumberToBigInt (percentage b) = Thrown m) beneficiaries ->
  let plan := calculateDistribution balance beneficiaries gasReservePercent in
  isValid plan = false /\ distributions plan = []
  /\ plan_totalAmount plan = 0 /\ plan_gasReserve plan = 0
  /\ exists why, errorMessage plan = Some why.
Proof.
  intro Hfrac. cbv zeta. unfold calculateDistribution.
  destruct (BigInt_of_string balance) as [B | m]; [| cbn; repeat split; eexists; reflexivity].
  destruct (B =? 0); [cbn; repeat split; eexists; reflexivity |].
  destruct (NumberToBigInt gasReservePercent) as [percent | m];
    [| cbn; repeat split; eexists; reflexivity].
  destruct (mapItems_fractional (B - Z.quot (B * percent) 100) Hfrac) as (m & ->).
  cbn. repeat split. eexists. reflexivity.
Qed.

(** X17. A valid plan stays within the balance.  For a positive balance,
    a gas reserve that is a whole number between 0 and 100 percent and
    shares that are not negative and add up to at most 100, the plan
    lists the beneficiaries in order, and the amounts it allots
    together with the gas reserve do not exceed the balance.  When the
    shares add up to exactly 100 the truncation loses less than one
    unit for each beneficiary. *)
Theorem plan_stays_within_the_balance (balance : string) (B : Z)
    (beneficiaries : list Beneficiary) (gasReservePercent : float) (percent : Z) :
  BigInt_of_string balance = Returned B ->
  0 < B ->
  NumberToBigInt gasReservePercent = Returned percent ->
  0 <= percent <= 100 ->
  Forall (fun b => 0 <= wholeShare b) beneficiaries ->
  wholeShares beneficiaries <= 100 ->
  let plan := calculateDistribution balance beneficiaries gasReservePercent in
  isValid plan = true ->
  map item_beneficiary (distributions plan) = beneficiaries
  /\ 0 <= plan_gasReserve plan <= B
  /\ 0 <= plan_totalAmount plan
  /\ plan_totalAmount plan + plan_gasReserve plan <= B
  /\ (wholeShares beneficiaries = 100 ->
      B - plan_gasReserve plan - Z.of_nat (List.length beneficiaries)
      < plan_totalAmount plan).
Proof.
  intros Hparse HB Hgasp Hpercent Hbs Hsum. cbv zeta. unfold calculateDistribution.
  rewrite Hparse. destruct (B =? 0) eqn:Hz; [cbn; discriminate |].
  rewrite Hgasp.
  set (gas := Z.quot (B * percent) 100).
  assert (Hgas : 0 <= gas <= B).
  { subst gas. rewrite Z.quot_div_nonneg by nia.
    split; [apply Z.div_pos; nia |].
    apply Z.div_le_upper_bound; nia. }
  destruct (mapItems (B - gas) beneficiaries) as [items | m] eqn:Hitems;
    [| cbn; discriminate].
  intros _. cbn [distributions plan_gasReserve plan_totalAmount].
  destruct (mapItems_returned _ _ Hitems) as (Hmap & Hamt).
  rewrite fold_left_sum, Hamt, Z.add_0_l.
  destruct (@shares_bounds (B - gas) beneficiaries ltac:(lia) Hbs)
    as (Hlo & Hhi & Hnn & Hpaid).
  cbv zeta in Hlo, Hhi, Hpaid.
  set (paid := fold_right Z.add 0
                 (map (fun b => Z.quot ((B - gas) * wholeShare b) 100)
                      beneficiaries)) in *.
  split; [exact Hmap |]. split; [exact Hgas |].
  split; [exact Hpaid |]. split; [nia |].
  intro Hfull. rewrite Hfull in *.
  destruct beneficiaries as [| b bs]; [simpl in Hfull; discriminate |].
  change (List.length (b :: bs)) with (S (List.length bs)) in *. lia.
Qed.

End Plan.

(** *** The scenarios *)

Import Scenarios.Shares Scenarios.Signing.
Local Open Scope Z_scope.

Lemma fractional_share_invalidates_the_plan_witness :
  let plan := calculateDistribution "1000000" [heir "Alice" 36.3; heir "Bob" 63.7] 5 in
  isValid plan = false /\ distributions plan = []
  /\ plan_totalAmount plan = 0 /\ plan_gasReserve plan = 0
  /\ exists why, errorMessage plan = Some why.
Proof.
  apply (@fractional_share_invalidates_the_plan toyRuntime "1000000"
           [heir "Alice" 36.3; heir "Bob" 63.7] 5).
  apply Exists_cons_hd. eexists. reflexivity.
Defined.

Lemma plan_stays_within_the_balance_witness :
  let beneficiaries := [heir "Alice" 33; heir "Bob" 33; heir "Carol" 34] in
  let plan := calculateDistribution "1000001" beneficiaries 5 in
  map item_beneficiary (distributions plan) = beneficiaries
  /\ 0 <= plan_gasReserve plan <= 1000001
  /\ 0 <= plan_totalAmount plan
  /\ plan_totalAmount plan + plan_gasReserve plan <= 1000001
  /\ (wholeShares beneficiaries = 100 ->
      1000001 - plan_gasReserve plan - Z.of_nat (List.length beneficiaries)
      < plan_totalAmount plan).
Proof.
  apply (@plan_stays_within_the_balance toyRuntime "1000001" 1000001
           [heir "Alice" 33; heir "Bob" 33; heir "Carol" 34] 5 5).
  - reflexivity.
  - lia.
  - reflexivity.
  - lia.
  - repeat constructor; discriminate.
  - vm_compute. discriminate.
  - vm_compute. reflexivity.
Defined.

End PlanningProps.

Module OwnerSignatureProps.
Import JS SignatureVerifier OwnerSignature.
Open Scope string_scope.

Section Sign.
Context {RT : Runtime}.

Lemma signed_verifies (beneficiaries : list JSObject)
    (totalAmount : string) (validUntil : Q) (signer : Signer)
    (signed : WillAuthorizationSignature) :
  recovers signer ->
  signWillAuthorization beneficiaries totalAmount validUntil signer = Returned signed ->
  verifyWillAuthorization (was_owner signed) (was_beneficiaries signed)
                          (was_totalAmount signed) (was_validUntil signed)
                          (was_signature signed) = true
  /\ signer_getAddress signer = Returned (was_owner signed)
  /\ was_beneficiaries signed = beneficiaries
  /\ was_totalAmount signed = totalAmount
  /\ was_validUntil signed = validUntil.
Proof.
  intros Hrec. unfold signWillAuthorization, verifyWillAuthorization.
  destruct (signer_getAddress signer) as [a | m] eqn:Ha; [| discriminate].
  destruct (BigInt_of_string totalAmount) as [total | m] eqn:Ht; [| discriminate].
  destruct (BigInt_of_number validUntil) as [until | m] eqn:Hu; [| discriminate].
  destruct (signTypedData signer (mkMessage a (beneficiariesStr beneficiaries) total until 0))
    as [signature | m] eqn:Hs; [| discriminate].
  intro E. injection E as <-.
  cbn [was_owner was_beneficiaries was_totalAmount was_validUntil was_signature].
  rewrite Ht, Hu.
  rewrite (Hrec (mkMessage a (beneficiariesStr beneficiaries) total until 0)
                signature a Ha eq_refl Hs), String.eqb_refl.
  repeat split.
Qed.

(** X18. The front end and the service agree on what is signed.  When
    the verifier recovers the address of a wallet from what the wallet
    signs in its own name, the owner, beneficiaries, amount, expiry and
    signature that [signWillAuthorization] returns are accepted by
    [verifyWillAuthorization]. *)
Theorem what_the_owner_signs_verifies (beneficiaries : list JSObject)
    (totalAmount : string) (validUntil : Q) (signer : Signer)
    (signed : WillAuthorizationSignature) :
  recovers signer ->
  signWillAuthorization beneficiaries totalAmount validUntil signer = Returned signed ->
  verifyWillAuthorization (was_owner signed) beneficiaries totalAmount validUntil
                          (was_signature signed) = true
  /\ signer_getAddress signer = Returned (was_owner signed).
Proof.
  intros Hrec Hsigned.
  destruct (@signed_verifies beneficiaries totalAmount validUntil signer signed Hrec Hsigned)
    as (Hv & Ha & Hbs & Htotal & Huntil).
  rewrite Hbs, Htotal, Huntil in Hv. split; assumption.
Qed.

End Sign.

(** *** The scenarios *)

Import Scenarios.Signing Cases.

Lemma ownerSigner_recovers : recovers ownerSigner.
Proof.
  intros m signature a Ha Hm Hs. cbn in Ha, Hs. injection Ha as <-. injection Hs as <-.
  cbn. unfold toyRecover. rewrite String.eqb_refl, Hm. reflexivity.
Qed.

Lemma what_the_owner_signs_verifies_witness :
  verifyWillAuthorization ownerAddress [alice; bob] "1000" 1798761600
    (toySignature (mkMessage ownerAddress (beneficiariesStr [alice; bob])
                             1000 1798761600 0)) = true
  /\ signer_getAddress ownerSigner = Returned ownerAddress.
Proof.
  apply (@what_the_owner_signs_verifies toyRuntime [alice; bob] "1000" 1798761600
           ownerSigner
           (mkSigned ownerAddress [alice; bob] "1000" 1798761600
                     (toySignature (mkMessage ownerAddress (beneficiariesStr [alice; bob])
                                              1000 1798761600 0)))).
  - exact ownerSigner_recovers.
  - vm_compute. reflexivity.
Defined.

End OwnerSignatureProps.

(** ** Storing an authorization *)

Module AuthorizationProps.
Import JS SignatureVerifier Database Tables Authorization WillService TablesProps.
Open Scope string_scope.

Section Service.
Context {RT : Runtime} {H : Type} {host : Host H}.

(** The two ways a verified authorization is stored. *)
Lemma store_again owner' beneficiaries totalAmount validUntil signature useStablecoin
    customLimits (st : DB * H) existingWill :
  verifyWillAuthorization owner' (map asObject beneficiaries) totalAmount validUntil
                          signature = true ->
  getWillByOwner owner' (fst st) = Some existingWill ->
  status existingWill = pending ->
  storeWillAuthorization owner' beneficiaries totalAmount validUntil signature
                         useStablecoin customLimits st
  = (mkStoreResult true (Some (willId existingWill)) None,
     (saveWill (reauthorized existingWill beneficiaries totalAmount (Qfloor validUntil)
                             signature (fst (now (snd st))) useStablecoin) (fst st),
      snd (now (snd st)))).
Proof.
  intros Hv Hfind Hpending. destruct st as [d h]. cbn [fst snd] in *.
  unfold storeWillAuthorization. rewrite Hv. cbn [negb]. rewrite Hfind, Hpending.
  destruct (now h) as [t h1]. reflexivity.
Qed.

(** The answer to a first authorization: a success, unless a limit
    cannot be formatted for the log. *)
Lemma store_first owner' beneficiaries totalAmount validUntil signature useStablecoin
    customLimits (st : DB * H) :
  verifyWillAuthorization owner' (map asObject beneficiaries) totalAmount validUntil
                          signature = true ->
  (forall existingWill, getWillByOwner owner' (fst st) = Some existingWill ->
                        status existingWill <> pending) ->
  exists id t t' h',
    id = fst (generateWillId (snd st))
    /\ storeWillAuthorization owner' beneficiaries totalAmount validUntil signature
                              useStablecoin customLimits st
       = (match Authorization.formatEther (perTxLimit (mergeLimits customLimits)) with
          | Thrown m => mkStoreResult false None (Some m)
          | Returned _ =>
              match Authorization.formatEther (dailyLimit (mergeLimits customLimits)) with
              | Thrown m => mkStoreResult false None (Some m)
              | Returned _ => mkStoreResult true (Some id) None
              end
          end,
          (saveLinkedWallet (mkLinkedWallet id owner' signature t' approved None)
             (saveWill (mkWill id owner' beneficiaries totalAmount (Qfloor validUntil)
                               signature t pending useStablecoin
                               (mergeLimits customLimits) None None false false)
                       (fst st)),
           h')).
Proof.
  intros Hv Hnone. destruct st as [d h]. cbn [fst snd] in *.
  unfold storeWillAuthorization. rewrite Hv. cbn [negb].
  destruct (generateWillId h) as [id h1] eqn:Hid.
  destruct (now h1) as [t h2] eqn:Hnow.
  destruct (now h2) as [t' h3] eqn:Hnow'.
  exists id, t, t', h3. split; [reflexivity |].
  assert (Hfresh :
    match Authorization.formatEther (perTxLimit (mergeLimits customLimits)) with
    | Returned _ =>
        match Authorization.formatEther (dailyLimit (mergeLimits customLimits)) with
        | Returned _ =>
            (mkStoreResult true (Some id) None,
             (saveLinkedWallet (mkLinkedWallet id owner' signature t' approved None)
                (saveWill (mkWill id owner' beneficiaries totalAmount (Qfloor validUntil)
                                  signature t pending useStablecoin
                                  (mergeLimits customLimits) None None false false) d),
              h3))
        | Thrown m =>
            (mkStoreResult false None (Some m),
             (saveLinkedWallet (mkLinkedWallet id owner' signature t' approved None)
                (saveWill (mkWill id owner' beneficiaries totalAmount (Qfloor validUntil)
                                  signature t pending useStablecoin
                                  (mergeLimits customLimits) None None false false) d),
              h3))
        end
    | Thrown m =>
        (mkStoreResult false None (Some m),
         (saveLinkedWallet (mkLinkedWallet id owner' signature t' approved None)
            (saveWill (mkWill id owner' beneficiaries totalAmount (Qfloor validUntil)
                              signature t pending useStablecoin
                              (mergeLimits customLimits) None None false false) d),
          h3))
    end
    = (match Authorization.formatEther (perTxLimit (mergeLimits customLimits)) with
       | Thrown m => mkStoreResult false None (Some m)
       | Returned _ =>
           match Authorization.formatEther (dailyLimit (mergeLimits customLimits)) with
           | Thrown m => mkStoreResult false None (Some m)
           | Returned _ => mkStoreResult true (Some id) None
           end
       end,
       (saveLinkedWallet (mkLinkedWallet id owner' signature t' approved None)
          (saveWill (mkWill id owner' beneficiaries totalAmount (Qfloor validUntil)
                            signature t pending useStablecoin
                            (mergeLimits customLimits) None None false false) d),
        h3))).
  { destruct (Authorization.formatEther (perTxLimit (mergeLimits customLimits))); [| reflexivity].
    destruct (Authorization.formatEther (dailyLimit (mergeLimits customLimits))); reflexivity. }
  destruct (getWillByOwner owner' d) as [e |] eqn:Hfind; [| exact Hfresh].
  specialize (Hnone e eq_refl).
  destruct (status e); [contradiction | exact Hfresh | exact Hfresh].
Qed.

(** X19. Nothing is stored without a signature that verifies.  When
    the signature does not verify, [storeWillAuthorization] answers
    "Invalid signature" and leaves the store and the host as they were.
    In every case, a will the store holds after the call and did not
    hold before carries the signature of the call, the beneficiaries of
    the call and an owner that is the caller up to case, and the
    signature verified; a linked wallet that is new is the wallet of
    the caller with this signature; and the call succeeds only for a
    signature that verifies. *)
Theorem unverified_authorization_is_not_stored owner' beneficiaries totalAmount
    validUntil signature useStablecoin customLimits (st : DB * H) :
  let out := storeWillAuthorization owner' beneficiaries totalAmount validUntil signature
                                    useStablecoin customLimits st in
  let verified := verifyWillAuthorization owner' (map asObject beneficiaries) totalAmount
                                          validUntil signature in
  (verified = false -> out = (mkStoreResult false None (Some "Invalid signature"), st))
  /\ (forall w, In w (wills (fst (snd out))) ->
        In w (wills (fst st))
        \/ (verified = true
            /\ Database.signature w = signature
            /\ toLowerCase (owner w) = toLowerCase owner'
            /\ Database.beneficiaries w = map beneficiaryRow beneficiaries))
  /\ (forall lw, In lw (linked_wallets (fst (snd out))) ->
        In lw (linked_wallets (fst st))
        \/ (verified = true
            /\ lw_signature lw = signature
            /\ lw_address lw = toLowerCase owner'))
  /\ (sr_success (fst out) = true -> verified = true).
Proof.
  cbv zeta.
  destruct (verifyWillAuthorization owner' (map asObject beneficiaries) totalAmount
                                    validUntil signature) eqn:Hv.
  2:{ assert (Hout : storeWillAuthorization owner' beneficiaries totalAmount validUntil
                       signature useStablecoin customLimits st
                     = (mkStoreResult false None (Some "Invalid signature"), st)).
      { unfold storeWillAuthorization. destruct st as [d h]. rewrite Hv. reflexivity. }
      rewrite Hout. cbn [fst snd sr_success].
      split; [reflexivity |]. split; [auto |]. split; [auto | discriminate]. }
  split; [discriminate |].
  assert (Hsaved : forall (x : StoredWillAuthorization) (d : DB) w,
            In w (wills (saveWill x d)) -> In w (wills d) \/ w = willRow x).
  { intros x d w Hin. unfold saveWill in Hin. cbn [wills] in Hin.
    apply in_app_or in Hin. destruct Hin as [Hin | [<- | []]].
    - left. apply filter_In in Hin. apply Hin.
    - right. reflexivity. }
  assert (Hcases :
    (exists e, getWillByOwner owner' (fst st) = Some e /\ status e = pending)
    \/ (forall e, getWillByOwner owner' (fst st) = Some e -> status e <> pending)).
  { destruct (getWillByOwner owner' (fst st)) as [e |].
    - destruct (status e) eqn:Hst.
      + left. exists e. split; [reflexivity | exact Hst].
      + right. intros e' E. injection E as <-. rewrite Hst. discriminate.
      + right. intros e' E. injection E as <-. rewrite Hst. discriminate.
    - right. intros e E. discriminate E. }
  destruct Hcases as [(e & Hfind & Hst) | Hnone].
  - rewrite (@store_again owner' beneficiaries totalAmount validUntil signature
               useStablecoin customLimits st e Hv Hfind Hst).
    cbn [fst snd sr_success].
    split; [| split; [intros lw Hin; left; exact Hin | reflexivity]].
    intros w Hin. apply Hsaved in Hin. destruct Hin as [Hin | ->]; [left; exact Hin |].
    right. split; [reflexivity |]. split; [reflexivity |].
    split; [| reflexivity].
    cbn [willRow owner reauthorized]. apply (getWillByOwner_some _ _ Hfind).
  - destruct (@store_first owner' beneficiaries totalAmount validUntil signature
                useStablecoin customLimits st Hv Hnone)
      as (id & t & t' & h' & _ & Hrun).
    rewrite Hrun. cbn [fst snd].
    split; [| split; [| reflexivity]].
    + intros w Hin. cbn [saveLinkedWallet wills] in Hin.
      apply Hsaved in Hin. destruct Hin as [Hin | ->]; [left; exact Hin |].
      right. repeat split.
    + intros lw Hin. unfold saveLinkedWallet in Hin. cbn [linked_wallets] in Hin.
      apply in_app_or in Hin. destruct Hin as [Hin | [<- | []]].
      * left. apply filter_In in Hin. apply Hin.
      * right. repeat split.
Qed.

(** X20. When the owner already has a pending will, a verified
    authorization updates this will in place: the call returns its id,
    and the will read back under this id has the owner, the status, the
    spending limits and the KitePass switch of before, with the new
    beneficiaries, signature and token choice and the time of the call.
    The beneficiaries are those of the call as JSON writes them (a
    share of [-0] comes back as zero).  The other wills and the linked
    wallets are untouched, and the custom limits given with the call are
    ignored. *)
Theorem reauthorization_keeps_the_will_and_its_limits owner' beneficiaries totalAmount
    validUntil signature useStablecoin customLimits (st : DB * H) existingWill :
  verifyWillAuthorization owner' (map asObject beneficiaries) totalAmount validUntil
                          signature = true ->
  getWillByOwner owner' (fst st) = Some existingWill ->
  status existingWill = pending ->
  let out := storeWillAuthorization owner' beneficiaries totalAmount validUntil signature
                                    useStablecoin customLimits st in
  fst out = mkStoreResult true (Some (willId existingWill)) None
  /\ (exists w,
        getWillById (fst (snd out)) (willId existingWill) = Some w
        /\ owner w = owner existingWill
        /\ status w = pending
        /\ spendingLimits w = spendingLimits existingWill
        /\ useKitepass w = useKitepass existingWill
        /\ Database.beneficiaries w = map beneficiaryRow beneficiaries
        /\ Database.signature w = signature
        /\ Database.useStablecoin w = useStablecoin
        /\ createdAt w = fst (now (snd st)))
  /\ (forall id, id <> willId existingWill ->
        getWillById (fst (snd out)) id = getWillById (fst st) id)
  /\ linked_wallets (fst (snd out)) = linked_wallets (fst st)
  /\ out = storeWillAuthorization owner' beneficiaries totalAmount validUntil signature
                                  useStablecoin None st.
Proof.
  intros Hv Hfind Hpending. cbv zeta.
  rewrite (@store_again owner' beneficiaries totalAmount validUntil signature useStablecoin
             customLimits st existingWill Hv Hfind Hpending).
  rewrite (@store_again owner' beneficiaries totalAmount validUntil signature useStablecoin
             None st existingWill Hv Hfind Hpending).
  cbn [fst snd].
  split; [reflexivity |]. split.
  { eexists. split.
    - exact (getWillById_saveWill
               (reauthorized existingWill beneficiaries totalAmount (Qfloor validUntil)
                             signature (fst (now (snd st))) useStablecoin) (fst st)).
    - cbn. rewrite Hpending. repeat split. }
  split.
  { intros id Hne.
    exact (@getWillById_saveWill_other
             (reauthorized existingWill beneficiaries totalAmount (Qfloor validUntil)
                           signature (fst (now (snd st))) useStablecoin) (fst st) id Hne). }
  split; reflexivity.
Qed.

(** X21. When the owner has no pending will, a verified authorization
    creates one under a fresh id: it is pending, belongs to the owner,
    carries the default limits overridden by the custom ones, as the
    caller wrote them, and has the KitePass mode off; and the fan-out
    of this will holds a wallet with the address of the owner in lower
    case and the signature of the authorization.  The wills of the
    other ids are read as before.  All this is stored before the limits
    are formatted for the log: the call answers with a success and the
    id when both limits can be formatted, and with a failure that
    carries the message of the error when one of them cannot. *)
Theorem first_authorization_links_the_owner owner' beneficiaries totalAmount
    validUntil signature useStablecoin customLimits (st : DB * H) :
  verifyWillAuthorization owner' (map asObject beneficiaries) totalAmount validUntil
                          signature = true ->
  (forall existingWill, getWillByOwner owner' (fst st) = Some existingWill ->
                        status existingWill <> pending) ->
  let out := storeWillAuthorization owner' beneficiaries totalAmount validUntil signature
                                    useStablecoin customLimits st in
  let limits := mergeLimits customLimits in
  exists id w lw,
    id = fst (generateWillId (snd st))
    /\ getWillById (fst (snd out)) id = Some w
    /\ owner w = owner'
    /\ status w = pending
    /\ spendingLimits w = limits
    /\ useKitepass w = false
    /\ Database.beneficiaries w = map beneficiaryRow beneficiaries
    /\ In lw (getLinkedWalletsByWillId (fst (snd out)) id)
    /\ lw_address lw = toLowerCase owner'
    /\ lw_signature lw = signature
    /\ (forall id', id' <> id ->
          getWillById (fst (snd out)) id' = getWillById (fst st) id')
    /\ match Authorization.formatEther (perTxLimit limits) with
       | Thrown m => fst out = mkStoreResult false None (Some m)
       | Returned _ =>
           match Authorization.formatEther (dailyLimit limits) with
           | Thrown m => fst out = mkStoreResult false None (Some m)
           | Returned _ => fst out = mkStoreResult true (Some id) None
           end
       end.
Proof.
  intros Hv Hnone. cbv zeta.
  destruct (@store_first owner' beneficiaries totalAmount validUntil signature
              useStablecoin customLimits st Hv Hnone)
    as (id & t & t' & h' & Hid & Hrun).
  rewrite Hrun. cbn [fst snd].
  set (will := mkWill id owner' beneficiaries totalAmount (Qfloor validUntil) signature t
                      pending useStablecoin (mergeLimits customLimits)
                      None None false false).
  set (lw := mkLinkedWallet id owner' signature t' approved None).
  exists id, (willRow will), (linkedWalletRow lw).
  split; [exact Hid |].
  split; [apply (getWillById_saveWill will (fst st)) |].
  do 5 (split; [reflexivity |]).
  split.
  { apply In_getLinkedWalletsByWillId. split; [| split; reflexivity].
    unfold saveLinkedWallet. cbn [linked_wallets]. apply in_or_app. right. left. reflexivity. }
  split; [reflexivity |]. split; [reflexivity |].
  split; [intros id' Hne; apply (@getWillById_saveWill_other will (fst st) id' Hne) |].
  destruct (Authorization.formatEther (perTxLimit (mergeLimits customLimits))); [| reflexivity].
  destruct (Authorization.formatEther (dailyLimit (mergeLimits customLimits))); reflexivity.
Qed.

(** What a verified authorization leaves in the store, and how the
    call answers. *)
Lemma verified_store_validates owner' beneficiaries totalAmount
    validUntil signature useStablecoin customLimits (st : DB * H) :
  verifyWillAuthorization owner' (map asObject beneficiaries) totalAmount validUntil
                          signature = true ->
  let out := storeWillAuthorization owner' beneficiaries totalAmount validUntil signature
                                    useStablecoin customLimits st in
  let limits := mergeLimits customLimits in
  exists id,
    ~ validationCause (fst (snd out)) id owner'
    /\ ((sr_success (fst out) = true /\ sr_willId (fst out) = Some id)
        \/ (sr_success (fst out) = false
            /\ exists m, sr_error (fst out) = Some m
                         /\ (Authorization.formatEther (perTxLimit limits) = Thrown m
                             \/ Authorization.formatEther (dailyLimit limits) = Thrown m)))
    /\ ((exists e, getWillByOwner owner' (fst st) = Some e /\ status e = pending) ->
        sr_success (fst out) = true)
    /\ ((exists a b, Authorization.formatEther (perTxLimit limits) = Returned a
                     /\ Authorization.formatEther (dailyLimit limits) = Returned b) ->
        sr_success (fst out) = true).
Proof.
  intro Hv. cbv zeta.
  assert (Hcases :
    (exists e, getWillByOwner owner' (fst st) = Some e /\ status e = pending)
    \/ (forall e, getWillByOwner owner' (fst st) = Some e -> status e <> pending)).
  { destruct (getWillByOwner owner' (fst st)) as [e |].
    - destruct (status e) eqn:Hst.
      + left. exists e. split; [reflexivity | exact Hst].
      + right. intros e' E. injection E as <-. rewrite Hst. discriminate.
      + right. intros e' E. injection E as <-. rewrite Hst. discriminate.
    - right. intros e E. discriminate E. }
  destruct Hcases as [(e & Hfind & Hst) | Hnone].
  - rewrite (@store_again owner' beneficiaries totalAmount validUntil signature
               useStablecoin customLimits st e Hv Hfind Hst).
    cbn [fst snd sr_willId sr_success].
    exists (willId e). split.
    { unfold validationCause.
      rewrite (getWillById_saveWill
                 (reauthorized e beneficiaries totalAmount (Qfloor validUntil) signature
                               (fst (now (snd st))) useStablecoin) (fst st)).
      cbn. rewrite Hst.
      destruct (@getWillByOwner_some _ _ _ Hfind) as (_ & Hlow).
      intros [Hbad | Hbad]; [apply Hbad; exact Hlow | apply Hbad; reflexivity]. }
    split; [left; split; reflexivity |]. split; reflexivity.
  - destruct (@store_first owner' beneficiaries totalAmount validUntil signature
                useStablecoin customLimits st Hv Hnone)
      as (id & t & t' & h' & _ & Hrun).
    rewrite Hrun. cbn [fst snd].
    exists id. split.
    { unfold validationCause, getWillById. cbn [saveLinkedWallet wills].
      fold (getWillById
              (saveWill (mkWill id owner' beneficiaries totalAmount (Qfloor validUntil)
                                signature t pending useStablecoin
                                (mergeLimits customLimits) None None false false) (fst st)) id).
      rewrite (getWillById_saveWill
                 (mkWill id owner' beneficiaries totalAmount (Qfloor validUntil)
                         signature t pending useStablecoin
                         (mergeLimits customLimits) None None false false) (fst st)).
      cbn. intros [Hbad | Hbad]; apply Hbad; reflexivity. }
    split; [| split].
    + destruct (Authorization.formatEther (perTxLimit (mergeLimits customLimits))) as [a | m].
      * destruct (Authorization.formatEther (dailyLimit (mergeLimits customLimits))) as [b | m].
        -- left. split; reflexivity.
        -- right. split; [reflexivity |]. exists m. split; [reflexivity | right; reflexivity].
      * right. split; [reflexivity |]. exists m. split; [reflexivity | left; reflexivity].
    + intros (e & Hfind & Hst). exfalso. exact (Hnone e Hfind Hst).
    + intros (a & b & -> & ->). reflexivity.
Qed.

(** X22. What [storeWillAuthorization] stores can be executed by the
    owner: after a successful call, [executeWill] with the returned id
    and the same owner does not fail for a missing will, an owner
    mismatch or a will that is not pending. *)
Theorem stored_authorization_passes_the_validation owner' beneficiaries totalAmount
    validUntil signature useStablecoin customLimits (st : DB * H) :
  let out := storeWillAuthorization owner' beneficiaries totalAmount validUntil signature
                                    useStablecoin customLimits st in
  sr_success (fst out) = true ->
  exists id, sr_willId (fst out) = Some id
             /\ ~ validationCause (fst (snd out)) id owner'.
Proof.
  cbv zeta. intro Hok.
  destruct (verifyWillAuthorization owner' (map asObject beneficiaries) totalAmount
                                    validUntil signature) eqn:Hv.
  - destruct (@verified_store_validates owner' beneficiaries totalAmount validUntil
                signature useStablecoin customLimits st Hv)
      as (id & Hvalid & [(_ & Hid) | (Hfailed & _)] & _).
    + exists id. split; assumption.
    + rewrite Hok in Hfailed. discriminate Hfailed.
  - unfold storeWillAuthorization in Hok. destruct st as [d h].
    rewrite Hv in Hok. discriminate Hok.
Qed.

(** X23. From the wallet of the owner to the store.  Under the same
    assumption on the wallet, what [signWillAuthorization] returns for
    a list of beneficiaries is stored by [storeWillAuthorization]: the
    store then holds a will, under some id, that passes the validation
    of [executeWill] for this owner.  The call answers with a success
    and this id, or -- the will being stored all the same -- with a
    failure that carries the message of a limit that cannot be
    formatted; it succeeds whenever the owner already has a pending
    will and whenever both limits can be formatted. *)
Theorem signed_authorization_is_stored beneficiaries totalAmount validUntil
    (signer : OwnerSignature.Signer) signed useStablecoin customLimits (st : DB * H) :
  OwnerSignature.recovers signer ->
  OwnerSignature.signWillAuthorization (map asObject beneficiaries) totalAmount
                                        validUntil signer = Returned signed ->
  let owner' := OwnerSignature.was_owner signed in
  let out := storeWillAuthorization owner' beneficiaries
               totalAmount validUntil (OwnerSignature.was_signature signed)
               useStablecoin customLimits st in
  let limits := mergeLimits customLimits in
  exists id,
    ~ validationCause (fst (snd out)) id owner'
    /\ ((sr_success (fst out) = true /\ sr_willId (fst out) = Some id)
        \/ (sr_success (fst out) = false
            /\ exists m, sr_error (fst out) = Some m
                         /\ (Authorization.formatEther (perTxLimit limits) = Thrown m
                             \/ Authorization.formatEther (dailyLimit limits) = Thrown m)))
    /\ ((exists e, getWillByOwner owner' (fst st) = Some e /\ status e = pending) ->
        sr_success (fst out) = true)
    /\ ((exists a b, Authorization.formatEther (perTxLimit limits) = Returned a
                     /\ Authorization.formatEther (dailyLimit limits) = Returned b) ->
        sr_success (fst out) = true).
Proof.
  intros Hrec Hsigned.
  destruct (@OwnerSignatureProps.signed_verifies RT (map asObject beneficiaries) totalAmount
              validUntil signer signed Hrec Hsigned)
    as (Hv & _ & Hbs & Htotal & Huntil).
  rewrite Hbs, Htotal, Huntil in Hv.
  apply (@verified_store_validates (OwnerSignature.was_owner signed) beneficiaries
           totalAmount validUntil (OwnerSignature.was_signature signed)
           useStablecoin customLimits st Hv).
Qed.

End Service.
(** *** The scenarios *)

Import Scenarios.Signing Scenarios.Ledger Cases.

Lemma reauthorization_keeps_the_will_and_its_limits_witness :
  let st := (earlierStore, 0%Z) in
  let out := storeWillAuthorization ownerAddress heirs "1000" 1798761600 authorization
                                    true (Some tighter) st in
  fst out = mkStoreResult true (Some "will_0") None
  /\ (exists w,
        getWillById (fst (snd out)) "will_0" = Some w
        /\ owner w = ownerAddress
        /\ status w = pending
        /\ spendingLimits w = limits 10 20 0 yesterday
        /\ useKitepass w = false
        /\ Database.beneficiaries w = map beneficiaryRow heirs
        /\ Database.signature w = authorization
        /\ Database.useStablecoin w = true
        /\ createdAt w = 1767225600000%Z)
  /\ (forall id, id <> "will_0" ->
        getWillById (fst (snd out)) id = getWillById earlierStore id)
  /\ linked_wallets (fst (snd out)) = linked_wallets earlierStore
  /\ out = storeWillAuthorization ownerAddress heirs "1000" 1798761600 authorization
                                  true None st.
Proof.
  apply (@reauthorization_keeps_the_will_and_its_limits toyRuntime Z server
           ownerAddress heirs "1000" 1798761600 authorization true (Some tighter)
           (earlierStore, 0%Z) earlierWill).
  - vm_compute. reflexivity.
  - vm_compute. reflexivity.
  - reflexivity.
Defined.

Lemma first_authorization_links_the_owner_witness :
  let st := (emptyStore, 0%Z) in
  let out := storeWillAuthorization ownerAddress heirs "1000" 1798761600 authorization
                                    true (Some tighter) st in
  exists id w lw,
    id = fst (generateWillId (snd st))
    /\ getWillById (fst (snd out)) id = Some w
    /\ owner w = ownerAddress
    /\ status w = pending
    /\ spendingLimits w = mergeLimits (Some tighter)
    /\ useKitepass w = false
    /\ Database.beneficiaries w = map beneficiaryRow heirs
    /\ In lw (getLinkedWalletsByWillId (fst (snd out)) id)
    /\ lw_address lw = toLowerCase ownerAddress
    /\ lw_signature lw = authorization
    /\ (forall id', id' <> id ->
          getWillById (fst (snd out)) id' = getWillById (fst st) id')
    /\ fst out = mkStoreResult true (Some id) None.
Proof.
  exact (@first_authorization_links_the_owner toyRuntime Z server
           ownerAddress heirs "1000" 1798761600 authorization true (Some tighter)
           (emptyStore, 0%Z) eq_refl
           (fun existingWill (Hfind : getWillByOwner ownerAddress emptyStore
                                      = Some existingWill) =>
              match Hfind in _ = o
                    return match o with Some _ => status existingWill <> pending
                                   | None => True end
              with eq_refl => I end)).
Defined.

(** With a cap of a transfer that is no integer the same call answers
    with a failure, and the will and the wallet of the owner are stored
    all the same. *)
Lemma fractional_limit_fails_after_storing :
  let out := storeWillAuthorization ownerAddress heirs "1000" 1798761600 authorization
                                    true (Some fractional) (emptyStore, 0%Z) in
  fst out = mkStoreResult false None (Some "invalid BigNumberish string")
  /\ map (fun w => (willId w, status w, perTxLimit (spendingLimits w)))
         (wills (fst (snd out)))
     = [("will_1767225600000_k3x9q", pending, "1.5")]
  /\ map lw_address (linked_wallets (fst (snd out))) = [toLowerCase ownerAddress].
Proof.
  vm_compute. repeat split.
Qed.

Lemma stored_authorization_passes_the_validation_witness :
  let out := storeWillAuthorization ownerAddress heirs "1000" 1798761600 authorization
                                    true None (emptyStore, 0%Z) in
  exists id, sr_willId (fst out) = Some id
             /\ ~ validationCause (fst (snd out)) id ownerAddress.
Proof.
  apply (@stored_authorization_passes_the_validation toyRuntime Z server
           ownerAddress heirs "1000" 1798761600 authorization true None
           (emptyStore, 0%Z)).
  vm_compute. reflexivity.
Defined.

Lemma signed_authorization_is_stored_witness :
  let signed := OwnerSignature.mkSigned ownerAddress (map asObject heirs) "1000"
                                        1798761600 authorization in
  let owner' := OwnerSignature.was_owner signed in
  let out := storeWillAuthorization owner' heirs "1000"
               1798761600 (OwnerSignature.was_signature signed) true None
               (emptyStore, 0%Z) in
  let limits := @mergeLimits Z server None in
  exists id,
    ~ validationCause (fst (snd out)) id owner'
    /\ ((sr_success (fst out) = true /\ sr_willId (fst out) = Some id)
        \/ (sr_success (fst out) = false
            /\ exists m, sr_error (fst out) = Some m
                         /\ (Authorization.formatEther (perTxLimit limits) = Thrown m
                             \/ Authorization.formatEther (dailyLimit limits) = Thrown m)))
    /\ ((exists e, getWillByOwner owner' (fst (emptyStore, 0%Z)) = Some e
                   /\ status e = pending) ->
        sr_success (fst out) = true)
    /\ ((exists a b, Authorization.formatEther (perTxLimit limits) = Returned a
                     /\ Authorization.formatEther (dailyLimit limits) = Returned b) ->
        sr_success (fst out) = true).
Proof.
  apply (@signed_authorization_is_stored toyRuntime Z server
           heirs "1000" 1798761600 ownerSigner
           (OwnerSignature.mkSigned ownerAddress (map asObject heirs) "1000"
                                    1798761600 authorization)
           true None (emptyStore, 0%Z)).
  - exact OwnerSignatureProps.ownerSigner_recovers.
  - vm_compute. reflexivity.
Defined.

End AuthorizationProps.

(** ** Linking a wallet *)

Module WalletRoutesProps.
Import JS Database Tables Authorization WalletRoutes TablesProps.
Open Scope string_scope.

Section Routes.
Context {H : Type} {host : Host H}.

(** X24. The route that links a wallet checks no signature.  For a will
    that is stored, in a store that keeps addresses in lower case, any
    address and any signature that are not empty are answered with
    success, and the wallet the answer carries, under the lower-cased
    address, is among the wallets of the fan-out of the will
    afterwards.  A wallet that was already approved is left as it was,
    with its approval time; the wills are untouched. *)
Theorem any_signature_links_a_wallet (id address' signature : string) (st : DB * H) :
  known (fst st) id ->
  lowerCased (fst st) ->
  address' <> "" ->
  signature <> "" ->
  let out := postWallet id (Some address') (Some signature) st in
  http_status (fst out) = 200%Z
  /\ link_success (fst out) = true
  /\ (exists lw, In lw (getLinkedWalletsByWillId (fst (snd out)) id)
                 /\ lw_address lw = toLowerCase address'
                 /\ link_wallet (fst out) = Some lw)
  /\ (forall existing,
        getLinkedWallet (fst st) id address' = Some existing ->
        lw_status existing = approved -> snd out = st)
  /\ lowerCased (fst (snd out))
  /\ wills (fst (snd out)) = wills (fst st).
Proof.
  intros _ Hlow Ha Hs. cbv zeta. destruct st as [d h]. cbn [fst snd] in *.
  unfold postWallet. cbn [WillService.truthy].
  apply String.eqb_neq in Ha, Hs. rewrite Ha, Hs. cbn [negb orb].
  assert (Hlinked :
    forall t,
      let wallet := mkLinkedWallet id (toLowerCase address') signature t approved None in
      (exists lw, In lw (getLinkedWalletsByWillId (saveLinkedWallet wallet d) id)
                  /\ lw_address lw = toLowerCase address' /\ Some wallet = Some lw)
      /\ lowerCased (saveLinkedWallet wallet d)
      /\ wills (saveLinkedWallet wallet d) = wills d).
  { intros t wallet. split; [| split; [apply lowerCased_saveLinkedWallet; exact Hlow
                                          | reflexivity]].
    exists wallet. split; [| split; reflexivity].
    apply In_getLinkedWalletsByWillId. split; [| split; reflexivity].
    unfold saveLinkedWallet. cbn [linked_wallets]. apply in_or_app. right. left.
    unfold linkedWalletRow, wallet. cbn. rewrite toLowerCase_idem. reflexivity. }
  destruct (getLinkedWallet d id address') as [existing |] eqn:Hfind.
  - destruct (lw_status existing) eqn:Hst; cbn [isApproved].
    + destruct (now h) as [t h1]. cbn [fst snd http_status link_success link_wallet].
      destruct (Hlinked t) as (Hin & Hl & Hw).
      split; [reflexivity |]. split; [reflexivity |]. split; [exact Hin |].
      split; [intros e E Happroved; injection E as <-; congruence |]. split; assumption.
    + cbn [fst snd http_status link_success link_wallet].
      split; [reflexivity |]. split; [reflexivity |].
      split.
      { exists existing. unfold getLinkedWallet in Hfind. apply find_some in Hfind.
        destruct Hfind as (Hin & Hw). unfold isWallet in Hw.
        apply andb_true_iff in Hw. destruct Hw as (Hid & Haddr).
        apply String.eqb_eq in Hid, Haddr.
        split; [| split; [| reflexivity]].
        - apply In_getLinkedWalletsByWillId. repeat split; assumption.
        - unfold lowerCased in Hlow. rewrite Forall_forall in Hlow.
          rewrite <- (Hlow existing Hin). exact Haddr. }
      split; [intros; reflexivity |]. split; [exact Hlow | reflexivity].
    + destruct (now h) as [t h1]. cbn [fst snd http_status link_success link_wallet].
      destruct (Hlinked t) as (Hin & Hl & Hw).
      split; [reflexivity |]. split; [reflexivity |]. split; [exact Hin |].
      split; [intros e E Happroved; injection E as <-; congruence |]. split; assumption.
  - destruct (now h) as [t h1]. cbn [fst snd http_status link_success link_wallet].
    destruct (Hlinked t) as (Hin & Hl & Hw).
    split; [reflexivity |]. split; [reflexivity |]. split; [exact Hin |].
    split; [intros e E; discriminate E |]. split; assumption.
Qed.

End Routes.

(** *** The scenarios *)

Import Scenarios.Ledger Cases.

Lemma any_signature_links_a_wallet_witness :
  let st := (store pending fresh, 0%Z) in
  let out := postWallet "will_1" (Some "0xABC0000000000000000000000000000000000002")
                        (Some "anything") st in
  http_status (fst out) = 200%Z
  /\ link_success (fst out) = true
  /\ (exists lw, In lw (getLinkedWalletsByWillId (fst (snd out)) "will_1")
                 /\ lw_address lw = secondWallet
                 /\ link_wallet (fst out) = Some lw)
  /\ (forall existing,
        getLinkedWallet (fst st) "will_1" "0xABC0000000000000000000000000000000000002"
        = Some existing ->
        lw_status existing = approved -> snd out = st)
  /\ lowerCased (fst (snd out))
  /\ wills (fst (snd out)) = wills (fst st).
Proof.
  apply (@any_signature_links_a_wallet Z server "will_1"
           "0xABC0000000000000000000000000000000000002" "anything"
           (store pending fresh, 0%Z)).
  - left. reflexivity.
  - repeat constructor.
  - discriminate.
  - discriminate.
Defined.

End WalletRoutesProps.

(** ** Withdrawals in a batch *)

Module KitepassBatchProps.
Import JS Database WillService KitepassBatch.
Open Scope string_scope.

Section Batch.
Context {W : Type} {C : Collaborators W}.



End Batch.
(** *** The scenarios *)

Import Scenarios.Ledger Cases.


End KitepassBatchProps.

(** ** The death certificate registry *)

Module RegistryProps.
Import JS Registry.
Open Scope string_scope.
Open Scope Z_scope.

Lemma write_same {A} (m : Z -> A) (k : Z) (v : A) : write m k v k = v.
Proof. unfold write. rewrite Z.eqb_refl. reflexivity. Qed.

Lemma write_other {A} (m : Z -> A) (k k' : Z) (v : A) : k' <> k -> write m k v k' = m k'.
Proof. intro H. unfold write. apply Z.eqb_neq in H. rewrite H. reflexivity. Qed.

(** What a call of [recordDeath] that goes through has checked and
    written. *)
Lemma recordDeath_returned tx i o n m (s s' : State) :
  recordDeath tx i o n m s = Returned s' ->
  onlyRecorder tx s = true /\ i <> 0 /\ o <> 0
  /\ c_timestamp (certificates s i) = 0
  /\ s' = mkState (admin s) (recorder s)
                  (write (certificates s) i
                         (mkCertificate i o (timestamp tx) n m (sender tx)))
                  (write (ownerToWillId s) o i)
                  (totalCertificates s + 1).
Proof.
  unfold recordDeath.
  destruct (onlyRecorder tx s); cbn [negb]; [| discriminate].
  destruct (i =? 0) eqn:Hi; [discriminate |].
  destruct (o =? 0) eqn:Ho; [discriminate |].
  destruct (c_timestamp (certificates s i) =? 0) eqn:Ht; cbn [negb]; [| discriminate].
  destruct (totalCertificates s =? maxUint256); [discriminate |].
  intro E. injection E as <-.
  apply Z.eqb_neq in Hi, Ho. apply Z.eqb_eq in Ht. repeat split; assumption.
Qed.

(** The calls of the administration leave the certificates alone. *)
Lemma administration_keeps_certificates (c : Call) (s : State) :
  (forall tx i o n m, c <> RecordDeath tx i o n m) ->
  certificates (after c s) = certificates s
  /\ ownerToWillId (after c s) = ownerToWillId s
  /\ totalCertificates (after c s) = totalCertificates s.
Proof.
  intro Hc. unfold after. destruct c as [tx i o n m | tx a | tx a]; cbn [perform].
  - exfalso. eapply Hc. reflexivity.
  - unfold setRecorder. destruct (onlyAdmin tx s); cbn [negb]; [| repeat split].
    destruct (a =? 0); repeat split.
  - unfold transferAdmin. destruct (onlyAdmin tx s); cbn [negb]; [| repeat split].
    destruct (a =? 0); repeat split.
Qed.

Lemma recorded_after (c : Call) (s : State) (i : Z) :
  isRecorded i s = true -> certificates (after c s) i = certificates s i.
Proof.
  intro Hrec. unfold isRecorded in Hrec. apply Z.gtb_lt in Hrec.
  destruct c as [tx j o n m | tx a | tx a].
  - unfold after. cbn [perform].
    destruct (recordDeath tx j o n m s) as [s' | reason] eqn:Hcall; [| reflexivity].
    apply recordDeath_returned in Hcall.
    destruct Hcall as (_ & _ & _ & Hfree & ->). cbn [certificates].
    apply write_other. intros ->. lia.
  - rewrite (proj1 (@administration_keeps_certificates (SetRecorder tx a) s
                      ltac:(discriminate))). reflexivity.
  - rewrite (proj1 (@administration_keeps_certificates (TransferAdmin tx a) s
                      ltac:(discriminate))). reflexivity.
Qed.

Lemma recorded_run (cs : list Call) (s : State) (i : Z) :
  isRecorded i s = true -> certificates (run cs s) i = certificates s i.
Proof.
  revert s. induction cs as [| c cs IH]; intros s Hrec; [reflexivity |].
  simpl. rewrite IH.
  - apply recorded_after. exact Hrec.
  - unfold isRecorded in *. rewrite (recorded_after c s i Hrec). exact Hrec.
Qed.

(** X26. A death certificate is written once.  Once an id is recorded in
    the registry, no sequence of calls changes its certificate, the id
    stays recorded, and every further [recordDeath] for it reverts --
    with "Already recorded" when the caller is authorized and the id and
    the owner are not zero. *)
Theorem a_certificate_is_final (cs : list Call) (s : State) (i : Z) :
  isRecorded i s = true ->
  certificates (run cs s) i = certificates s i
  /\ getCertificate i (run cs s) = getCertificate i s
  /\ isRecorded i (run cs s) = true
  /\ forall tx o n m, exists reason,
       recordDeath tx i o n m (run cs s) = Thrown reason
       /\ (onlyRecorder tx (run cs s) = true -> i <> 0 -> o <> 0 ->
           reason = "Already recorded").
Proof.
  intro Hrec. pose proof (recorded_run cs s i Hrec) as Hsame.
  split; [exact Hsame |].
  split; [unfold getCertificate; rewrite Hsame; reflexivity |].
  assert (Hstill : isRecorded i (run cs s) = true).
  { unfold isRecorded in *. rewrite Hsame. exact Hrec. }
  split; [exact Hstill |].
  intros tx o n m. unfold recordDeath.
  unfold isRecorded in Hstill. apply Z.gtb_lt in Hstill.
  destruct (onlyRecorder tx (run cs s)); cbn [negb].
  2:{ eexists. split; [reflexivity | discriminate]. }
  destruct (i =? 0) eqn:Hi.
  { eexists. split; [reflexivity |]. intros _ Hne. apply Z.eqb_eq in Hi. contradiction. }
  destruct (o =? 0) eqn:Ho.
  { eexists. split; [reflexivity |]. intros _ _ Hne. apply Z.eqb_eq in Ho. contradiction. }
  destruct (c_timestamp (certificates (run cs s) i) =? 0) eqn:Ht.
  { apply Z.eqb_eq in Ht. lia. }
  cbn [negb]. eexists. split; reflexivity.
Qed.

(** *** The invariant *)

Lemma consistent_deploy tx rec (s : State) : deploy tx rec = Returned s -> consistent s.
Proof.
  unfold deploy. destruct (rec =? 0); [discriminate |]. intro E. injection E as <-.
  unfold consistent. cbn. repeat split; lia.
Qed.

Lemma consistent_after (c : Call) (s : State) :
  0 < timestamp (txOf c) -> consistent s -> consistent (after c s).
Proof.
  intros Htime Hs.
  destruct c as [tx i o n m | tx a | tx a].
  2,3: (unfold after; cbn [perform]; unfold setRecorder, transferAdmin;
        destruct (onlyAdmin tx s); cbn [negb]; [| exact Hs];
        destruct (a =? 0); exact Hs).
  unfold after. cbn [perform].
  destruct (recordDeath tx i o n m s) as [s' | reason] eqn:Hcall; [| exact Hs].
  apply recordDeath_returned in Hcall.
  destruct Hcall as (_ & Hi & Ho & Hfree & ->).
  destruct Hs as (H0 & Hnn & Hown & Hcert). cbn [txOf] in Htime.
  unfold consistent. cbn [certificates ownerToWillId].
  split; [rewrite write_other by congruence; exact H0 |].
  split.
  { intro j. destruct (Z.eq_dec j i) as [-> | Hj].
    - rewrite write_same. cbn. lia.
    - rewrite write_other by exact Hj. apply Hnn. }
  split.
  { intros p Hp. destruct (Z.eq_dec p o) as [-> | Hpo].
    - rewrite write_same in *. rewrite write_same. cbn. split; [exact Htime | reflexivity].
    - rewrite (write_other _ _ Hpo) in *.
      destruct (Hown p Hp) as (Hts & Howner).
      assert (Hj : ownerToWillId s p <> i) by (intros E; rewrite E in Hts; lia).
      rewrite (write_other _ _ Hj). split; assumption. }
  intros j Hj. destruct (Z.eq_dec j i) as [-> | Hji].
  - rewrite write_same in *. cbn. rewrite write_same. exact Hi.
  - rewrite (write_other _ _ Hji) in *.
    destruct (Z.eq_dec (c_owner (certificates s j)) o) as [-> | Hpo].
    + rewrite write_same. exact Hi.
    + rewrite (write_other _ _ Hpo). apply Hcert. exact Hj.
Qed.

Lemma consistent_run (cs : list Call) (s : State) :
  timed cs -> consistent s -> consistent (run cs s).
Proof.
  revert s. induction cs as [| c cs IH]; intros s Ht Hs; [exact Hs |].
  inversion Ht as [| c' cs' Hc Hcs]; subst. simpl.
  apply IH; [exact Hcs | apply consistent_after; assumption].
Qed.

Lemma deceased_iff_named (s : State) (o : Z) :
  consistent s ->
  (isDeceased o s = true <->
   exists i, isRecorded i s = true /\ c_owner (certificates s i) = o).
Proof.
  intros (H0 & Hnn & Hown & Hcert). unfold isDeceased, isRecorded. split.
  - intro Hd. apply Z.gtb_lt in Hd.
    assert (Hne : ownerToWillId s o <> 0) by (intros E; rewrite E in Hd; lia).
    exists (ownerToWillId s o). split; [apply Z.gtb_lt; exact Hd | apply Hown; exact Hne].
  - intros (i & Hrec & <-). apply Z.gtb_lt in Hrec. apply Z.gtb_lt.
    apply Hown. apply Hcert. exact Hrec.
Qed.

Lemma recordedIds_spec (cs : list Call) (s : State) :
  timed cs ->
  NoDup (recordedIds cs s)
  /\ (forall i, In i (recordedIds cs s) -> isRecorded i s = false /\ i <> 0)
  /\ (forall i, isRecorded i (run cs s) = true <->
                isRecorded i s = true \/ In i (recordedIds cs s))
  /\ totalCertificates (run cs s)
     = totalCertificates s + Z.of_nat (List.length (recordedIds cs s)).
Proof.
  revert s. induction cs as [| c cs IH]; intros s Ht.
  { simpl. split; [constructor |]. split; [intros i [] |].
    split; [intro i; tauto | lia]. }
  inversion Ht as [| c' cs' Hc Hcs]; subst.
  destruct (IH (after c s) Hcs) as (Hnd & Hfresh & Hrec & Htotal).
  assert (Hadmin : (forall tx i o n m, c <> RecordDeath tx i o n m) \/
                   (exists tx i o n m reason, c = RecordDeath tx i o n m
                      /\ perform c s = Thrown reason) ->
                   recordedIds (c :: cs) s = recordedIds cs (after c s)
                   /\ certificates (after c s) = certificates s
                   /\ totalCertificates (after c s) = totalCertificates s).
  { intros [Hc' | (tx & i & o & n & m & reason & -> & Hthrown)].
    - destruct (administration_keeps_certificates s Hc') as (Hcert & _ & Htot).
      split; [| split; assumption].
      destruct c as [tx i o n m | tx a | tx a]; [exfalso; eapply Hc'; reflexivity | |];
        cbn [recordedIds]; try reflexivity;
        match goal with |- context [match ?x with _ => _ end] => destruct x end;
        reflexivity.
    - simpl. unfold after. cbn [perform] in *. rewrite Hthrown. repeat split. }
  assert (Hquiet : recordedIds (c :: cs) s = recordedIds cs (after c s) ->
                   certificates (after c s) = certificates s ->
                   totalCertificates (after c s) = totalCertificates s ->
                   NoDup (recordedIds (c :: cs) s)
                   /\ (forall i, In i (recordedIds (c :: cs) s) ->
                                 isRecorded i s = false /\ i <> 0)
                   /\ (forall i, isRecorded i (run (c :: cs) s) = true <->
                                 isRecorded i s = true \/ In i (recordedIds (c :: cs) s))
                   /\ totalCertificates (run (c :: cs) s)
                      = totalCertificates s
                        + Z.of_nat (List.length (recordedIds (c :: cs) s))).
  { intros -> Hcert Htot. cbn [run]. unfold isRecorded in *. rewrite Hcert, Htot in *.
    repeat split; try assumption; try (apply Hfresh; assumption); apply Hrec. }
  destruct c as [tx i o n m | tx a | tx a].
  2,3: (destruct Hadmin as (E1 & E2 & E3); [left; discriminate |];
        apply Hquiet; assumption).
  destruct (recordDeath tx i o n m s) as [s' | reason] eqn:Hcall.
  2:{ destruct Hadmin as (E1 & E2 & E3).
      { right. exists tx, i, o, n, m, reason. split; [reflexivity | exact Hcall]. }
      apply Hquiet; assumption. }
  pose proof Hcall as Hwritten. apply recordDeath_returned in Hwritten.
  destruct Hwritten as (_ & Hi & Ho & Hfree & Hs').
  assert (Hafter : after (RecordDeath tx i o n m) s = s').
  { unfold after. cbn [perform]. rewrite Hcall. reflexivity. }
  cbn [recordedIds run perform]. rewrite Hcall. rewrite Hafter in *.
  cbn [txOf] in Hc.
  assert (Hnow : isRecorded i s' = true).
  { unfold isRecorded. rewrite Hs'. cbn [certificates]. rewrite write_same. cbn.
    apply Z.gtb_lt. exact Hc. }
  assert (Hbefore : forall j, j <> i -> isRecorded j s' = isRecorded j s).
  { intros j Hj. unfold isRecorded. rewrite Hs'. cbn [certificates].
    rewrite (write_other _ _ Hj). reflexivity. }
  split.
  { constructor; [| exact Hnd]. intro Hin. apply Hfresh in Hin.
    destruct Hin as (Hin & _). congruence. }
  split.
  { intros j [<- | Hin].
    - split; [| exact Hi]. unfold isRecorded. rewrite Hfree. reflexivity.
    - destruct (Hfresh j Hin) as (Hj & Hj0). split; [| exact Hj0].
      destruct (Z.eq_dec j i) as [-> | Hji]; [congruence |].
      rewrite <- (Hbefore j Hji). exact Hj. }
  split.
  { intro j. rewrite Hrec. destruct (Z.eq_dec j i) as [-> | Hji].
    - split; [intros _; right; left; reflexivity | intros _; left; exact Hnow].
    - rewrite (Hbefore j Hji). cbn [In]. intuition congruence. }
  rewrite Htotal. rewrite Hs' at 1. cbn [totalCertificates List.length].
  lia.
Qed.

(** X27. After the deployment and any calls in blocks with a positive
    timestamp, the recorded ids are exactly the ids of the calls of
    [recordDeath] that went through, none of them twice;
    [totalCertificates] is their number; the zero id is not recorded;
    and [isDeceased] holds of an owner exactly when a recorded
    certificate names this owner. *)
Theorem registry_counts_what_it_records tx0 rec (cs : list Call) (s0 : State) :
  deploy tx0 rec = Returned s0 ->
  timed cs ->
  let s := run cs s0 in
  NoDup (recordedIds cs s0)
  /\ (forall i, isRecorded i s = true <-> In i (recordedIds cs s0))
  /\ totalCertificates s = Z.of_nat (List.length (recordedIds cs s0))
  /\ isRecorded 0 s = false
  /\ (forall o, isDeceased o s = true <->
                exists i, isRecorded i s = true /\ c_owner (certificates s i) = o).
Proof.
  intros Hdeploy Ht. cbv zeta.
  pose proof (consistent_run Ht (consistent_deploy _ _ Hdeploy)) as Hcons.
  destruct (recordedIds_spec s0 Ht) as (Hnd & _ & Hrec & Htotal).
  assert (Hfresh : forall i, isRecorded i s0 = false /\ totalCertificates s0 = 0).
  { intro i. unfold deploy in Hdeploy. destruct (rec =? 0); [discriminate |].
    injection Hdeploy as <-. split; reflexivity. }
  split; [exact Hnd |]. split.
  { intro i. rewrite Hrec. destruct (Hfresh i) as (Hi & _). rewrite Hi.
    intuition discriminate. }
  split; [rewrite Htotal; destruct (Hfresh 0) as (_ & ->); lia |].
  split.
  { destruct Hcons as (H0 & _). unfold isRecorded. rewrite H0. reflexivity. }
  intro o. apply deceased_iff_named. exact Hcons.
Qed.

(** *** The scenarios *)

Import Cases.

Lemma a_certificate_is_final_witness :
  let s := after (RecordDeath (mkTx custodyAccount 200) 7 9 2 "gone") deployed in
  let later := [RecordDeath (mkTx custodyAccount 400) 7 5 1 "gone again";
                TransferAdmin (mkTx deployer 500) stranger] in
  certificates (run later s) 7 = certificates s 7
  /\ getCertificate 7 (run later s) = getCertificate 7 s
  /\ isRecorded 7 (run later s) = true
  /\ forall tx o n m, exists reason,
       recordDeath tx 7 o n m (run later s) = Thrown reason
       /\ (onlyRecorder tx (run later s) = true -> 7 <> 0 -> o <> 0 ->
           reason = "Already recorded").
Proof.
  apply (@a_certificate_is_final
           [RecordDeath (mkTx custodyAccount 400) 7 5 1 "gone again";
            TransferAdmin (mkTx deployer 500) stranger]
           (after (RecordDeath (mkTx custodyAccount 200) 7 9 2 "gone") deployed) 7).
  reflexivity.
Defined.

Lemma registry_counts_what_it_records_witness :
  let s := run calls deployed in
  NoDup (recordedIds calls deployed)
  /\ (forall i, isRecorded i s = true <-> In i (recordedIds calls deployed))
  /\ totalCertificates s = Z.of_nat (List.length (recordedIds calls deployed))
  /\ isRecorded 0 s = false
  /\ (forall o, isDeceased o s = true <->
                exists i, isRecorded i s = true /\ c_owner (certificates s i) = o).
Proof.
  apply (@registry_counts_what_it_records (mkTx deployer 100) custodyAccount calls deployed).
  - reflexivity.
  - repeat constructor.
Defined.

End RegistryProps.
